(** * toch: moving tabular data into ClickHouse

    A shallow embedding of the command [toch] and the properties of its
    flag validation, reader construction, header processing and type
    resolution.

    The repository holds two revisions of the program:
    - [R1]: [src/toch.go];
    - [R2]: [src/unnamed/part_000], which adds the [-i] option, the help
      text and a changed [isIn].
    Definitions that differ between the two take the revision as their first
    argument; everything else is shared. *)

From Stdlib Require Import ZArith QArith Ascii String List Lia.
From stdpp Require Import base gmap strings list fin_maps pretty.
From Equations Require Import Equations.

Open Scope string_scope.
Open Scope Z_scope.

Inductive revision := R1 | R2.

(** ** Outcomes of Go code

    A Go function either returns a value, returns a non-nil [error], or
    panics (a run-time error that unwinds the whole program). *)

Inductive result (A : Type) : Type :=
| Ok (a : A)
| Err (msg : string)
| Panic (msg : string).
Arguments Ok {A} a.
Arguments Err {A} msg.
Arguments Panic {A} msg.

#[global] Instance result_ret : MRet result := fun A a => Ok a.
#[global] Instance result_bind : MBind result := fun A B f m =>
  match m with
  | Ok a => f a
  | Err e => Err e
  | Panic p => Panic p
  end.

Definition is_ok {A} (r : result A) : bool :=
  match r with Ok _ => true | _ => false end.

Definition is_panic {A} (r : result A) : bool :=
  match r with Panic _ => true | _ => false end.

(** ** The Go string library, on byte strings

    A Go [string] is a sequence of bytes; [string] of [ascii] is the same
    thing.  Indices are Go [int]s, modelled in [Z].

    [ToLower] and [ToUpper] map the ASCII letters and keep every other
    byte: this is what [strings.ToLower] and [strings.ToUpper] do on a
    string of ASCII bytes.  On a string with a byte from 0x80 the Go
    functions decode UTF-8, consult the Unicode tables (which are not part
    of the program) and write U+FFFD for a byte that is not valid UTF-8.
    A property that depends on the case mapping of such strings is
    therefore stated for names of ASCII bytes ([isASCII]), or with the
    case mapping left open ([processHeaderBy]). *)

Module GoStrings.

Definition byteval (c : ascii) : Z := Z.of_N (N_of_ascii c).

Definition lowerByte (c : ascii) : ascii :=
  if (65 <=? byteval c) && (byteval c <=? 90)
  then ascii_of_N (N_of_ascii c + 32) else c.

Definition upperByte (c : ascii) : ascii :=
  if (97 <=? byteval c) && (byteval c <=? 122)
  then ascii_of_N (N_of_ascii c - 32) else c.

Fixpoint mapBytes (f : ascii -> ascii) (s : string) : string :=
  match s with
  | EmptyString => EmptyString
  | String c s' => String (f c) (mapBytes f s')
  end.

Definition ToLower : string -> string := mapBytes lowerByte.
Definition ToUpper : string -> string := mapBytes upperByte.

(** [len(s)] *)
Definition len (s : string) : Z := Z.of_nat (String.length s).

(** [s[lo:hi]]; out of range bounds panic. *)
Definition slice (s : string) (lo hi : Z) : result string :=
  if (0 <=? lo) && (lo <=? hi) && (hi <=? len s)
  then Ok (substring (Z.to_nat lo) (Z.to_nat (hi - lo)) s)
  else Panic "slice bounds out of range".

(** [s[i]]; an index out of range panics. *)
Definition byteAt (s : string) (i : Z) : result ascii :=
  if (0 <=? i) && (i <? len s)
  then match String.get (Z.to_nat i) s with
       | Some c => Ok c
       | None => Panic "index out of range"
       end
  else Panic "index out of range".

Fixpoint memByte (c : ascii) (chars : string) : bool :=
  match chars with
  | EmptyString => false
  | String d chars' => Ascii.eqb c d || memByte c chars'
  end.

Fixpoint indexAny (s chars : string) : option nat :=
  match s with
  | EmptyString => None
  | String c s' =>
      if memByte c chars then Some 0%nat
      else S <$> indexAny s' chars
  end.

(** [strings.IndexAny]: the index of the first byte of [s] that is one of
    [chars], or -1. *)
Definition IndexAny (s chars : string) : Z :=
  match indexAny s chars with
  | Some i => Z.of_nat i
  | None => -1
  end.

(** [strings.Contains] *)
Fixpoint Contains (s substr : string) : bool :=
  String.prefix substr s ||
  match s with
  | EmptyString => false
  | String _ s' => Contains s' substr
  end.

(** Replacement of a non-empty [old]: [skip] counts the bytes of a match
    that are still to be dropped, [n] the replacements still allowed
    (negative: no limit). *)
Fixpoint replaceFrom (old new : string) (n : Z) (skip : nat) (s : string) : string :=
  match s with
  | EmptyString => EmptyString
  | String c s' =>
      match skip with
      | S k => replaceFrom old new n k s'
      | O =>
          if n =? 0 then s
          else if String.prefix old s
               then new ++ replaceFrom old new (n - 1) (String.length old - 1) s'
               else String c (replaceFrom old new n 0 s')
      end
  end.

(** Replacement of the empty string: [new] goes in front of the string and
    after each byte, at most [n] times. *)
Fixpoint replaceEmpty (new : string) (n : Z) (s : string) : string :=
  if n =? 0 then s
  else match s with
       | EmptyString => new
       | String c s' => new ++ String c (replaceEmpty new (n - 1) s')
       end.

(** [strings.Replace] *)
Definition Replace (s old new : string) (n : Z) : string :=
  if String.eqb old new || (n =? 0) then s
  else match old with
       | EmptyString => replaceEmpty new n s
       | _ => replaceFrom old new n 0 s
       end.

(** [strings.ReplaceAll] *)
Definition ReplaceAll (s old new : string) : string := Replace s old new (-1).

(** Splitting around a non-empty separator; [cur] is the field read so
    far. *)
Fixpoint splitFrom (sep : string) (skip : nat) (cur : string) (s : string) : list string :=
  match s with
  | EmptyString => [cur]
  | String c s' =>
      match skip with
      | S k => splitFrom sep k cur s'
      | O =>
          if String.prefix sep s
          then cur :: splitFrom sep (String.length sep - 1) EmptyString s'
          else splitFrom sep 0 (cur ++ String c EmptyString) s'
      end
  end.

Fixpoint explode (s : string) : list string :=
  match s with
  | EmptyString => []
  | String c s' => String c EmptyString :: explode s'
  end.

(** [strings.Split] *)
Definition Split (s sep : string) : list string :=
  match sep with
  | EmptyString => explode s
  | _ => splitFrom sep 0 EmptyString s
  end.

End GoStrings.
Import GoStrings.

(** ** Global tables *)

(** types of file formats toch handles *)
Definition types : list string := ["text"; "csv"; "xlsx"; "xls"].

(** reserved field names *)
Definition reserved : list string := ["index"].

(** allowed values for -t *)
Definition ftypes : list string := ["s"; "i"; "d"; "f"].

(** allowed values for -c (and -i) *)
Definition ctypes : list string := ["y"; "n"].

(** ** Small helpers of the program *)

Fixpoint inStack (check : string) (stack : list string) : bool :=
  match stack with
  | [] => false
  | s :: stack' => if String.eqb s check then true else inStack check stack'
  end.

(** [isIn] takes its needle by pointer: the result is the verdict together
    with the value the needle holds afterwards.  In [R1] the comparison uses
    the needle as stored (lower-cased only when [lower] is set); in [R2] it
    always uses a lower-cased copy, and stores it only when [lower] is
    set. *)
Definition isIn (rev : revision) (needle : string) (stack : list string)
    (lower : bool) : bool * string :=
  match rev with
  | R1 =>
      let needle' := if lower then ToLower needle else needle in
      (inStack needle' stack, needle')
  | R2 =>
      let check := ToLower needle in
      let needle' := if lower then check else needle in
      (inStack check stack, needle')
  end.

(** [sep] returns the field separator for the source type. *)
Definition sep (sType : string) : ascii :=
  if String.eqb sType "text" || String.eqb sType "xlsx"
  then ascii_of_nat 9 else ","%char.

(** ** toCamel *)

Definition chars : string := "._".

Definition isSep (c : ascii) : bool := memByte c chars.

(** One turn of the loop of [toCamel]: [None] when no separator is left
    and the loop ends, otherwise the string after the replacement.  The
    arguments of [strings.Replace] are evaluated from the left, so the
    two-byte slice is taken first. *)
Definition camelStep (snake : string) : result (option string) :=
  let ind := IndexAny snake chars in
  if 0 <=? ind then
    old ← slice snake ind (ind + 2);
    nxt ← slice snake (ind + 1) (ind + 2);
    Ok (Some (Replace snake old (ToUpper nxt) 1))
  else Ok None.

(** ** The loop of toCamel ends

    Each turn removes one byte, which is what the definition of the loop
    below recurses on. *)

Lemma substring_length_le (s : string) (i k : nat) :
  (i + k <= String.length s)%nat -> String.length (substring i k s) = k.
Proof.
  revert i k. induction s as [|c s IH]; intros i k H; simpl in *.
  - destruct i, k; simpl in *; try lia; reflexivity.
  - destruct i; [destruct k|]; simpl; auto.
    + f_equal. apply IH. lia.
    + apply IH. lia.
Qed.

Lemma slice_nat (s : string) (i k : nat) :
  slice s (Z.of_nat i) (Z.of_nat i + Z.of_nat k) =
  if decide (i + k <= String.length s)%nat then Ok (substring i k s)
  else Panic "slice bounds out of range".
Proof.
  unfold slice, len.
  destruct (decide (i + k <= String.length s)%nat) as [H|H].
  - replace ((0 <=? Z.of_nat i) && (Z.of_nat i <=? Z.of_nat i + Z.of_nat k) && (Z.of_nat i + Z.of_nat k <=? Z.of_nat (String.length s))) with true.
    + f_equal. f_equal; lia.
    + symmetry. rewrite !andb_true_iff, !Z.leb_le. lia.
  - replace ((0 <=? Z.of_nat i) && (Z.of_nat i <=? Z.of_nat i + Z.of_nat k) && (Z.of_nat i + Z.of_nat k <=? Z.of_nat (String.length s))) with false; [done|].
    symmetry. rewrite !andb_false_iff, !Z.leb_gt. lia.
Qed.

Lemma camelStep_nat s :
  camelStep s =
  match indexAny s chars with
  | None => Ok None
  | Some i =>
      if decide (i + 2 <= String.length s)%nat
      then Ok (Some (Replace s (substring i 2 s) (ToUpper (substring (i + 1) 1 s)) 1))
      else Panic "slice bounds out of range"
  end.
Proof.
  unfold camelStep, IndexAny.
  destruct (indexAny s chars) as [i|]; [|reflexivity].
  replace (0 <=? Z.of_nat i) with true by (symmetry; apply Z.leb_le; lia).
  change (Z.of_nat i + 2) with (Z.of_nat i + Z.of_nat 2).
  rewrite (slice_nat s i 2).
  destruct (decide (i + 2 <= String.length s)%nat) as [H|H]; [|reflexivity].
  cbn [mbind result_bind].
  replace (Z.of_nat i + 1) with (Z.of_nat (i + 1)) by lia.
  replace (Z.of_nat i + Z.of_nat 2) with (Z.of_nat (i + 1) + Z.of_nat 1) by lia.
  rewrite (slice_nat s (i + 1) 1).
  destruct (decide _) as [_|N]; [|lia].
  reflexivity.
Qed.

Lemma mapBytes_length f s : String.length (mapBytes f s) = String.length s.
Proof. induction s; simpl; congruence. Qed.

Lemma substring_0_0 s : substring 0 0 s = "".
Proof. destruct s; reflexivity. Qed.

Lemma replaceFrom_zero old new s : replaceFrom old new 0 0 s = s.
Proof. destruct s; reflexivity. Qed.

Lemma prefix_cons_same c s t : String.prefix (String c s) (String c t) = String.prefix s t.
Proof. simpl. destruct (ascii_dec c c); [reflexivity | congruence]. Qed.

Lemma prefix_cons_diff c d s t : c <> d -> String.prefix (String c s) (String d t) = false.
Proof. intros H. simpl. destruct (ascii_dec c d); [congruence | reflexivity]. Qed.

Lemma prefix_nil s : String.prefix "" s = true.
Proof. destruct s; reflexivity. Qed.

Lemma camelStep_sep_last c : isSep c = true -> camelStep (String c "") = Panic "slice bounds out of range".
Proof.
  intros H. rewrite camelStep_nat. cbn [indexAny]. fold (isSep c). rewrite H. reflexivity.
Qed.

Lemma camelStep_sep_next c d s : isSep c = true ->
  camelStep (String c (String d s)) = Ok (Some (String (upperByte d) s)).
Proof.
  intros H. rewrite camelStep_nat. cbn [indexAny]. fold (isSep c). rewrite H.
  destruct (decide _) as [_|N]; [|simpl in N; lia].
  cbn -[Replace]. rewrite substring_0_0. cbn [ToUpper mapBytes].
  unfold Replace.
  replace (String.eqb _ _) with false.
  2:{ symmetry. apply String.eqb_neq. intros E. inversion E. }
  cbn [orb Z.eqb replaceFrom].
  rewrite !prefix_cons_same, prefix_nil.
  cbn. rewrite replaceFrom_zero. reflexivity.
Qed.

Lemma indexAny_sep_head s i :
  indexAny s chars = Some i -> (i + 2 <= String.length s)%nat ->
  exists e f, substring i 2 s = String e (String f "") /\ isSep e = true.
Proof.
  revert i. induction s as [|c s IH]; intros i Hi Hl; [discriminate|].
  cbn [indexAny] in Hi. fold (isSep c) in Hi.
  destruct (isSep c) eqn:Hc.
  - inversion Hi; subst i. destruct s as [|d s]; [simpl in Hl; lia|].
    exists c, d. cbn. rewrite substring_0_0. auto.
  - destruct (indexAny s chars) as [j|] eqn:Hj; [|discriminate].
    inversion Hi; subst i. cbn [substring]. apply IH; [reflexivity|].
    simpl in Hl. lia.
Qed.

Lemma camelStep_cons_other c s : isSep c = false ->
  camelStep (String c s) =
  match camelStep s with
  | Ok None => Ok None
  | Ok (Some t) => Ok (Some (String c t))
  | Err e => Err e
  | Panic p => Panic p
  end.
Proof.
  intros Hc. rewrite !camelStep_nat. cbn [indexAny]. fold (isSep c). rewrite Hc.
  destruct (indexAny s chars) as [i|] eqn:Hi; [|reflexivity].
  cbn [fmap option_fmap option_map].
  destruct (decide (i + 2 <= String.length s)%nat) as [H|H].
  - destruct (decide _) as [_|N]; [|simpl in N; lia].
    destruct (indexAny_sep_head _ _ Hi H) as (e & f & He & Hsep).
    cbn [substring Nat.add]. rewrite He.
    unfold Replace.
    replace (String.eqb _ _) with false.
    2:{ symmetry. apply String.eqb_neq. intros E.
        apply (f_equal String.length) in E. unfold ToUpper in E.
        rewrite mapBytes_length in E. rewrite substring_length_le in E by lia.
        simpl in E. lia. }
    cbn [orb Z.eqb replaceFrom].
    rewrite prefix_cons_diff; [reflexivity|].
    intros ->. congruence.
  - destruct (decide _) as [N|_]; [simpl in N; lia|]. reflexivity.
Qed.

Lemma camelStep_shrinks s s' :
  camelStep s = Ok (Some s') -> (String.length s' < String.length s)%nat.
Proof.
  revert s'. induction s as [|c s IH]; intros s' H; [discriminate|].
  destruct (isSep c) eqn:Hc.
  - destruct s as [|d s].
    + rewrite camelStep_sep_last in H by assumption. discriminate.
    + rewrite camelStep_sep_next in H by assumption. inversion H; subst. simpl. lia.
  - rewrite camelStep_cons_other in H by assumption.
    destruct (camelStep s) as [[t|]| |]; try discriminate.
    inversion H; subst. specialize (IH t eq_refl). simpl. lia.
Qed.

Definition inspect {A} (a : A) : {b : A | a = b} := exist _ a eq_refl.

(** The loop of [toCamel]: [for ind := IndexAny(snake, chars); ind >= 0; {...}]. *)
Equations? camelLoop (snake : string) : result string
  by wf (String.length snake) lt :=
  camelLoop snake with inspect (camelStep snake) := {
    | exist _ (Ok None) _ => Ok snake
    | exist _ (Ok (Some snake')) _ => camelLoop snake'
    | exist _ (Err e) _ => Err e
    | exist _ (Panic p) _ => Panic p }.
Proof. apply camelStep_shrinks. assumption. Qed.

(** [toCamel] converts from snake case to camel case.  [R2] adds a
    replacement of the empty slice [snake[0:0]] by its lower-cased self. *)
Definition toCamel (rev : revision) (snake : string) : result string :=
  let snake := ReplaceAll snake " " "_" in
  snake ← match rev with
          | R1 => Ok snake
          | R2 =>
              first ← slice snake 0 0;
              Ok (Replace snake first (ToLower first) 1)
          end;
  let snake := ToLower snake in
  camelLoop snake.

(** ** Command line and flag validation *)

(** The values of the command-line options after [flag.Parse]. *)
Record Args := {
  host : string; user : string; password : string;
  table : string;
  sType : string; source : string;
  camelOpt : string; headerOpt : string; fieldOpt : string;
  quoteOpt : string; skipOpt : Z;
  ignoreOpt : string;                       (* -i, [R2] only *)
  xlRows : string; xlCols : string; xlSheet : string
}.

Definition dquote : string := String (ascii_of_nat 34) EmptyString.

(** The defaults that [main] gives to [flag.String] and [flag.Int]. *)
Definition defaultArgs : Args := {|
  host := "127.0.0.1"; user := "default"; password := "";
  table := "";
  sType := ""; source := "";
  camelOpt := "N"; headerOpt := ""; fieldOpt := "";
  quoteOpt := dquote; skipOpt := 0;
  ignoreOpt := "N";
  xlRows := "0:0"; xlCols := "0:0"; xlSheet := ""
|}.

(** [strconv.ParseInt(s, 10, 32)]: an optional sign, then decimal digits
    only, and a value that fits 32 bits. *)
Definition isDigit (c : ascii) : bool := (48 <=? byteval c) && (byteval c <=? 57).

Fixpoint digitsValue (acc : Z) (s : string) : option Z :=
  match s with
  | EmptyString => Some acc
  | String c s' =>
      if isDigit c then digitsValue (10 * acc + (byteval c - 48)) s' else None
  end.

Definition parseError (s reason : string) : string :=
  "strconv.ParseInt: parsing " ++ dquote ++ s ++ dquote ++ ": " ++ reason.

Definition ParseInt32 (s : string) : result Z :=
  let '(neg, body) :=
    match s with
    | String "+" s' => (false, s')
    | String "-" s' => (true, s')
    | _ => (false, s)
    end in
  match body with
  | EmptyString => Err (parseError s "invalid syntax")
  | _ =>
      match digitsValue 0 body with
      | None => Err (parseError s "invalid syntax")
      | Some v =>
          let v := if neg then - v else v in
          if (- 2 ^ 31 <=? v) && (v <=? 2 ^ 31 - 1) then Ok v
          else Err (parseError s "value out of range")
      end
  end.

(** The named results of [flags].  [err] is a variable like the others: it
    is assigned along the way and read by the caller at the return.
    [sTypeOut] is the value left in [*sTypePtr], which [isIn] lower-cases
    and [main] passes on. *)
Record FlagsRet := {
  headers : list string;
  fieldTypes : list string;
  camel : bool;
  ignore : bool;
  quote : Z;
  xlArea : list Z;
  err : option string;
  sTypeOut : string
}.

Definition setErr (e : option string) (r : FlagsRet) : FlagsRet :=
  {| headers := headers r; fieldTypes := fieldTypes r; camel := camel r;
     ignore := ignore r; quote := quote r; xlArea := xlArea r; err := e;
     sTypeOut := sTypeOut r |}.

Definition setCamel (b : bool) (r : FlagsRet) : FlagsRet :=
  {| headers := headers r; fieldTypes := fieldTypes r; camel := b;
     ignore := ignore r; quote := quote r; xlArea := xlArea r; err := err r;
     sTypeOut := sTypeOut r |}.

Definition setIgnore (b : bool) (r : FlagsRet) : FlagsRet :=
  {| headers := headers r; fieldTypes := fieldTypes r; camel := camel r;
     ignore := b; quote := quote r; xlArea := xlArea r; err := err r;
     sTypeOut := sTypeOut r |}.

Definition setQuote (q : Z) (r : FlagsRet) : FlagsRet :=
  {| headers := headers r; fieldTypes := fieldTypes r; camel := camel r;
     ignore := ignore r; quote := q; xlArea := xlArea r; err := err r;
     sTypeOut := sTypeOut r |}.

Definition setHeaders (h : list string) (r : FlagsRet) : FlagsRet :=
  {| headers := h; fieldTypes := fieldTypes r; camel := camel r;
     ignore := ignore r; quote := quote r; xlArea := xlArea r; err := err r;
     sTypeOut := sTypeOut r |}.

Definition setFieldTypes (t : list string) (r : FlagsRet) : FlagsRet :=
  {| headers := headers r; fieldTypes := t; camel := camel r;
     ignore := ignore r; quote := quote r; xlArea := xlArea r; err := err r;
     sTypeOut := sTypeOut r |}.

Definition setXlArea (x : list Z) (r : FlagsRet) : FlagsRet :=
  {| headers := headers r; fieldTypes := fieldTypes r; camel := camel r;
     ignore := ignore r; quote := quote r; xlArea := x; err := err r;
     sTypeOut := sTypeOut r |}.

(** The first field type that is not allowed, as the loop over
    [fieldTypes] finds it. *)
Fixpoint firstBadType (rev : revision) (fts : list string) : option string :=
  match fts with
  | [] => None
  | f :: fts' =>
      let '(ok, f') := isIn rev f ftypes false in
      if ok then firstBadType rev fts' else Some f'
  end.

(** [r[ind]] on a slice of strings. *)
Definition strAt (l : list string) (i : nat) : result string :=
  match l !! i with
  | Some x => Ok x
  | None => Panic "index out of range"
  end.

(** The loop [for ind := 0; ind < 2; ind++] that fills [xlArea]; [n] is the
    number of turns left.  Each [ParseInt] assigns [err], also when it
    succeeds. *)
Fixpoint xlLoop (n : nat) (ind : nat) (r c : list string) (ret : FlagsRet)
    : result FlagsRet :=
  match n with
  | O => Ok ret
  | S n' =>
      rs ← strAt r ind;
      match ParseInt32 rs with
      | Panic p => Panic p
      | Err e => Ok (setErr (Some e) ret)
      | Ok rx =>
          let ret := setXlArea (<[ind := rx]> (xlArea ret)) (setErr None ret) in
          cs ← strAt c ind;
          match ParseInt32 cs with
          | Panic p => Panic p
          | Err e => Ok (setErr (Some e) ret)
          | Ok cx =>
              let ret := setXlArea (<[(2 + ind)%nat := cx]> (xlArea ret)) (setErr None ret) in
              xlLoop n' (S ind) r c ret
          end
      end
  end.

(** The statements of [flags] from the check of [-q] on, which the two
    revisions share; [ret] holds the named results so far. *)
Definition flagsTail (rev : revision) (a : Args) (ret : FlagsRet) : result FlagsRet :=
  let ret := if 1 <? len (quoteOpt a)
             then setErr (Some "-q option is a single character") ret
             else ret in
  q ← byteAt (quoteOpt a) 0;
  let ret := setQuote (byteval q) ret in
  let ret :=
    if negb (String.eqb (headerOpt a) "")
    then setHeaders
           (Split (ReplaceAll (ReplaceAll (headerOpt a) " " "") "'" "") ",") ret
    else ret in
  let ret :=
    if negb (String.eqb (fieldOpt a) "")
    then setFieldTypes
           (Split (ReplaceAll (ToLower (ReplaceAll (fieldOpt a) " " "")) "'" "") ",")
           ret
    else ret in
  match (if negb (String.eqb (fieldOpt a) "")
         then firstBadType rev (fieldTypes ret) else None) with
  | Some f => Ok (setErr (Some ("not a valid field type: " ++ f)) ret)
  | None =>
      if negb (length (headers ret) =? length (fieldTypes ret))%nat
         && (0 <? length (headers ret))%nat && (0 <? length (fieldTypes ret))%nat
      then Ok (setErr (Some "-h headers and -t field types must have same length") ret)
      else if skipOpt a <? 0
      then Ok (setErr (Some "-skip value must be non-negative") ret)
      else if negb (Contains (xlRows a) ":") || negb (Contains (xlCols a) ":")
      then Ok (setErr (Some "invalid XL rows/cols specs") ret)
      else
        let r := Split (xlRows a) ":" in
        let c := Split (xlCols a) ":" in
        let ret := setXlArea [0; 0; 0; 0] ret in
        xlLoop 2 0 r c ret
  end.

(** [flags] checks that the flags are valid and returns digested values.
    [Ok ret] is a return, with [err ret] the returned error; [Panic] is a
    run-time panic inside [flags]. *)
Definition flags (rev : revision) (a : Args) : result FlagsRet :=
  let '(okType, sType') := isIn rev (sType a) types true in
  let ret := {| headers := []; fieldTypes := []; camel := false; ignore := false;
                quote := 0; xlArea := []; err := None; sTypeOut := sType' |} in
  if negb okType
  then Ok (setErr (Some ("unrecognized source type: " ++ sType')) ret)
  else
  let '(okCamel, camel') := isIn rev (camelOpt a) ctypes true in
  if negb okCamel then Ok (setErr (Some "-c option is Y or N") ret)
  else
  let ret := setCamel (String.eqb camel' "y") ret in
  match rev with
  | R1 => flagsTail rev a ret
  | R2 =>
      let '(okIgnore, ignore') := isIn rev (ignoreOpt a) ctypes true in
      if negb okIgnore then Ok (setErr (Some "-c option is Y or N") ret)
      else flagsTail rev a (setIgnore (String.eqb ignore' "y") ret)
  end.

(** ** The table schema *)

(** The base types of [chutils] that the program names. *)
Inductive ChType := ChUnknown | ChInt | ChString | ChFloat | ChDate.

#[global] Instance ChType_eq_dec : EqDecision ChType.
Proof. solve_decision. Defined.

(** The values the program stores in [FieldDef.Missing], an [interface{}]. *)
Inductive GoValue :=
| VNil
| VInt (z : Z)
| VFloat (z : Z)                                    (* a float64 of integral value *)
| VString (s : string)
| VTimeUTC (year month day hour minute sec nsec : Z).

(** [math.MaxInt64] and [math.MaxFloat64] (the latter is an integer:
    (2 - 2^-52) * 2^1023). *)
Definition MaxInt64 : Z := 2 ^ 63 - 1.
Definition MaxFloat64 : Z := 2 ^ 1024 - 2 ^ 971.

Record FieldDef := {
  Name : string;
  Base : ChType;                                  (* ChSpec.Base *)
  Length : Z;                                     (* ChSpec.Length *)
  Missing : GoValue
}.

Inductive EngineType := MergeTree.

(** [FieldDefs] is a [map[int]*FieldDef]. *)
Record TableDef := {
  Key : string;
  Engine : EngineType;
  FieldDefs : gmap nat FieldDef
}.

Definition NewTableDef (key : string) (engine : EngineType)
    (fds : gmap nat FieldDef) : TableDef :=
  {| Key := key; Engine := engine; FieldDefs := fds |}.

(** Go [int] arithmetic on a 64-bit platform wraps around. *)
Definition wrap64 (z : Z) : Z := (z + 2 ^ 63) mod 2 ^ 64 - 2 ^ 63.

(** A loop [for ind, fd := range m] whose body changes [*fd] and may
    panic: the outcome is the map of the changed values, or a panic of one
    of the bodies (Go visits the keys in no fixed order). *)
Definition rangeMap {A B} (body : nat -> A -> result B) (m : gmap nat A)
    : result (gmap nat B) :=
  map_fold (fun ind fd acc =>
              acc' ← acc;
              fd' ← body ind fd;
              Ok (<[ind := fd']> acc'))
           (Ok ∅) m.

(** *** Names read from the header row *)

Definition renameField (n : string) (fd : FieldDef) : FieldDef :=
  {| Name := n; Base := Base fd; Length := Length fd; Missing := Missing fd |}.

(** The membership check of the header loop: [R1] calls
    [isIn(&fd.Name, reserved, true)], [R2] [isIn(&fd.Name, reserved, false)]. *)
Definition reservedLower (rev : revision) : bool :=
  match rev with R1 => true | R2 => false end.

(** The body of the loop over the fields read from the header, without the
    assignment of the key. *)
Definition headerBody (rev : revision) (camel : bool) (fd : FieldDef)
    : result FieldDef :=
  name ← (if camel then toCamel rev (Name fd) else Ok (Name fd));
  let '(found, name) := isIn rev name reserved (reservedLower rev) in
  Ok (renameField (if found then name ++ "1" else name) fd).

(** The whole loop: the key becomes the name of the field at index 0. *)
Definition processHeader (rev : revision) (camel : bool) (td : TableDef)
    : result TableDef :=
  fds ← rangeMap (fun _ fd => headerBody rev camel fd) (FieldDefs td);
  Ok {| Key := match fds !! 0%nat with
               | Some fd => Name fd
               | None => Key td
               end;
        Engine := Engine td;
        FieldDefs := fds |}.

(** *** Names supplied by the user *)

Definition unknownField (name : string) : FieldDef :=
  {| Name := name; Base := ChUnknown; Length := 0; Missing := VNil |}.

Definition suppliedTable (headers : list string) : result TableDef :=
  key ← strAt headers 0;
  Ok (NewTableDef key MergeTree (map_seq 0 (unknownField <$> headers))).

(** *** Types supplied by the user *)

Definition retypeField (token : string) (fd : FieldDef) : FieldDef :=
  if String.eqb token "d" then
    {| Name := Name fd; Base := ChDate; Length := Length fd;
       Missing := VTimeUTC 1970 1 1 0 0 0 0 |}
  else if String.eqb token "i" then
    {| Name := Name fd; Base := ChInt; Length := 64; Missing := VInt MaxInt64 |}
  else if String.eqb token "f" then
    {| Name := Name fd; Base := ChFloat; Length := 64; Missing := VFloat MaxFloat64 |}
  else
    {| Name := Name fd; Base := ChString; Length := Length fd; Missing := VString "!" |}.

Definition retypeBody (fieldTypes : list string) (ind : nat) (fd : FieldDef)
    : result FieldDef :=
  token ← strAt fieldTypes ind;
  Ok (retypeField token fd).

Definition lengthError (nTypes nCols : nat) : string :=
  "supplied field types have length " ++ pretty nTypes ++ ", data has "
  ++ pretty nCols ++ " columns".

Definition retype (fieldTypes : list string) (td : TableDef) : result TableDef :=
  if negb (length fieldTypes =? size (FieldDefs td))%nat
  then Err (lengthError (length fieldTypes) (size (FieldDefs td)))
  else
    fds ← rangeMap (retypeBody fieldTypes) (FieldDefs td);
    Ok {| Key := Key td; Engine := Engine td; FieldDefs := fds |}.

(** ** Readers and the outside world *)

Inductive ReaderKind :=
| FileReader          (* file.NewReader *)
| StrReader           (* str.NewReader *)
| XlReader.           (* str.NewXlReader *)

(** What the program passes when it builds a reader. *)
Record Reader := {
  rKind : ReaderKind;
  rSource : string;          (* file name, or the body that was fetched *)
  rSep : option ascii;       (* the field separator; a spreadsheet has none *)
  rQuote : Z;
  rSkip : Z;
  rSheet : string;
  rArea : list Z             (* rowS, rowE, colS, colE of a spreadsheet *)
}.

(** The actions of the program on its surroundings, in the order in which
    they happen. *)
Inductive event :=
| EHelp                                               (* help() *)
| EConnect (host user password : string)              (* chutils.NewConnect *)
| EHttpGet (url : string)                             (* http.Get and ReadAll *)
| EOpen (path : string)                               (* os.Open *)
| EWriteTemp (path : string)                          (* os.Create, Write, Close *)
| EConvert (command : list string)                    (* exec.Command(...).Run *)
| EOpenWorkbook (src : string)                        (* excelize.OpenFile / OpenReader *)
| EInit                                               (* rdr.Init: read the header row *)
| EImpute (rowsToExamine : Z) (tol : Q)               (* TableSpec().Impute *)
| ECreateTable (table : string)                       (* TableSpec().Create *)
| EExport (after : Z) (tolerate : option bool)        (* chutils.Export *)
| EPrintElapsed
| EClose (what : string)                              (* deferred Close calls *)
| EFatal (msg : string).                              (* log.Fatalln: exit status 1 *)

(** The answers of the collaborators: the ClickHouse server, the network,
    the file system, the converter, the spreadsheet library and the data
    itself.  An [option string] is a Go [error]. *)
Record World := {
  connectErr : option string;
  httpBody : string -> result string;
  openErr : string -> option string;
  writeTempErr : string -> option string;
  convertErr : list string -> option string;
  workbookErr : string -> option string;
  headerSchema : Reader -> result TableDef;           (* what rdr.Init builds *)
  dataRows : Reader -> result (list (list string));   (* the rows the reader yields *)
  parses : ChType -> string -> bool;                  (* does a cell parse as a type *)
  createErr : string -> TableDef -> option string;
  rowAccepted : list string -> bool                   (* does the destination take a row *)
}.

(** Computations that act on the world: the events so far and an outcome. *)
Definition io (A : Type) : Type := (list event * result A)%type.

Definition io_ret {A} (a : A) : io A := ([], Ok a).

Definition io_bind {A B} (m : io A) (k : A -> io B) : io B :=
  match m with
  | (t, Ok a) => let '(t', r) := k a in ((t ++ t')%list, r)
  | (t, Err e) => (t, Err e)
  | (t, Panic p) => (t, Panic p)
  end.

Definition emit (e : event) : io unit := ([e], Ok tt).
Definition lift {A} (r : result A) : io A := ([], r).
Definition fail {A} (e : string) : io A := ([], Err e).

(** A call that may return an error. *)
Definition check (e : option string) : io unit :=
  match e with
  | Some msg => fail msg
  | None => io_ret tt
  end.

Declare Scope io_scope.
Delimit Scope io_scope with io.
Notation "x <~ m ;; k" := (io_bind m (fun x => k))
  (at level 100, m at next level, right associativity) : io_scope.
Notation "m ;;; k" := (io_bind m (fun _ => k))
  (at level 100, right associativity) : io_scope.
Open Scope io_scope.

(** [xl[i]] on the slice of the spreadsheet area. *)
Definition intAt (l : list Z) (i : nat) : result Z :=
  match l !! i with
  | Some x => Ok x
  | None => Panic "index out of range"
  end.

Definition xlReader (src : string) (quote skip : Z) (xl : list Z) (xlSheet : string)
    : result Reader :=
  x0 ← intAt xl 0; x1 ← intAt xl 1; x2 ← intAt xl 2; x3 ← intAt xl 3;
  Ok {| rKind := XlReader; rSource := src; rSep := None; rQuote := quote;
        rSkip := skip; rSheet := xlSheet; rArea := [x0; x1; x2; x3] |}.

Fixpoint lastIndexFrom (c : ascii) (s : string) (pos : Z) (found : Z) : Z :=
  match s with
  | EmptyString => found
  | String d s' =>
      lastIndexFrom c s' (pos + 1) (if Ascii.eqb c d then pos else found)
  end.

(** [getDir] returns the directory portion of a file path ([R2]). *)
Definition getDir (path : string) : result string :=
  let ind := lastIndexFrom "/"%char path 0 (-1) in
  if 0 <? ind then slice path 0 ind else Ok path.

(** The command that converts an XLS file. *)
Definition convertCommand (rev : revision) (source : string) : result (list string) :=
  match rev with
  | R1 => Ok ["bash"; "-c";
              "libreoffice --headless --convert-to xlsx -outdir /tmp/ " ++ source]
  | R2 => dir ← getDir source;
          Ok ["libreoffice"; "--headless"; "--convert-to"; "xlsx"; "--outdir"; dir; source]
  end.

(** [newFile] creates a reader for data coming from a file. *)
Definition newFile (rev : revision) (w : World) (source sType : string)
    (quote skip : Z) (xl : list Z) (xlSheet : string) : io Reader :=
  emit (EOpen source) ;;;
  check (openErr w source) ;;;
  if String.eqb sType "text" || String.eqb sType "csv" then
    io_ret {| rKind := FileReader; rSource := source; rSep := Some (sep sType);
              rQuote := quote; rSkip := skip; rSheet := ""; rArea := [] |}
  else if String.eqb sType "xlsx" || String.eqb sType "xls" then
    source <~ (if String.eqb sType "xls" then
                 cmd <~ lift (convertCommand rev source) ;;
                 emit (EConvert cmd) ;;;
                 check (convertErr w cmd) ;;;
                 io_ret (Replace source ".xls" ".xlsx" 1)
               else io_ret source) ;;
    emit (EOpenWorkbook source) ;;;
    check (workbookErr w source) ;;;
    lift (xlReader source quote skip xl xlSheet)
  else fail "illegal -type".

Definition tempXls (rev : revision) : string :=
  match rev with R1 => "/tmp/test.xls" | R2 => "/tmp/tmp.xls" end.

(** [newHttp] creates a reader for data coming via http. *)
Definition newHttp (rev : revision) (w : World) (source sType : string)
    (quote skip : Z) (xl : list Z) (xlSheet : string) : io Reader :=
  emit (EHttpGet source) ;;;
  body <~ lift (httpBody w source) ;;
  if String.eqb sType "text" || String.eqb sType "csv" then
    io_ret {| rKind := StrReader; rSource := body; rSep := Some (sep sType);
              rQuote := quote; rSkip := skip; rSheet := ""; rArea := [] |}
  else if String.eqb sType "xlsx" then
    emit (EOpenWorkbook body) ;;;
    check (workbookErr w body) ;;;
    lift (xlReader body quote skip xl xlSheet)
  else if String.eqb sType "xls" then
    emit (EWriteTemp (tempXls rev)) ;;;
    check (writeTempErr w (tempXls rev)) ;;;
    newFile rev w (tempXls rev) "xls" quote skip xl xlSheet
  else fail "illegal -type".

(** The test of [NewReader]. *)
Definition viaHttp (source : string) : bool := Contains (ToLower source) "http".

(** [NewReader] creates the appropriate kind of reader. *)
Definition NewReader (rev : revision) (w : World) (source sType : string)
    (quote skip : Z) (xl : list Z) (xlSheet : string) : io Reader :=
  if viaHttp source
  then newHttp rev w source sType quote skip xl xlSheet
  else newFile rev w source sType quote skip xl xlSheet.

(** ** Type inference and export: the parts that live in chutils *)

(** The sentinel of each type, §4.5 of the specification (the same values
    as in [retypeField]). *)
Definition sentinel (t : ChType) : GoValue :=
  match t with
  | ChFloat => VFloat MaxFloat64
  | ChInt => VInt MaxInt64
  | ChDate => VTimeUTC 1970 1 1 0 0 0 0
  | ChString => VString "!"
  | ChUnknown => VNil
  end.

(** The non-empty cells of column [j]. *)
Definition columnCells (rows : list (list string)) (j : nat) : list string :=
  filter (fun c => negb (String.eqb c "")) (omap (fun row => row !! j) rows).

(** How many cells parse under a type. *)
Definition successes (parses : ChType -> string -> bool) (t : ChType)
    (cells : list string) : nat :=
  length (filter (parses t) cells).

(** The fraction [succ / total] meets or exceeds the threshold.  A column
    without non-empty cells has no fraction and meets nothing. *)
Definition meets (tol : Q) (succ total : nat) : bool :=
  (0 <? total)%nat && Qle_bool tol (Z.of_nat succ # Pos.of_nat total).

(** Modelled from the spec: the type given to one column by the Type
    Inference Engine (§4.4), which is [Impute] of the package chutils and
    not part of the sources.  The candidates are tried in the order Date,
    Int64, Float64; the first whose fraction of successful parses among
    the non-empty cells meets the threshold wins; otherwise String. *)
Definition inferType (parses : ChType -> string -> bool) (tol : Q)
    (cells : list string) : ChType :=
  let total := length cells in
  if meets tol (successes parses ChDate cells) total then ChDate
  else if meets tol (successes parses ChInt cells) total then ChInt
  else if meets tol (successes parses ChFloat cells) total then ChFloat
  else ChString.

(** Modelled from the spec: [Impute], the Type Inference Engine of §4.4
    (package chutils, not part of the sources).  It reads all the rows and
    gives every column its inferred type and the sentinel of that type. *)
Definition Impute (parses : ChType -> string -> bool) (rows : list (list string))
    (tol : Q) (td : TableDef) : TableDef :=
  {| Key := Key td; Engine := Engine td;
     FieldDefs :=
       map_imap (fun j fd =>
                   let t := inferType parses tol (columnCells rows j) in
                   Some {| Name := Name fd; Base := t; Length := Length fd;
                           Missing := sentinel t |})
                (FieldDefs td) |}.

Record ExportReport := {
  written : list (list string);
  skipped : nat
}.

(** Modelled from the spec: [Export], the Export Engine of §4.6 (package
    chutils, not part of the sources).  Without tolerance the first write
    failure aborts the export with an error; with tolerance a failing row
    is skipped and counted and the export goes on.  Batches are written in
    the order they are read, so the rows written do not depend on the
    batch size. *)
Definition Export (accepted : list string -> bool) (rows : list (list string))
    (tolerate : bool) : result ExportReport :=
  if tolerate
  then Ok {| written := filter accepted rows;
             skipped := length (filter (fun r => negb (accepted r)) rows) |}
  else if forallb accepted rows
       then Ok {| written := rows; skipped := 0 |}
       else Err "export: the destination rejected a row".

(** ** buildReader and main *)

(** The threshold that [buildReader] passes to [Impute]. *)
Definition imputeTol : Q := 95 # 100.

(** The block of [buildReader] that handles the headers: read from the
    file, or supplied by the user. *)
Definition readNames (rev : revision) (w : World) (rdr : Reader) (camel : bool)
    (headers : list string) : io TableDef :=
  if (length headers =? 0)%nat then
    emit EInit ;;;
    td <~ lift (headerSchema w rdr) ;;
    lift (processHeader rev camel td)
  else lift (suppliedTable headers).

(** The block of [buildReader] that finds the field types: from the data,
    or supplied by the user. *)
Definition resolveTypes (w : World) (rdr : Reader) (fieldTypes : list string)
    (td : TableDef) : io TableDef :=
  if (length fieldTypes =? 0)%nat then
    emit (EImpute 0 imputeTol) ;;;
    rows <~ lift (dataRows w rdr) ;;
    io_ret (Impute (parses w) rows imputeTol td)
  else lift (retype fieldTypes td).

(** [buildReader] creates a reader for [chutils.Export].  It handles the
    options regarding field names and types.  The reader is returned with
    the table schema it holds. *)
Definition buildReader (rev : revision) (w : World) (source sType : string)
    (skip : Z) (quote : Z) (camel : bool) (headers fieldTypes : list string)
    (xl : list Z) (xlSheet table : string) : io (Reader * TableDef) :=
  (* if reading a header row, need to skip it before reading data *)
  let skip := if (length headers =? 0)%nat then wrap64 (skip + 1) else skip in
  rdr <~ NewReader rev w source sType quote skip xl xlSheet ;;
  td <~ readNames rev w rdr camel headers ;;
  td <~ resolveTypes w rdr fieldTypes td ;;
  emit (ECreateTable table) ;;;
  check (createErr w table td) ;;;
  io_ret (rdr, td).

(** A deferred [Close]: it runs when [main] returns and when it panics,
    not when [log.Fatalln] ends the process. *)
Definition deferring {A} (what : string) (m : io A) : io A :=
  match m with
  | (t, Ok a) => ((t ++ [EClose what])%list, Ok a)
  | (t, Err e) => (t, Err e)
  | (t, Panic p) => ((t ++ [EClose what])%list, Panic p)
  end.

(** The call of [chutils.Export]: [R1] has no tolerance to pass. *)
Definition exportCall (rev : revision) (w : World) (rdr : Reader) (ignore : bool)
    : io ExportReport :=
  match rev with
  | R1 =>
      emit (EExport 0 None) ;;;
      rows <~ lift (dataRows w rdr) ;;
      lift (Export (rowAccepted w) rows false)
  | R2 =>
      emit (EExport 1000 (Some ignore)) ;;;
      rows <~ lift (dataRows w rdr) ;;
      lift (Export (rowAccepted w) rows ignore)
  end.

(** The body of [main]; every error it meets goes to [log.Fatalln]. *)
Definition mainBody (rev : revision) (w : World) (a : Args) : io ExportReport :=
  fr <~ lift (flags rev a) ;;
  match err fr with
  | Some e =>
      (match rev with R1 => io_ret tt | R2 => emit EHelp end) ;;;
      fail e
  | None =>
      emit (EConnect (host a) (user a) (password a)) ;;;
      check (connectErr w) ;;;
      deferring "con"
        (built <~ buildReader rev w (source a) (sTypeOut fr) (skipOpt a) (quote fr)
                    (camel fr) (headers fr) (fieldTypes fr) (xlArea fr)
                    (xlSheet a) (table a) ;;
         deferring "rdr"
           (deferring "wtr"
              (rep <~ exportCall rev w (fst built) (ignore fr) ;;
               emit EPrintElapsed ;;;
               io_ret rep)))
  end.

(** How a run ends, and the exit status of the process. *)
Inductive ending :=
| Completed (rep : ExportReport)
| Fatal (msg : string)
| Crashed (msg : string).

Definition exitStatus (e : ending) : Z :=
  match e with
  | Completed _ => 0
  | Fatal _ => 1
  | Crashed _ => 2
  end.

Definition main (rev : revision) (w : World) (a : Args) : list event * ending :=
  match mainBody rev w a with
  | (t, Ok rep) => (t, Completed rep)
  | (t, Err e) => ((t ++ [EFatal e])%list, Fatal e)
  | (t, Panic p) => (t, Crashed p)
  end.

(** ** Vocabulary of the properties *)

(** The outcome of a loop over the field map, in terms of its body. *)
Definition rangeMapPost {A B} (body : nat -> A -> result B)
    (r : result (gmap nat B)) (m : gmap nat A) : Prop :=
  match r with
  | Ok m' =>
      forall i,
        match m !! i with
        | None => m' !! i = None
        | Some a => exists b, body i a = Ok b /\ m' !! i = Some b
        end
  | Err e => exists i a, m !! i = Some a /\ body i a = Err e
  | Panic p => exists i a, m !! i = Some a /\ body i a = Panic p
  end.

(** The skip count that [buildReader] hands to [NewReader]. *)
Definition skipUsed (headers : list string) (skip : Z) : Z :=
  if (length headers =? 0)%nat then wrap64 (skip + 1) else skip.

(** The fixed mapping from a type token to the type and the sentinel of a
    column: f, i, d, and String for any other token.  Float64 and Int64
    are the base types [ChFloat] and [ChInt] with the width 64. *)
Definition fixedMapping (token : string) (fd : FieldDef) : Prop :=
  (token = "f" /\ Base fd = ChFloat /\ Length fd = 64
   /\ Missing fd = VFloat MaxFloat64)
  \/ (token = "i" /\ Base fd = ChInt /\ Length fd = 64
      /\ Missing fd = VInt 9223372036854775807)
  \/ (token = "d" /\ Base fd = ChDate /\ Missing fd = VTimeUTC 1970 1 1 0 0 0 0)
  \/ (token <> "f" /\ token <> "i" /\ token <> "d"
      /\ Base fd = ChString /\ Missing fd = VString "!").



Fixpoint lastByte (s : string) : option ascii :=
  match s with
  | EmptyString => None
  | String c EmptyString => Some c
  | String _ s' => lastByte s'
  end.

(** The string is not empty and its final byte is one of [set]. *)
Definition endsInAny (set : string) (s : string) : bool :=
  match lastByte s with
  | Some c => memByte c set
  | None => false
  end.

Definition slicePanic : string := "slice bounds out of range".

(** What [ReplaceAll(snake, " ", "_")] does to one byte. *)
Definition spaceToUnderscore (c : ascii) : ascii :=
  if Ascii.eqb c " "%char then "_"%char else c.

Definition rejectedMsg : string := "export: the destination rejected a row".

Definition isCreate (e : event) : bool :=
  match e with ECreateTable _ => true | _ => false end.

(** The statement that an empty [-q] makes [flags] panic whatever the other
    options are. *)
Definition empty_quote_always_panics : Prop :=
  forall rev a, quoteOpt a = "" -> exists p, flags rev a = Panic p.

(** ** Data of the concrete runs *)

Definition allDigits (s : string) : bool :=
  match s with
  | EmptyString => false
  | _ => match digitsValue 0 s with Some _ => true | None => false end
  end.

Definition demoHeader : TableDef :=
  NewTableDef "" MergeTree (map_seq 0 (unknownField <$> ["Loan_ID"; "Index"; "a b"])).

(** A small world: a source with the header [Loan_ID, Index, a b] and three
    rows, a cell parser that knows the integers, and a destination that
    refuses the rows whose second cell is [y]. *)
Definition demoWorld : World := {|
  connectErr := None;
  httpBody := fun _ => Ok "Loan_ID,Index,a b";
  openErr := fun _ => None;
  writeTempErr := fun _ => None;
  convertErr := fun _ => None;
  workbookErr := fun _ => None;
  headerSchema := fun _ => Ok demoHeader;
  dataRows := fun _ => Ok [["1"; "x"; "2"]; ["2"; "y"; "z"]; ["3"; ""; "4"]];
  parses := fun t s => match t with ChInt => allDigits s | _ => false end;
  createErr := fun _ _ => None;
  rowAccepted := fun r => negb (String.eqb (default "" (r !! 1%nat)) "y")
|}.

Definition demoArgs (sType source camelOpt headerOpt fieldOpt quoteOpt ignoreOpt : string)
    : Args :=
  {| host := "127.0.0.1"; user := "default"; password := ""; table := "loans";
     sType := sType; source := source; camelOpt := camelOpt; headerOpt := headerOpt;
     fieldOpt := fieldOpt; quoteOpt := quoteOpt; skipOpt := 0; ignoreOpt := ignoreOpt;
     xlRows := "0:0"; xlCols := "0:0"; xlSheet := "" |}.

(** toch -table loans -type csv -s /data/loans.csv -i Y *)
Definition tolerantArgs : Args := demoArgs "csv" "/data/loans.csv" "N" "" "" dquote "Y".
(** toch -table loans -type csv -s /data/loans.csv -h 'a,b,c' -t 's,s' -q '' *)
Definition mismatchArgs : Args := demoArgs "csv" "/data/loans.csv" "N" "a,b,c" "s,s" "" "N".
(** toch -table loans -type csv -s /data/loans.csv -h 'a,b,c' -t 's,s' *)
Definition mismatchQuotedArgs : Args :=
  demoArgs "csv" "/data/loans.csv" "N" "a,b,c" "s,s" dquote "N".
(** toch -table loans -type csv -s /data/loans.csv -q ab *)
Definition longQuoteArgs : Args := demoArgs "csv" "/data/loans.csv" "N" "" "" "ab" "N".
(** toch -table loans -type csv -s /data/loans.csv -q '' *)
Definition emptyQuoteArgs : Args := demoArgs "csv" "/data/loans.csv" "N" "" "" "" "N".
(** toch -table loans -s /data/loans.csv -q '' *)
Definition noTypeArgs : Args := demoArgs "" "/data/loans.csv" "N" "" "" "" "N".

(** ** The header loop, whatever the case mapping

    The loop over the fields read from the header row reaches
    [strings.ToLower] through [isIn], and [toCamel].  Here the two are
    left open: [lower] stands for [strings.ToLower] and [camelOf] for
    [toCamel], so that what is proved of the loop holds for the case
    mapping of the Unicode tables as well.  [isIn], [headerBody] and
    [processHeader] are the instances at [ToLower] and [toCamel]. *)

Section HeaderLoop.

Variable lower : string -> string.
Variable camelOf : string -> result string.

Definition isInBy (rev : revision) (needle : string) (stack : list string)
    (toLower : bool) : bool * string :=
  match rev with
  | R1 =>
      let needle' := if toLower then lower needle else needle in
      (inStack needle' stack, needle')
  | R2 =>
      let check := lower needle in
      let needle' := if toLower then check else needle in
      (inStack check stack, needle')
  end.

Definition headerBodyBy (rev : revision) (camel : bool) (fd : FieldDef)
    : result FieldDef :=
  name ← (if camel then camelOf (Name fd) else Ok (Name fd));
  let '(found, name) := isInBy rev name reserved (reservedLower rev) in
  Ok (renameField (if found then name ++ "1" else name) fd).

Definition processHeaderBy (rev : revision) (camel : bool) (td : TableDef)
    : result TableDef :=
  fds ← rangeMap (fun _ fd => headerBodyBy rev camel fd) (FieldDefs td);
  Ok {| Key := match fds !! 0%nat with
               | Some fd => Name fd
               | None => Key td
               end;
        Engine := Engine td;
        FieldDefs := fds |}.

End HeaderLoop.

(** The name that the loop stores before the suffix: [R1] stores the
    lower-cased name, [R2] the name as it is. *)
Definition storedName (lower : string -> string) (rev : revision) (name : string)
    : string :=
  match rev with R1 => lower name | R2 => name end.

(** ** Vocabulary and data of the further properties *)

Fixpoint allBytes (P : ascii -> bool) (s : string) : bool :=
  match s with
  | EmptyString => true
  | String c s' => P c && allBytes P s'
  end.

Definition isNot (c : ascii) (x : ascii) : bool := negb (Ascii.eqb x c).

Definition isLowered (c : ascii) : bool := Ascii.eqb (lowerByte c) c.

(** A name of ASCII bytes only.  On such names [ToLower] and [ToUpper] are
    [strings.ToLower] and [strings.ToUpper], byte for byte. *)
Definition isASCII (s : string) : bool := allBytes (fun c => byteval c <? 128) s.

(** One of the capital letters A to Z. *)
Definition isCapital (c : ascii) : bool := (65 <=? byteval c) && (byteval c <=? 90).


Definition int32 (z : Z) : Prop := - 2 ^ 31 <= z <= 2 ^ 31 - 1.

(** toch -table loans -type xlsx -s /data/loans.xlsx -rows 4:0 -cols 2:7 *)
Definition sheetArgs : Args :=
  {| host := "127.0.0.1"; user := "default"; password := ""; table := "loans";
     sType := "xlsx"; source := "/data/loans.xlsx"; camelOpt := "N"; headerOpt := "";
     fieldOpt := ""; quoteOpt := dquote; skipOpt := 0; ignoreOpt := "N";
     xlRows := "4:0"; xlCols := "2:7"; xlSheet := "" |}.

(** One pass over the lower-cased name: separators are dropped and the byte
    after a run of separators is upper-cased; [up] says that a separator
    was just read. *)
Fixpoint camelScan (up : bool) (s : string) : result string :=
  match s with
  | EmptyString => if up then Panic slicePanic else Ok EmptyString
  | String c s' =>
      if isSep c then camelScan true s'
      else r ← camelScan false s'; Ok (String (if up then upperByte c else c) r)
  end.

Fixpoint countBytes (P : ascii -> bool) (s : string) : nat :=
  match s with
  | EmptyString => 0
  | String c s' => (if P c then 1 else 0) + countBytes P s'
  end.

Definition inSet (set : string) (c : ascii) : bool := memByte c set.

Definition collidingHeader : TableDef :=
  NewTableDef "" MergeTree (map_seq 0 (unknownField <$> ["index"; "index1"])).

(** The actions of building a reader: on the network, the file system, the
    converter and the spreadsheet library. *)
Definition isSourceEvent (e : event) : bool :=
  match e with
  | EHttpGet _ | EOpen _ | EWriteTemp _ | EConvert _ | EOpenWorkbook _ => true
  | _ => false
  end.

Definition helpEvents (rev : revision) : list event :=
  match rev with R1 => [] | R2 => [EHelp] end.

Definition closes : list event := [EClose "wtr"; EClose "rdr"; EClose "con"].

Definition isClose (e : event) : bool :=
  match e with EClose _ => true | _ => false end.

(** The actions of [buildReader]. *)
Definition isSetupEvent (e : event) : bool :=
  match e with
  | EInit | EImpute _ _ | ECreateTable _ => true
  | _ => isSourceEvent e
  end.

(** toch -table loans -type csv -s /data/trailing.csv -c Y, with a header
    name that ends in an underscore. *)
Definition trailingWorld : World := {|
  connectErr := None;
  httpBody := fun _ => Ok "";
  openErr := fun _ => None;
  writeTempErr := fun _ => None;
  convertErr := fun _ => None;
  workbookErr := fun _ => None;
  headerSchema := fun _ =>
    Ok (NewTableDef "" MergeTree (map_seq 0 (unknownField <$> ["id"; "amount_"])));
  dataRows := fun _ => Ok [];
  parses := fun _ _ => false;
  createErr := fun _ _ => None;
  rowAccepted := fun _ => true
|}.

Definition tab : ascii := ascii_of_nat 9.

(** A computation that does not panic. *)
Definition calm {A} (m : io A) : Prop := is_panic (snd m) = false.

(** The collaborators do not panic, and the schema read from a header row
    numbers its fields 0, 1, ..., n-1 (as [rdr.Init] does). *)
Definition contiguous (td : TableDef) : Prop :=
  forall i, is_Some (FieldDefs td !! i) -> (i < size (FieldDefs td))%nat.

Record calmWorld (w : World) : Prop := {
  calm_http : forall s, is_panic (httpBody w s) = false;
  calm_header : forall r, is_panic (headerSchema w r) = false;
  calm_rows : forall r, is_panic (dataRows w r) = false;
  header_contiguous : forall r td, headerSchema w r = Ok td -> contiguous td
}.

Definition tempXlsx (rev : revision) : string :=
  match rev with R1 => "/tmp/test.xlsx" | R2 => "/tmp/tmp.xlsx" end.

Definition tempConvert (rev : revision) : list string :=
  match rev with
  | R1 => ["bash"; "-c"; "libreoffice --headless --convert-to xlsx -outdir /tmp/ /tmp/test.xls"]
  | R2 => ["libreoffice"; "--headless"; "--convert-to"; "xlsx"; "--outdir"; "/tmp"; "/tmp/tmp.xls"]
  end.

(** * Properties *)

(** ** The error and event plumbing *)

Ltac trace_mem :=
  repeat first [rewrite elem_of_app | rewrite elem_of_cons]; auto 10.

Lemma io_bind_Ok_inv {A B} (m : io A) (k : A -> io B) t b :
  io_bind m k = (t, Ok b) ->
  exists t1 a t2, m = (t1, Ok a) /\ k a = (t2, Ok b) /\ t = (t1 ++ t2)%list.
Proof.
  unfold io_bind. destruct m as [t1 [a|e|p]]; try (intros H; inversion H; fail).
  destruct (k a) as [t2 r] eqn:Hk. intros H. inversion H; subst.
  exists t1, a, t2. auto.
Qed.

Lemma check_Ok_inv e t u : check e = (t, Ok u) -> e = None /\ t = [].
Proof. destruct e; unfold check, fail, io_ret; intros H; inversion H; auto. Qed.

Lemma lift_Ok_inv {A} (r : result A) t a : lift r = (t, Ok a) -> r = Ok a /\ t = [].
Proof. unfold lift. intros H; inversion H; auto. Qed.

Lemma emit_inv e t u : emit e = (t, Ok u) -> t = [e].
Proof. unfold emit. intros H; inversion H; auto. Qed.

(** ** Loops over the field map *)

Lemma rangeMap_post {A B} (body : nat -> A -> result B) (m : gmap nat A) :
  rangeMapPost body (rangeMap body m) m.
Proof.
  unfold rangeMap.
  apply (map_fold_weak_ind (fun r m => rangeMapPost body r m)).
  - intros i. rewrite !lookup_empty. reflexivity.
  - clear m. intros i x m r Hi IH.
    destruct r as [m'|e|p]; cbn [mbind result_bind].
    + destruct (body i x) as [b|e|p] eqn:Hb; cbn.
      * intros j. destruct (decide (i = j)) as [->|Hne].
        -- rewrite !lookup_insert_eq. eauto.
        -- rewrite !lookup_insert_ne by done. apply IH.
      * exists i, x. rewrite lookup_insert_eq. auto.
      * exists i, x. rewrite lookup_insert_eq. auto.
    + destruct IH as (j & a & Hj & Hb). exists j, a. split; [|done].
      rewrite lookup_insert_ne; [done|]. intros ->. congruence.
    + destruct IH as (j & a & Hj & Hb). exists j, a. split; [|done].
      rewrite lookup_insert_ne; [done|]. intros ->. congruence.
Qed.

Lemma rangeMap_Ok {A B} (body : nat -> A -> result B) (m : gmap nat A) m' i a :
  rangeMap body m = Ok m' -> m !! i = Some a ->
  exists b, body i a = Ok b /\ m' !! i = Some b.
Proof.
  intros H Hi. pose proof (rangeMap_post body m) as P. rewrite H in P.
  specialize (P i). rewrite Hi in P. exact P.
Qed.

Lemma rangeMap_Ok_None {A B} (body : nat -> A -> result B) (m : gmap nat A) m' i :
  rangeMap body m = Ok m' -> m !! i = None -> m' !! i = None.
Proof.
  intros H Hi. pose proof (rangeMap_post body m) as P. rewrite H in P.
  specialize (P i). rewrite Hi in P. exact P.
Qed.

Lemma rangeMap_total {A B} (body : nat -> A -> result B) (m : gmap nat A) :
  (forall i a, m !! i = Some a -> is_ok (body i a) = true) ->
  exists m', rangeMap body m = Ok m'.
Proof.
  intros Hall. pose proof (rangeMap_post body m) as P.
  destruct (rangeMap body m) as [m'|e|p]; [eauto| |].
  - destruct P as (i & a & Hi & Hb). specialize (Hall i a Hi). rewrite Hb in Hall. discriminate.
  - destruct P as (i & a & Hi & Hb). specialize (Hall i a Hi). rewrite Hb in Hall. discriminate.
Qed.

Lemma rangeMap_size {A B} (body : nat -> A -> result B) (m : gmap nat A) m' :
  rangeMap body m = Ok m' -> size m' = size m.
Proof.
  intros H. rewrite <- !size_dom. f_equal. apply set_eq. intros i.
  rewrite !elem_of_dom.
  destruct (m !! i) as [a|] eqn:Hi.
  - destruct (rangeMap_Ok _ _ _ _ _ H Hi) as (b & _ & ->). split; eauto.
  - rewrite (rangeMap_Ok_None _ _ _ _ H Hi). split; intros [? ?]; discriminate.
Qed.

Lemma readNames_Ok_inv rev w rdr camel hdrs t td1 :
  readNames rev w rdr camel hdrs = (t, Ok td1) ->
  (if (length hdrs =? 0)%nat
   then exists td0, headerSchema w rdr = Ok td0 /\ processHeader rev camel td0 = Ok td1
   else suppliedTable hdrs = Ok td1)
  /\ t = (if (length hdrs =? 0)%nat then [EInit] else []).
Proof.
  unfold readNames. destruct (length hdrs =? 0)%nat; intros H.
  - apply io_bind_Ok_inv in H as (u1 & [] & u2 & He & H & ->).
    apply emit_inv in He as ->.
    apply io_bind_Ok_inv in H as (u3 & td0 & u4 & Hs & Hp & ->).
    apply lift_Ok_inv in Hs as [Hs ->]. apply lift_Ok_inv in Hp as [Hp ->].
    split; [eauto | reflexivity].
  - apply lift_Ok_inv in H as [H ->]. split; [exact H | reflexivity].
Qed.

Lemma resolveTypes_Ok_inv w rdr fts td1 t td :
  resolveTypes w rdr fts td1 = (t, Ok td) ->
  (if (length fts =? 0)%nat
   then exists rows, dataRows w rdr = Ok rows /\ td = Impute (parses w) rows imputeTol td1
   else retype fts td1 = Ok td)
  /\ t = (if (length fts =? 0)%nat then [EImpute 0 imputeTol] else []).
Proof.
  unfold resolveTypes. destruct (length fts =? 0)%nat; intros H.
  - apply io_bind_Ok_inv in H as (u1 & [] & u2 & He & H & ->).
    apply emit_inv in He as ->.
    apply io_bind_Ok_inv in H as (u3 & rows & u4 & Hs & Hp & ->).
    apply lift_Ok_inv in Hs as [Hs ->]. unfold io_ret in Hp. inversion Hp; subst.
    split; [eauto | reflexivity].
  - apply lift_Ok_inv in H as [H ->]. split; [exact H | reflexivity].
Qed.

Lemma buildReader_Ok_inv rev w source sType skip quote camel hdrs fts xl sheet table t rdr td :
  buildReader rev w source sType skip quote camel hdrs fts xl sheet table = (t, Ok (rdr, td)) ->
  exists t1 td1,
    NewReader rev w source sType quote (skipUsed hdrs skip) xl sheet = (t1, Ok rdr)
    /\ (if (length hdrs =? 0)%nat
        then exists td0, headerSchema w rdr = Ok td0 /\ processHeader rev camel td0 = Ok td1
        else suppliedTable hdrs = Ok td1)
    /\ (if (length fts =? 0)%nat
        then exists rows, dataRows w rdr = Ok rows /\ td = Impute (parses w) rows imputeTol td1
        else retype fts td1 = Ok td)
    /\ createErr w table td = None
    /\ t = (t1 ++ (if (length hdrs =? 0)%nat then [EInit] else [])
               ++ (if (length fts =? 0)%nat then [EImpute 0 imputeTol] else [])
               ++ [ECreateTable table])%list.
Proof.
  unfold buildReader. fold (skipUsed hdrs skip).
  intros H.
  apply io_bind_Ok_inv in H as (t1 & rdr' & t2 & Hnew & H & ->).
  apply io_bind_Ok_inv in H as (t3 & td1 & t4 & Hhdr & H & ->).
  apply io_bind_Ok_inv in H as (t5 & td2 & t6 & Hty & H & ->).
  apply io_bind_Ok_inv in H as (t7 & [] & t8 & Hev & H & ->).
  apply emit_inv in Hev as ->.
  apply io_bind_Ok_inv in H as (t9 & [] & t10 & Hck & H & ->).
  apply check_Ok_inv in Hck as [Hck ->].
  unfold io_ret in H. inversion H; subst rdr' td2 t10. clear H.
  apply readNames_Ok_inv in Hhdr as [Hhdr ->].
  apply resolveTypes_Ok_inv in Hty as [Hty ->].
  exists t1, td1. repeat split; try assumption.
  (* trace *)
Qed.

Lemma retypeField_mapping token fd : fixedMapping token (retypeField token fd).
Proof.
  unfold fixedMapping, retypeField.
  destruct (String.eqb_spec token "d") as [->|Hd]; [right; right; left; auto|].
  destruct (String.eqb_spec token "i") as [->|Hi]; [right; left; auto 6|].
  destruct (String.eqb_spec token "f") as [->|Hf]; [left; auto 6|].
  right; right; right; auto 6.
Qed.

Lemma strAt_Ok l i x : strAt l i = Ok x -> l !! i = Some x.
Proof. unfold strAt. destruct (l !! i); intros H; inversion H; auto. Qed.

Lemma retype_Ok_inv fts td td' :
  retype fts td = Ok td' ->
  size (FieldDefs td') = length fts /\ Key td' = Key td /\
  forall i fd', FieldDefs td' !! i = Some fd' ->
    exists fd token, FieldDefs td !! i = Some fd /\ fts !! i = Some token
                     /\ fd' = retypeField token fd.
Proof.
  unfold retype.
  destruct (length fts =? size (FieldDefs td))%nat eqn:Hlen; cbn [negb]; [|discriminate].
  apply Nat.eqb_eq in Hlen.
  destruct (rangeMap (retypeBody fts) (FieldDefs td)) as [fds|e|p] eqn:Hr;
    cbn [mbind result_bind]; try discriminate.
  intros H. inversion H; subst td'; clear H. cbn [FieldDefs Key].
  split; [rewrite (rangeMap_size _ _ _ Hr); lia|]. split; [reflexivity|].
  intros i fd' Hi.
  destruct (FieldDefs td !! i) as [fd|] eqn:Hfd.
  - destruct (rangeMap_Ok _ _ _ _ _ Hr Hfd) as (b & Hb & Hb').
    rewrite Hi in Hb'. inversion Hb'; subst b.
    unfold retypeBody in Hb.
    destruct (strAt fts i) as [token| |] eqn:Hs; cbn [mbind result_bind] in Hb; try discriminate.
    inversion Hb. exists fd, token. split; [reflexivity|]. split; [|reflexivity].
    apply strAt_Ok. assumption.
  - rewrite (rangeMap_Ok_None _ _ _ _ Hr Hfd) in Hi. discriminate.
Qed.

(** C1.  When the caller supplies field types and [buildReader] returns its
    reader, the schema has one column per token, and the column at index
    [i] has the type and the illegal-value sentinel that the fixed mapping
    gives to the token at index [i]: f is Float64 (the float type of width
    64) with math.MaxFloat64, i is Int64 (the integer type of width 64)
    with 9223372036854775807, d is Date with 1970-01-01 00:00:00 UTC, and
    any other token is String with "!". *)
Theorem supplied_types_follow_mapping
    rev w source sType skip quote camel hdrs fts xl sheet table t rdr td :
  fts <> [] ->
  buildReader rev w source sType skip quote camel hdrs fts xl sheet table = (t, Ok (rdr, td)) ->
  size (FieldDefs td) = length fts /\
  forall i fd, FieldDefs td !! i = Some fd ->
    exists token, fts !! i = Some token /\ fixedMapping token fd.
Proof.
  intros Hne H.
  apply buildReader_Ok_inv in H as (t1 & td1 & _ & _ & Hty & _ & _).
  destruct fts as [|f fts]; [congruence|]. cbn [length Nat.eqb] in Hty.
  apply retype_Ok_inv in Hty as (Hsize & _ & Hall).
  split; [exact Hsize|].
  intros i fd Hi. destruct (Hall i fd Hi) as (fd0 & token & _ & Htok & ->).
  exists token. split; [exact Htok|]. apply retypeField_mapping.
Qed.

Lemma headerBody_Ok_inv rev camel fd fd' :
  headerBody rev camel fd = Ok fd' ->
  exists name,
    (if camel then toCamel rev (Name fd) else Ok (Name fd)) = Ok name /\
    Name fd' = (if fst (isIn rev name reserved (reservedLower rev))
                then snd (isIn rev name reserved (reservedLower rev)) ++ "1"
                else snd (isIn rev name reserved (reservedLower rev))).
Proof.
  unfold headerBody.
  destruct (if camel then toCamel rev (Name fd) else Ok (Name fd)) as [name|e|p];
    cbn [mbind result_bind]; try discriminate.
  destruct (isIn rev name reserved (reservedLower rev)) as [found name'] eqn:E.
  intros H. inversion H; subst fd'. exists name. split; [reflexivity|].
  rewrite E. reflexivity.
Qed.

(** The loop of the program is the loop at [ToLower] and [toCamel]. *)
Lemma processHeader_instance rev camel td :
  processHeader rev camel td = processHeaderBy ToLower (toCamel rev) rev camel td.
Proof. reflexivity. Qed.

Lemma isInBy_reserved lower rev name :
  isInBy lower rev name reserved (reservedLower rev)
  = (inStack (lower name) reserved, storedName lower rev name).
Proof. destruct rev; reflexivity. Qed.

Lemma headerBodyBy_Ok_inv lower camelOf rev camel fd fd' :
  headerBodyBy lower camelOf rev camel fd = Ok fd' ->
  exists name,
    (if camel then camelOf (Name fd) else Ok (Name fd)) = Ok name /\
    fd' = renameField (if inStack (lower name) reserved
                       then storedName lower rev name ++ "1"
                       else storedName lower rev name) fd.
Proof.
  unfold headerBodyBy.
  destruct (if camel then camelOf (Name fd) else Ok (Name fd)) as [name|e|p];
    cbn [mbind result_bind]; try discriminate.
  rewrite isInBy_reserved. intros H. inversion H. eauto.
Qed.


Lemma xlReader_skip src quote skip xl sheet rdr :
  xlReader src quote skip xl sheet = Ok rdr -> rSkip rdr = skip.
Proof.
  unfold xlReader.
  destruct (intAt xl 0) as [x0| |]; cbn [mbind result_bind]; try discriminate.
  destruct (intAt xl 1) as [x1| |]; cbn [mbind result_bind]; try discriminate.
  destruct (intAt xl 2) as [x2| |]; cbn [mbind result_bind]; try discriminate.
  destruct (intAt xl 3) as [x3| |]; cbn [mbind result_bind]; try discriminate.
  intros H. inversion H. reflexivity.
Qed.

Lemma newFile_skip rev w source sType quote skip xl sheet t rdr :
  newFile rev w source sType quote skip xl sheet = (t, Ok rdr) -> rSkip rdr = skip.
Proof.
  unfold newFile. intros H.
  apply io_bind_Ok_inv in H as (? & [] & ? & _ & H & _).
  apply io_bind_Ok_inv in H as (? & [] & ? & _ & H & _).
  destruct (String.eqb sType "text" || String.eqb sType "csv").
  { unfold io_ret in H. inversion H. reflexivity. }
  destruct (String.eqb sType "xlsx" || String.eqb sType "xls"); [|discriminate].
  apply io_bind_Ok_inv in H as (? & src & ? & _ & H & _).
  apply io_bind_Ok_inv in H as (? & [] & ? & _ & H & _).
  apply io_bind_Ok_inv in H as (? & [] & ? & _ & H & _).
  apply lift_Ok_inv in H as [H _]. eapply xlReader_skip; eauto.
Qed.

Lemma newHttp_skip rev w source sType quote skip xl sheet t rdr :
  newHttp rev w source sType quote skip xl sheet = (t, Ok rdr) -> rSkip rdr = skip.
Proof.
  unfold newHttp. intros H.
  apply io_bind_Ok_inv in H as (? & [] & ? & _ & H & _).
  apply io_bind_Ok_inv in H as (? & body & ? & _ & H & _).
  destruct (String.eqb sType "text" || String.eqb sType "csv").
  { unfold io_ret in H. inversion H. reflexivity. }
  destruct (String.eqb sType "xlsx").
  { apply io_bind_Ok_inv in H as (? & [] & ? & _ & H & _).
    apply io_bind_Ok_inv in H as (? & [] & ? & _ & H & _).
    apply lift_Ok_inv in H as [H _]. eapply xlReader_skip; eauto. }
  destruct (String.eqb sType "xls"); [|discriminate].
  apply io_bind_Ok_inv in H as (? & [] & ? & _ & H & _).
  apply io_bind_Ok_inv in H as (? & [] & ? & _ & H & _).
  eapply newFile_skip; eauto.
Qed.

Lemma NewReader_skip rev w source sType quote skip xl sheet t rdr :
  NewReader rev w source sType quote skip xl sheet = (t, Ok rdr) -> rSkip rdr = skip.
Proof.
  unfold NewReader. destruct (viaHttp source); [apply newHttp_skip | apply newFile_skip].
Qed.

Lemma wrap64_in_range z : - 2 ^ 63 <= z < 2 ^ 63 -> wrap64 z = z.
Proof.
  intros H. unfold wrap64. rewrite Z.mod_small; lia.
Qed.

(** C7.  The reader that [buildReader] returns was built with the caller's
    skip count plus one when no header names were supplied (the sum is a Go
    [int]: it is exactly one more below math.MaxInt64), and with the
    caller's skip count unchanged when header names were supplied. *)
Theorem header_row_skipped
    rev w source sType skip quote camel hdrs fts xl sheet table t rdr td :
  buildReader rev w source sType skip quote camel hdrs fts xl sheet table = (t, Ok (rdr, td)) ->
  (hdrs = [] -> rSkip rdr = wrap64 (skip + 1)
                /\ (- 2 ^ 63 <= skip < MaxInt64 -> rSkip rdr = skip + 1))
  /\ (hdrs <> [] -> rSkip rdr = skip).
Proof.
  intros H. apply buildReader_Ok_inv in H as (t1 & td1 & Hnew & _).
  apply NewReader_skip in Hnew. rewrite Hnew. unfold skipUsed.
  split.
  - intros ->. cbn. split; [reflexivity|].
    intros Hr. apply wrap64_in_range. unfold MaxInt64 in Hr. lia.
  - intros Hne. destruct hdrs; [congruence|]. reflexivity.
Qed.

Lemma lastByte_cons c s : lastByte (String c s) = match s with EmptyString => Some c | _ => lastByte s end.
Proof. destruct s; reflexivity. Qed.

Lemma endsInAny_cons set c s :
  endsInAny set (String c s) = match s with EmptyString => memByte c set | _ => endsInAny set s end.
Proof. unfold endsInAny. rewrite lastByte_cons. destruct s; reflexivity. Qed.

Lemma isSep_upperByte d : isSep (upperByte d) = isSep d.
Proof. destruct d as [[] [] [] [] [] [] [] []]; vm_compute; reflexivity. Qed.

Lemma camelStep_cases s :
  match camelStep s with
  | Ok None => indexAny s chars = None /\ endsInAny chars s = false
  | Ok (Some s') => endsInAny chars s' = endsInAny chars s
  | Err _ => False
  | Panic p => p = slicePanic /\ endsInAny chars s = true
  end.
Proof.
  induction s as [|c s IH]; [split; reflexivity|].
  destruct (isSep c) eqn:Hc.
  - destruct s as [|d s].
    + rewrite camelStep_sep_last by assumption. split; [reflexivity|]. exact Hc.
    + rewrite camelStep_sep_next by assumption.
      rewrite (endsInAny_cons chars c), !endsInAny_cons.
      destruct s; [apply isSep_upperByte | reflexivity].
  - rewrite camelStep_cons_other by assumption.
    destruct (camelStep s) as [[t|]|e|p] eqn:Hs.
    + rewrite !endsInAny_cons. destruct s as [|d s]; [discriminate|].
      destruct t as [|e t].
      * rewrite <- IH. exact Hc.
      * exact IH.
    + destruct IH as [Hi He]. split.
      * cbn [indexAny]. fold (isSep c). rewrite Hc, Hi. reflexivity.
      * rewrite endsInAny_cons. destruct s; [exact Hc | exact He].
    + exact IH.
    + destruct IH as [-> He]. split; [reflexivity|].
      rewrite endsInAny_cons. destruct s; [discriminate | exact He].
Qed.

Lemma camelLoop_eq snake :
  camelLoop snake =
  match camelStep snake with
  | Ok None => Ok snake
  | Ok (Some snake') => camelLoop snake'
  | Err e => Err e
  | Panic p => Panic p
  end.
Proof.
  rewrite camelLoop_equation_1. unfold inspect.
  assert (G : forall r (e : camelStep snake = r),
             camelLoop_unfold_clause_1 snake (exist _ r e) =
             match r with
             | Ok None => Ok snake
             | Ok (Some snake') => camelLoop snake'
             | Err e => Err e
             | Panic p => Panic p
             end).
  { intros [[t|]| |] e; reflexivity. }
  apply G.
Qed.

Lemma camelLoop_outcome n : forall s, (String.length s <= n)%nat ->
  if endsInAny chars s then camelLoop s = Panic slicePanic
  else exists r, camelLoop s = Ok r /\ indexAny r chars = None.
Proof.
  induction n as [|n IH]; intros s Hn.
  - destruct s; [|simpl in Hn; lia]. rewrite camelLoop_eq. cbn. eauto.
  - rewrite camelLoop_eq. pose proof (camelStep_cases s) as C.
    destruct (camelStep s) as [[s'|]|e|p] eqn:Hs.
    + rewrite <- C. apply IH. apply camelStep_shrinks in Hs. lia.
    + destruct C as [Hi ->]. eauto.
    + contradiction.
    + destruct C as [-> ->]. reflexivity.
Qed.

Lemma replaceFrom_space n s : n < 0 ->
  replaceFrom " " "_" n 0 s = mapBytes spaceToUnderscore s.
Proof.
  revert n. induction s as [|c s IH]; intros n Hn; [reflexivity|].
  cbn [replaceFrom mapBytes]. replace (n =? 0) with false by (symmetry; apply Z.eqb_neq; lia).
  unfold spaceToUnderscore at 1.
  destruct (Ascii.eqb_spec c " "%char) as [->|Hc].
  - rewrite prefix_cons_same, prefix_nil. cbn. f_equal. apply IH. lia.
  - rewrite prefix_cons_diff by congruence. f_equal. apply IH. assumption.
Qed.

Lemma ReplaceAll_space s : ReplaceAll s " " "_" = mapBytes spaceToUnderscore s.
Proof. unfold ReplaceAll, Replace. cbn [String.eqb orb Z.eqb]. apply replaceFrom_space. lia. Qed.

Lemma lastByte_mapBytes f s : lastByte (mapBytes f s) = f <$> lastByte s.
Proof.
  induction s as [|c s IH]; [reflexivity|].
  cbn [mapBytes]. rewrite !lastByte_cons. destruct s; [reflexivity | exact IH].
Qed.

Lemma sep_after_prelude c :
  memByte (lowerByte (spaceToUnderscore c)) chars = memByte c " ._".
Proof. destruct c as [[] [] [] [] [] [] [] []]; vm_compute; reflexivity. Qed.

Lemma toCamel_loop rev name :
  toCamel rev name = camelLoop (ToLower (mapBytes spaceToUnderscore name)).
Proof.
  unfold toCamel. rewrite ReplaceAll_space.
  destruct rev; cbn [mbind result_bind]; [reflexivity|].
  unfold slice. cbn [Z.leb andb Z.compare].
  replace (0 <=? len _) with true by (symmetry; apply Z.leb_le; unfold len; lia).
  cbn [mbind result_bind Z.sub Z.to_nat]. rewrite substring_0_0.
  unfold Replace. cbn. reflexivity.
Qed.

(** C9.  [toCamel] panics on the slice [snake[ind:ind+2]] for every name
    whose final byte is a dot, an underscore or a space, and for every
    other name (the empty one included) it returns a name that holds no dot
    and no underscore. *)
Theorem toCamel_total_iff rev name :
  if endsInAny " ._" name
  then toCamel rev name = Panic "slice bounds out of range"
  else exists r, toCamel rev name = Ok r /\ IndexAny r "._" = -1.
Proof.
  rewrite toCamel_loop.
  pose proof (camelLoop_outcome _ (ToLower (mapBytes spaceToUnderscore name)) (Nat.le_refl _)) as L.
  assert (E : endsInAny chars (ToLower (mapBytes spaceToUnderscore name)) = endsInAny " ._" name).
  { unfold endsInAny, ToLower. rewrite !lastByte_mapBytes.
    destruct (lastByte name) as [c|]; [|reflexivity]. cbn. apply sep_after_prelude. }
  rewrite E in L. destruct (endsInAny " ._" name); [exact L|].
  destruct L as (r & Hr & Hi). exists r. split; [exact Hr|].
  unfold IndexAny. fold chars. rewrite Hi. reflexivity.
Qed.



Lemma Impute_lookup parses rows tol td j fd :
  FieldDefs (Impute parses rows tol td) !! j = Some fd ->
  exists fd0, FieldDefs td !! j = Some fd0 /\ Name fd = Name fd0
              /\ Base fd = inferType parses tol (columnCells rows j).
Proof.
  unfold Impute. cbn [FieldDefs]. rewrite map_lookup_imap.
  destruct (FieldDefs td !! j) as [fd0|]; cbn; [|discriminate].
  intros H. inversion H; subst fd. cbn. eauto.
Qed.





(** ** Flag validation *)

Lemma xlLoop_keeps n : forall ind r c ret ret',
  xlLoop n ind r c ret = Ok ret' ->
  ignore ret' = ignore ret /\ camel ret' = camel ret /\ sTypeOut ret' = sTypeOut ret
  /\ headers ret' = headers ret /\ fieldTypes ret' = fieldTypes ret /\ quote ret' = quote ret.
Proof.
  induction n as [|n IH]; intros ind r c ret ret' H; cbn [xlLoop] in H.
  - inversion H; subst; repeat split; reflexivity.
  - destruct (strAt r ind) as [rs| |]; cbn [mbind result_bind] in H; try discriminate.
    destruct (ParseInt32 rs) as [rx|e|p]; try discriminate.
    2:{ inversion H; subst; cbn; repeat split; reflexivity. }
    destruct (strAt c ind) as [cs| |]; cbn [mbind result_bind] in H; try discriminate.
    destruct (ParseInt32 cs) as [cx|e|p]; try discriminate.
    2:{ inversion H; subst; cbn; repeat split; reflexivity. }
    apply IH in H. cbn in H. exact H.
Qed.

Lemma flagsTail_keeps rev a ret ret' :
  flagsTail rev a ret = Ok ret' ->
  ignore ret' = ignore ret /\ camel ret' = camel ret /\ sTypeOut ret' = sTypeOut ret.
Proof.
  unfold flagsTail.
  destruct (byteAt (quoteOpt a) 0) as [q| |]; cbn [mbind result_bind]; try discriminate.
  intros H.
  repeat match type of H with
         | context [match ?x with _ => _ end] =>
             match x with
             | xlLoop _ _ _ _ _ => fail 1
             | _ => destruct x eqn:?
             end
         end;
    try (inversion H; subst; cbn; repeat split; reflexivity);
    try (apply xlLoop_keeps in H; cbn in H; tauto).
Qed.

Lemma isIn_lower rev needle stack :
  isIn rev needle stack true = (inStack (ToLower needle) stack, ToLower needle).
Proof. destruct rev; reflexivity. Qed.

Lemma flags_ignore a fr :
  flags R2 a = Ok fr -> err fr = None ->
  ignore fr = String.eqb (ToLower (ignoreOpt a)) "y".
Proof.
  unfold flags. rewrite !isIn_lower.
  destruct (inStack (ToLower (sType a)) types); cbn [negb];
    [|intros H; inversion H; subst; discriminate].
  destruct (inStack (ToLower (camelOpt a)) ctypes); cbn [negb];
    [|intros H; inversion H; subst; discriminate].
  destruct (inStack (ToLower (ignoreOpt a)) ctypes); cbn [negb];
    [|intros H; inversion H; subst; discriminate].
  intros H _. apply flagsTail_keeps in H as (H & _). exact H.
Qed.

Lemma flags_R1_ignore a fr : flags R1 a = Ok fr -> ignore fr = false.
Proof.
  unfold flags. rewrite !isIn_lower.
  destruct (inStack (ToLower (sType a)) types); cbn [negb];
    [|intros H; inversion H; subst; reflexivity].
  destruct (inStack (ToLower (camelOpt a)) ctypes); cbn [negb];
    [|intros H; inversion H; subst; reflexivity].
  intros H. apply flagsTail_keeps in H as (H & _). exact H.
Qed.

Lemma flagsTail_empty_quote rev a ret :
  quoteOpt a = "" -> flagsTail rev a ret = Panic "index out of range".
Proof. intros Hq. unfold flagsTail. rewrite Hq. reflexivity. Qed.

(** ** The run after the reader is built *)

Lemma main_after_build rev w a fr t1 rdr td :
  flags rev a = Ok fr -> err fr = None -> connectErr w = None ->
  buildReader rev w (source a) (sTypeOut fr) (skipOpt a) (quote fr) (camel fr)
    (headers fr) (fieldTypes fr) (xlArea fr) (xlSheet a) (table a) = (t1, Ok (rdr, td)) ->
  main rev w a =
  match exportCall rev w rdr (ignore fr) with
  | (t2, Ok rep) =>
      (EConnect (host a) (user a) (password a) :: t1 ++ t2
         ++ [EPrintElapsed; EClose "wtr"; EClose "rdr"; EClose "con"], Completed rep)%list
  | (t2, Err e) =>
      (EConnect (host a) (user a) (password a) :: t1 ++ t2 ++ [EFatal e], Fatal e)%list
  | (t2, Panic p) =>
      (EConnect (host a) (user a) (password a) :: t1 ++ t2
         ++ [EClose "wtr"; EClose "rdr"; EClose "con"], Crashed p)%list
  end.
Proof.
  intros Hf He Hc Hb. unfold main, mainBody. rewrite Hf.
  cbn [lift io_bind]. rewrite He, Hc, Hb. cbn [check io_ret emit io_bind fst].
  destruct (exportCall rev w rdr (ignore fr)) as [t2 [rep|e|p]];
    cbn [io_bind emit io_ret deferring app]; rewrite <- ?app_assoc; cbn [app];
    rewrite ?app_nil_r; try reflexivity.
Qed.

Lemma exportCall_rows rev w rdr ig rows :
  dataRows w rdr = Ok rows ->
  exportCall rev w rdr ig =
  match rev with
  | R1 => ([EExport 0 None], Export (rowAccepted w) rows false)
  | R2 => ([EExport 1000 (Some ig)], Export (rowAccepted w) rows ig)
  end.
Proof.
  intros H. unfold exportCall.
  destruct rev; rewrite H; cbn [emit io_bind lift];
    destruct (Export (rowAccepted w) rows _); reflexivity.
Qed.

Lemma Export_strict_rejects accepted rows :
  (exists r, r ∈ rows /\ accepted r = false) ->
  Export accepted rows false = Err rejectedMsg.
Proof.
  intros (r & Hin & Hr). unfold Export.
  destruct (forallb accepted rows) eqn:Hall; [|reflexivity].
  rewrite forallb_forall in Hall. apply list_elem_of_In in Hin.
  rewrite (Hall r Hin) in Hr. discriminate.
Qed.

(** C8.  Once the reader is built: without tolerance (the revision without
    [-i], or [-i] left at N or given as n), a row that the destination
    rejects ends the run through [log.Fatalln], with a message and exit
    status 1; with [-i Y] or [-i y] the export is called with the toggle
    set, the rejected rows are skipped and counted, and the run
    completes. *)
Theorem row_error_tolerance rev w a fr t1 rdr td rows :
  flags rev a = Ok fr -> err fr = None -> connectErr w = None ->
  buildReader rev w (source a) (sTypeOut fr) (skipOpt a) (quote fr) (camel fr)
    (headers fr) (fieldTypes fr) (xlArea fr) (xlSheet a) (table a) = (t1, Ok (rdr, td)) ->
  dataRows w rdr = Ok rows ->
  ((rev = R1 \/ ignoreOpt a = "N" \/ ignoreOpt a = "n") ->
   (exists r, r ∈ rows /\ rowAccepted w r = false) ->
   exists t msg,
     main rev w a = ((t ++ [EFatal msg])%list, Fatal msg) /\ msg <> ""
     /\ exitStatus (Fatal msg) <> 0
     /\ (rev = R2 -> EExport 1000 (Some false) ∈ t))
  /\ (rev = R2 -> ignoreOpt a = "Y" \/ ignoreOpt a = "y" ->
      exists t,
        main rev w a =
          (t, Completed {| written := filter (rowAccepted w) rows;
                           skipped := length (filter (fun r => negb (rowAccepted w r)) rows) |})
        /\ EExport 1000 (Some true) ∈ t).
Proof.
  intros Hf He Hc Hb Hrows.
  rewrite (main_after_build _ _ _ _ _ _ _ Hf He Hc Hb), (exportCall_rows _ _ _ _ _ Hrows).
  split.
  - intros Hoff Hrej.
    assert (Hig : rev = R1 \/ (rev = R2 /\ ignore fr = false)).
    { destruct rev; [left; reflexivity|right]. split; [reflexivity|].
      rewrite (flags_ignore _ _ Hf He).
      destruct Hoff as [?|[->| ->]]; [discriminate | reflexivity | reflexivity]. }
    exists (EConnect (host a) (user a) (password a) :: t1
            ++ match rev with R1 => [EExport 0 None] | R2 => [EExport 1000 (Some false)] end)%list,
           rejectedMsg.
    destruct Hig as [->|[-> Hig]].
    + rewrite (Export_strict_rejects _ _ Hrej). cbn [app].
      rewrite <- app_assoc. repeat split; try discriminate.
    + rewrite Hig, (Export_strict_rejects _ _ Hrej). cbn [app].
      rewrite <- app_assoc. repeat split; try discriminate.
      intros _. trace_mem.
  - intros -> Hon.
    assert (Hig : ignore fr = true).
    { rewrite (flags_ignore _ _ Hf He). destruct Hon as [-> | ->]; reflexivity. }
    rewrite Hig. unfold Export. eexists. split; [reflexivity|]. trace_mem.
Qed.

(** ** Invalid flags end the run before any action *)

Lemma main_flag_error rev w a fr msg :
  flags rev a = Ok fr -> err fr = Some msg ->
  main rev w a =
  ((match rev with R1 => [] | R2 => [EHelp] end ++ [EFatal msg])%list, Fatal msg).
Proof.
  intros Hf He. unfold main, mainBody. rewrite Hf. cbn [lift io_bind]. rewrite He.
  destruct rev; reflexivity.
Qed.

Lemma main_flag_panic rev w a p :
  flags rev a = Panic p -> main rev w a = ([], Crashed p).
Proof. intros Hf. unfold main, mainBody. rewrite Hf. reflexivity. Qed.

Lemma main_connects rev w a fr :
  flags rev a = Ok fr -> err fr = None ->
  exists rest e, main rev w a = (EConnect (host a) (user a) (password a) :: rest, e).
Proof.
  intros Hf He. unfold main, mainBody. rewrite Hf. cbn [lift io_bind]. rewrite He.
  cbn [emit io_bind].
  match goal with |- context [io_bind (check ?c) ?k] => destruct (io_bind (check c) k) as [t [rep|e|p]] end;
    cbn [app]; eauto.
Qed.

Lemma splitFrom_length sep skip cur s : (1 <= length (splitFrom sep skip cur s))%nat.
Proof.
  revert skip cur. induction s as [|c s IH]; intros skip cur; cbn [splitFrom]; [simpl; lia|].
  destruct skip; [|apply IH].
  destruct (String.prefix sep (String c s)); [simpl; lia | apply IH].
Qed.

Lemma Split_comma_length s : (1 <= length (Split s ","))%nat.
Proof. unfold Split. apply splitFrom_length. Qed.

Lemma flagsTail_length_mismatch rev a ret :
  quoteOpt a <> "" -> headerOpt a <> "" -> fieldOpt a <> "" ->
  length (Split (ReplaceAll (ReplaceAll (headerOpt a) " " "") "'" "") ",")
  <> length (Split (ReplaceAll (ToLower (ReplaceAll (fieldOpt a) " " "")) "'" "") ",") ->
  exists ret' msg, flagsTail rev a ret = Ok ret' /\ err ret' = Some msg.
Proof.
  intros Hq Hh Hf Hlen. unfold flagsTail.
  assert (Hb : exists q, byteAt (quoteOpt a) 0 = Ok q).
  { destruct (quoteOpt a) as [|c s]; [congruence|]. exists c. unfold byteAt, len.
    cbn [String.length]. replace (0 <? Z.of_nat (S (String.length s))) with true
      by (symmetry; apply Z.ltb_lt; lia). reflexivity. }
  destruct Hb as [q ->]. cbn [mbind result_bind].
  apply String.eqb_neq in Hh, Hf. rewrite Hh, Hf. cbn [negb fieldTypes headers setFieldTypes setHeaders setQuote].
  destruct (firstBadType rev _) as [f|]; [eexists _, _; split; reflexivity|].
  pose proof (Split_comma_length (ReplaceAll (ReplaceAll (headerOpt a) " " "") "'" "")) as L1.
  pose proof (Split_comma_length (ReplaceAll (ToLower (ReplaceAll (fieldOpt a) " " "")) "'" "")) as L2.
  apply Nat.eqb_neq in Hlen. rewrite Hlen. cbn [negb andb].
  replace (0 <? length (Split (ReplaceAll (ReplaceAll (headerOpt a) " " "") "'" "") ","))%nat with true
    by (symmetry; apply Nat.ltb_lt; lia).
  replace (0 <? length (Split (ReplaceAll (ToLower (ReplaceAll (fieldOpt a) " " "")) "'" "") ","))%nat with true
    by (symmetry; apply Nat.ltb_lt; lia).
  cbn [andb]. eexists _, _; split; reflexivity.
Qed.

Lemma flags_length_mismatch rev a :
  quoteOpt a <> "" -> headerOpt a <> "" -> fieldOpt a <> "" ->
  length (Split (ReplaceAll (ReplaceAll (headerOpt a) " " "") "'" "") ",")
  <> length (Split (ReplaceAll (ToLower (ReplaceAll (fieldOpt a) " " "")) "'" "") ",") ->
  exists fr msg, flags rev a = Ok fr /\ err fr = Some msg.
Proof.
  intros Hq Hh Hf Hlen. unfold flags. rewrite !isIn_lower.
  destruct (inStack (ToLower (sType a)) types); cbn [negb];
    [|eexists _, _; split; reflexivity].
  destruct (inStack (ToLower (camelOpt a)) ctypes); cbn [negb];
    [|eexists _, _; split; reflexivity].
  destruct rev.
  - apply flagsTail_length_mismatch; assumption.
  - destruct (inStack (ToLower (ignoreOpt a)) ctypes); cbn [negb];
      [|eexists _, _; split; reflexivity].
    apply flagsTail_length_mismatch; assumption.
Qed.

Lemma retype_length_mismatch fts td :
  length fts <> size (FieldDefs td) ->
  retype fts td = Err (lengthError (length fts) (size (FieldDefs td))).
Proof. intros H. unfold retype. apply Nat.eqb_neq in H. rewrite H. reflexivity. Qed.

(** ** Concrete runs *)

(** A run with the types i, d, s supplied for the three columns of the
    header. *)
Lemma supplied_types_follow_mapping_witness :
  exists t rdr td,
    buildReader R2 demoWorld "/data/loans.csv" "csv" 0 34 false [] ["i"; "d"; "s"]
      [0; 0; 0; 0] "" "loans" = (t, Ok (rdr, td))
    /\ size (FieldDefs td) = 3%nat
    /\ forall i fd, FieldDefs td !! i = Some fd ->
         exists token, ["i"; "d"; "s"] !! i = Some token /\ fixedMapping token fd.
Proof.
  destruct (buildReader R2 demoWorld "/data/loans.csv" "csv" 0 34 false [] ["i"; "d"; "s"]
              [0; 0; 0; 0] "" "loans") as [t [[rdr td]|e|p]] eqn:E;
    try (vm_compute in E; discriminate).
  exists t, rdr, td. split; [reflexivity|].
  apply (supplied_types_follow_mapping R2 demoWorld "/data/loans.csv" "csv" 0 34 false []
           ["i"; "d"; "s"] [0; 0; 0; 0] "" "loans" t rdr td); [discriminate | exact E].
Defined.



(** A run with [-skip 4] and the names read from the file: the reader skips
    five rows. *)
Lemma header_row_skipped_witness :
  exists t rdr td,
    buildReader R2 demoWorld "/data/loans.csv" "csv" 4 34 false [] ["i"; "d"; "s"]
      [0; 0; 0; 0] "" "loans" = (t, Ok (rdr, td))
    /\ rSkip rdr = 5.
Proof.
  destruct (buildReader R2 demoWorld "/data/loans.csv" "csv" 4 34 false [] ["i"; "d"; "s"]
              [0; 0; 0; 0] "" "loans") as [t [[rdr td]|e|p]] eqn:E;
    try (vm_compute in E; discriminate).
  exists t, rdr, td. split; [reflexivity|].
  destruct (header_row_skipped R2 demoWorld "/data/loans.csv" "csv" 4 34 false []
              ["i"; "d"; "s"] [0; 0; 0; 0] "" "loans" t rdr td E) as [Hread _].
  destruct (Hread eq_refl) as [_ Hplus]. apply Hplus. unfold MaxInt64. lia.
Defined.

(** A run with [-i Y] against a destination that rejects the second of
    three rows. *)
Lemma row_error_tolerance_witness :
  exists t,
    main R2 demoWorld tolerantArgs =
      (t, Completed {| written := [["1"; "x"; "2"]; ["3"; ""; "4"]]; skipped := 1 |})
    /\ EExport 1000 (Some true) ∈ t.
Proof.
  destruct (flags R2 tolerantArgs) as [fr|e|p] eqn:Hf; try (vm_compute in Hf; discriminate).
  assert (He : err fr = None).
  { assert (Ok fr = flags R2 tolerantArgs) as Hf' by (symmetry; exact Hf).
    vm_compute in Hf'. inversion Hf'. reflexivity. }
  destruct (buildReader R2 demoWorld (source tolerantArgs) (sTypeOut fr) (skipOpt tolerantArgs)
              (quote fr) (camel fr) (headers fr) (fieldTypes fr) (xlArea fr)
              (xlSheet tolerantArgs) (table tolerantArgs)) as [t1 [[rdr td]|e|p]] eqn:Hb;
    try (assert (Ok fr = flags R2 tolerantArgs) as Hf' by (symmetry; exact Hf);
         vm_compute in Hf'; inversion Hf'; subst fr; vm_compute in Hb; discriminate).
  destruct (row_error_tolerance R2 demoWorld tolerantArgs fr t1 rdr td
              [["1"; "x"; "2"]; ["2"; "y"; "z"]; ["3"; ""; "4"]] Hf He eq_refl Hb eq_refl)
    as [_ Hon].
  destruct (Hon eq_refl (or_introl eq_refl)) as (t & Hmain & Hev).
  exists t. split; [exact Hmain | exact Hev].
Defined.

(** C10, as worded, fails: with [-q] empty and no [-type], [flags] returns
    the error of the source type and does not panic. *)
Lemma empty_quote_without_type_is_an_error :
  ~ empty_quote_always_panics.
Proof.
  intros H. destruct (H R1 noTypeArgs eq_refl) as [p Hp].
  vm_compute in Hp. discriminate.
Qed.

Lemma prefix_app s t : String.prefix s (s ++ t) = true.
Proof.
  induction s as [|c s IH]; [destruct t; reflexivity|].
  change (String c s ++ t) with (String c (s ++ t)). cbn [String.prefix].
  destruct (ascii_dec c c) as [_|N]; [exact IH | contradiction].
Qed.

(** C10, amended.  When [-q] is the empty string and the options checked
    before it ([-type], [-c], and [-i] in the revision that has it) are
    valid, [flags] panics with an index out of range, and the run crashes
    before any action.  When one of those options is not valid, [flags]
    does not reach [-q], whatever it is: it returns the error of the first
    of them that is not valid, which names the source type for [-type] and
    is the message of [-c] for [-c] and also for [-i], and the run ends
    with that error before any action. *)
Theorem empty_quote_panics_after_checks rev w a :
  (quoteOpt a = "" ->
   inStack (ToLower (sType a)) types = true ->
   inStack (ToLower (camelOpt a)) ctypes = true ->
   (rev = R2 -> inStack (ToLower (ignoreOpt a)) ctypes = true) ->
   flags rev a = Panic "index out of range"
   /\ main rev w a = ([], Crashed "index out of range"))
  /\ (inStack (ToLower (sType a)) types = false ->
      exists fr msg,
        flags rev a = Ok fr /\ err fr = Some msg
        /\ msg = "unrecognized source type: " ++ sTypeOut fr
        /\ String.prefix "unrecognized source type: " msg = true
        /\ main rev w a = ((helpEvents rev ++ [EFatal msg])%list, Fatal msg))
  /\ (inStack (ToLower (sType a)) types = true ->
      inStack (ToLower (camelOpt a)) ctypes = false
      \/ (rev = R2 /\ inStack (ToLower (ignoreOpt a)) ctypes = false) ->
      exists fr,
        flags rev a = Ok fr /\ err fr = Some "-c option is Y or N"
        /\ main rev w a = ((helpEvents rev ++ [EFatal "-c option is Y or N"])%list,
                           Fatal "-c option is Y or N")).
Proof.
  split; [|split].
  - intros Hq Ht Hc Hi.
    assert (Hf : flags rev a = Panic "index out of range").
    { unfold flags. rewrite !isIn_lower, Ht, Hc. cbn [negb].
      destruct rev.
      - apply flagsTail_empty_quote. exact Hq.
      - rewrite (Hi eq_refl). cbn [negb]. apply flagsTail_empty_quote. exact Hq. }
    split; [exact Hf|]. apply main_flag_panic. exact Hf.
  - intros Ht.
    assert (Hf : exists fr, flags rev a = Ok fr
                 /\ err fr = Some ("unrecognized source type: " ++ sTypeOut fr)).
    { unfold flags. rewrite !isIn_lower, Ht. cbn [negb]. eexists. split; reflexivity. }
    destruct Hf as (fr & Hf & He). exists fr, ("unrecognized source type: " ++ sTypeOut fr).
    split; [exact Hf|]. split; [exact He|]. split; [reflexivity|].
    split; [apply prefix_app|]. apply (main_flag_error _ _ _ _ _ Hf He).
  - intros Ht Hbad.
    assert (Hf : exists fr, flags rev a = Ok fr /\ err fr = Some "-c option is Y or N").
    { unfold flags. rewrite !isIn_lower, Ht. cbn [negb].
      destruct (inStack (ToLower (camelOpt a)) ctypes) eqn:Hc; cbn [negb].
      - destruct Hbad as [Hbad|[-> Hi]]; [discriminate|].
        rewrite Hi. cbn [negb]. eexists. split; reflexivity.
      - eexists. split; reflexivity. }
    destruct Hf as (fr & Hf & He). exists fr.
    split; [exact Hf|]. split; [exact He|]. apply (main_flag_error _ _ _ _ _ Hf He).
Qed.

(** [-type csv -q ''] in the revision with [-i]. *)
Lemma empty_quote_panics_after_checks_witness :
  flags R2 emptyQuoteArgs = Panic "index out of range"
  /\ main R2 demoWorld emptyQuoteArgs = ([], Crashed "index out of range").
Proof.
  apply (proj1 (empty_quote_panics_after_checks R2 demoWorld emptyQuoteArgs));
    [reflexivity | reflexivity | reflexivity | intros _; reflexivity].
Defined.

(** C3.  With three header names, two field types and an empty [-q], [flags]
    panics on the index of the quote before it compares the two lengths:
    the run crashes and no error is reported. *)
Theorem length_mismatch_with_empty_quote_panics rev w :
  flags rev mismatchArgs = Panic "index out of range"
  /\ main rev w mismatchArgs = ([], Crashed "index out of range").
Proof.
  assert (Hf : flags rev mismatchArgs = Panic "index out of range")
    by (destruct rev; reflexivity).
  split; [exact Hf|]. apply main_flag_panic. exact Hf.
Qed.

(** C5.  With [-q ab] and everything else valid, [flags] returns no error:
    the error it set for the quote is overwritten by the result of
    [ParseInt], the quote is the byte 'a', and [main] goes on to connect to
    the server. *)
Theorem long_quote_is_accepted rev w :
  exists fr rest e,
    flags rev longQuoteArgs = Ok fr /\ err fr = None /\ quote fr = 97
    /\ main rev w longQuoteArgs = (EConnect "127.0.0.1" "default" "" :: rest, e).
Proof.
  destruct (flags rev longQuoteArgs) as [fr|e|p] eqn:Hf;
    try (destruct rev; vm_compute in Hf; discriminate).
  assert (He : err fr = None /\ quote fr = 97).
  { destruct rev; vm_compute in Hf; inversion Hf; split; reflexivity. }
  destruct He as [He Hq].
  destruct (main_connects rev w longQuoteArgs fr Hf He) as (rest & e & Hm).
  exists fr, rest, e. auto.
Qed.

Lemma io_bind_emit {A} (ev : event) (k : unit -> io A) :
  io_bind (emit ev) k = (ev :: fst (k tt), snd (k tt)).
Proof. unfold io_bind, emit. destruct (k tt). reflexivity. Qed.

Lemma NewReader_route rev w source sType quote skip xl sheet :
  NewReader rev w source sType quote skip xl sheet =
  if Contains (ToLower source) "http"
  then newHttp rev w source sType quote skip xl sheet
  else newFile rev w source sType quote skip xl sheet.
Proof. reflexivity. Qed.

Lemma newHttp_first_event rev w source sType quote skip xl sheet :
  exists rest r,
    newHttp rev w source sType quote skip xl sheet = (EHttpGet source :: rest, r).
Proof. unfold newHttp. rewrite io_bind_emit. eauto. Qed.

Lemma newFile_first_event rev w source sType quote skip xl sheet :
  exists rest r,
    newFile rev w source sType quote skip xl sheet = (EOpen source :: rest, r).
Proof. unfold newFile. rewrite io_bind_emit. eauto. Qed.

(** C4.  The local path /data/http_logs.csv is not opened: [NewReader]
    finds "http" in it and the first action is the HTTP request. *)
Theorem local_path_with_http_is_fetched rev w sType quote skip xl sheet :
  viaHttp "/data/http_logs.csv" = true
  /\ exists rest r,
       NewReader rev w "/data/http_logs.csv" sType quote skip xl sheet
       = (EHttpGet "/data/http_logs.csv" :: rest, r).
Proof.
  split; [reflexivity|].
  rewrite NewReader_route.
  replace (Contains (ToLower "/data/http_logs.csv") "http") with true by reflexivity.
  apply newHttp_first_event.
Qed.

Lemma io_bind_trace {A B} (m : io A) (k : A -> io B) :
  forallb (fun e => negb (isCreate e)) (fst m) = true ->
  (forall a, forallb (fun e => negb (isCreate e)) (fst (k a)) = true) ->
  forallb (fun e => negb (isCreate e)) (fst (io_bind m k)) = true.
Proof.
  intros Hm Hk. destruct m as [t [a|e|p]]; cbn [io_bind fst] in *; try exact Hm.
  specialize (Hk a). destruct (k a) as [t' r]. cbn [fst] in *.
  rewrite forallb_app, Hm, Hk. reflexivity.
Qed.

Ltac no_create :=
  repeat first
    [ reflexivity
    | apply io_bind_trace; [|intros ?]
    | match goal with
      | |- context [check ?e] => destruct e; cbn [check fail io_ret fst forallb]
      | |- context [lift ?r] => unfold lift; cbn [fst forallb]
      | |- context [if ?b then _ else _] => destruct b
      end ].

Lemma newFile_no_create rev w source sType quote skip xl sheet :
  forallb (fun e => negb (isCreate e))
    (fst (newFile rev w source sType quote skip xl sheet)) = true.
Proof. unfold newFile. no_create. Qed.

Lemma newHttp_no_create rev w source sType quote skip xl sheet :
  forallb (fun e => negb (isCreate e))
    (fst (newHttp rev w source sType quote skip xl sheet)) = true.
Proof. unfold newHttp. no_create; apply newFile_no_create. Qed.

Lemma NewReader_no_create rev w source sType quote skip xl sheet :
  forallb (fun e => negb (isCreate e))
    (fst (NewReader rev w source sType quote skip xl sheet)) = true.
Proof.
  unfold NewReader. destruct (viaHttp source);
    [apply newHttp_no_create | apply newFile_no_create].
Qed.

Lemma readNames_no_create rev w rdr camel hdrs :
  forallb (fun e => negb (isCreate e)) (fst (readNames rev w rdr camel hdrs)) = true.
Proof. unfold readNames. no_create. Qed.

Lemma no_create_not_elem t tbl :
  forallb (fun e => negb (isCreate e)) t = true -> ECreateTable tbl ∉ t.
Proof.
  intros H Hin. rewrite forallb_forall in H. apply list_elem_of_In in Hin.
  specialize (H _ Hin). discriminate.
Qed.

(** When the caller supplies field types and their number differs from the
    number of columns of the schema, [buildReader] returns the error that
    names the two lengths, and no table is created. *)
Theorem type_count_mismatch_fails
    rev w source sType skip quote camel hdrs fts xl sheet table t1 rdr t2 td1 :
  NewReader rev w source sType quote (skipUsed hdrs skip) xl sheet = (t1, Ok rdr) ->
  readNames rev w rdr camel hdrs = (t2, Ok td1) ->
  fts <> [] ->
  length fts <> size (FieldDefs td1) ->
  buildReader rev w source sType skip quote camel hdrs fts xl sheet table
  = ((t1 ++ t2)%list, Err (lengthError (length fts) (size (FieldDefs td1))))
  /\ forall tbl, ECreateTable tbl ∉ (t1 ++ t2)%list.
Proof.
  intros Hnew Hnames Hne Hlen. split.
  - unfold buildReader. fold (skipUsed hdrs skip). rewrite Hnew. cbn [io_bind].
    rewrite Hnames. cbn [io_bind]. unfold resolveTypes.
    destruct fts as [|f fts]; [congruence|]. cbn [length Nat.eqb].
    rewrite (retype_length_mismatch _ _ Hlen). cbn [lift io_bind].
    rewrite app_nil_r. reflexivity.
  - intros tbl. apply no_create_not_elem. rewrite forallb_app.
    pose proof (NewReader_no_create rev w source sType quote (skipUsed hdrs skip) xl sheet) as H1.
    pose proof (readNames_no_create rev w rdr camel hdrs) as H2.
    rewrite Hnew in H1. rewrite Hnames in H2. cbn [fst] in H1, H2.
    rewrite H1, H2. reflexivity.
Qed.

(** Two types for the three columns of the header. *)
Lemma type_count_mismatch_fails_witness :
  exists t,
    buildReader R2 demoWorld "/data/loans.csv" "csv" 0 34 false [] ["s"; "s"]
      [0; 0; 0; 0] "" "loans"
    = (t, Err "supplied field types have length 2, data has 3 columns")
    /\ forall tbl, ECreateTable tbl ∉ t.
Proof.
  destruct (NewReader R2 demoWorld "/data/loans.csv" "csv" 34 (skipUsed [] 0) [0; 0; 0; 0] "")
    as [t1 [rdr|e|p]] eqn:Hnew; try (vm_compute in Hnew; discriminate).
  destruct (readNames R2 demoWorld rdr false []) as [t2 [td1|e|p]] eqn:Hnames;
    try (vm_compute in Hnames; discriminate).
  assert (Hsize : size (FieldDefs td1) = 3%nat).
  { assert ((t2, Ok td1) = readNames R2 demoWorld rdr false []) as H by (symmetry; exact Hnames).
    vm_compute in H. inversion H. reflexivity. }
  destruct (type_count_mismatch_fails R2 demoWorld "/data/loans.csv" "csv" 0 34 false []
              ["s"; "s"] [0; 0; 0; 0] "" "loans" t1 rdr t2 td1 Hnew Hnames) as [Hb Hno].
  - discriminate.
  - rewrite Hsize. cbn. lia.
  - exists (t1 ++ t2)%list. split; [|exact Hno].
    rewrite Hb, Hsize. reflexivity.
Defined.

(** When [-q] is not empty and the caller supplies headers and field types
    of different lengths, [flags] returns an error and [main] ends with it
    before it connects, fetches or opens anything. *)
Theorem length_mismatch_rejected rev w a :
  quoteOpt a <> "" -> headerOpt a <> "" -> fieldOpt a <> "" ->
  length (Split (ReplaceAll (ReplaceAll (headerOpt a) " " "") "'" "") ",")
  <> length (Split (ReplaceAll (ToLower (ReplaceAll (fieldOpt a) " " "")) "'" "") ",") ->
  exists fr msg,
    flags rev a = Ok fr /\ err fr = Some msg
    /\ main rev w a
       = ((match rev with R1 => [] | R2 => [EHelp] end ++ [EFatal msg])%list, Fatal msg).
Proof.
  intros Hq Hh Hf Hlen.
  destruct (flags_length_mismatch rev a Hq Hh Hf Hlen) as (fr & msg & Hfr & He).
  exists fr, msg. split; [exact Hfr|]. split; [exact He|].
  apply main_flag_error with (fr := fr); assumption.
Qed.

(** Three names and two types, with the default quote. *)
Lemma length_mismatch_rejected_witness :
  exists fr,
    flags R2 mismatchQuotedArgs = Ok fr
    /\ err fr = Some "-h headers and -t field types must have same length"
    /\ main R2 demoWorld mismatchQuotedArgs
       = ([EHelp; EFatal "-h headers and -t field types must have same length"],
          Fatal "-h headers and -t field types must have same length").
Proof.
  destruct (length_mismatch_rejected R2 demoWorld mismatchQuotedArgs)
    as (fr & msg & Hf & He & Hm).
  - discriminate.
  - discriminate.
  - discriminate.
  - vm_compute. lia.
  - assert (Hmsg : msg = "-h headers and -t field types must have same length").
    { vm_compute in Hf. inversion Hf; subst fr. cbn in He. congruence. }
    subst msg. exists fr. auto.
Defined.

(** * Further properties *)

Lemma allBytes_app P s t : allBytes P (s ++ t) = allBytes P s && allBytes P t.
Proof.
  induction s as [|c s IH]; [reflexivity|].
  change (String c s ++ t) with (String c (s ++ t)). cbn [allBytes].
  rewrite IH, andb_assoc. reflexivity.
Qed.

Lemma allBytes_mapBytes P f s : allBytes P (mapBytes f s) = allBytes (fun c => P (f c)) s.
Proof. induction s as [|c s IH]; cbn; [reflexivity|]. rewrite IH. reflexivity. Qed.

Lemma allBytes_impl (P Q : ascii -> bool) s :
  (forall c, P c = true -> Q c = true) -> allBytes P s = true -> allBytes Q s = true.
Proof.
  intros H. induction s as [|c s IH]; cbn; [reflexivity|].
  rewrite !andb_true_iff. intros [Hc Hs]. auto.
Qed.

Lemma prefix_single c d s : String.prefix (String c "") (String d s) = Ascii.eqb c d.
Proof.
  cbn. destruct (ascii_dec c d) as [->|Hne].
  - rewrite Ascii.eqb_refl. destruct s; reflexivity.
  - symmetry. apply Ascii.eqb_neq. exact Hne.
Qed.

(** Splitting around one byte. *)
Lemma splitFrom_single_pieces P c cur s piece :
  allBytes P cur = true -> allBytes P s = true ->
  piece ∈ splitFrom (String c "") 0 cur s ->
  allBytes P piece = true /\ (allBytes (isNot c) cur = true -> allBytes (isNot c) piece = true).
Proof.
  revert cur. induction s as [|d s IH]; intros cur Hcur Hs Hin; cbn [splitFrom] in Hin.
  - apply list_elem_of_singleton in Hin as ->. auto.
  - cbn [allBytes] in Hs. apply andb_true_iff in Hs as [Hd Hs].
    rewrite prefix_single in Hin. cbn [String.length Nat.sub] in Hin.
    destruct (Ascii.eqb_spec c d) as [->|Hne].
    + apply elem_of_cons in Hin as [->|Hin]; [auto|].
      destruct (IH "" eq_refl Hs Hin) as [H1 H2]. split; [exact H1|]. intros _. apply H2. reflexivity.
    + assert (Hcur' : allBytes P (cur ++ String d "") = true).
      { rewrite allBytes_app, Hcur. cbn. rewrite Hd. reflexivity. }
      destruct (IH _ Hcur' Hs Hin) as [H1 H2]. split; [exact H1|]. intros Hc. apply H2.
      rewrite allBytes_app, Hc. cbn. unfold isNot.
      replace (Ascii.eqb d c) with false; [reflexivity|].
      symmetry. apply Ascii.eqb_neq. congruence.
Qed.

Lemma Split_single_pieces P c s piece :
  allBytes P s = true -> piece ∈ Split s (String c "") ->
  allBytes P piece = true /\ allBytes (isNot c) piece = true.
Proof.
  intros Hs Hin. unfold Split in Hin.
  destruct (splitFrom_single_pieces P c "" s piece eq_refl Hs Hin) as [H1 H2].
  split; [exact H1 | apply H2; reflexivity].
Qed.

Lemma splitFrom_single_contains c cur s :
  Contains s (String c "") = true -> (2 <= length (splitFrom (String c "") 0 cur s))%nat.
Proof.
  revert cur. induction s as [|d s IH]; intros cur H.
  - cbn in H. discriminate.
  - cbn [Contains] in H. cbn [splitFrom]. rewrite prefix_single in *.
    destruct (Ascii.eqb c d).
    + cbn [length]. pose proof (splitFrom_length (String c "") (String.length (String c "") - 1) "" s). lia.
    + cbn [orb] in H. apply IH. exact H.
Qed.

Lemma Split_single_contains c s :
  Contains s (String c "") = true -> (2 <= length (Split s (String c "")))%nat.
Proof. apply splitFrom_single_contains. Qed.

(** Removing one byte everywhere. *)
Lemma replaceFrom_drop P c n s :
  n < 0 -> allBytes P s = true ->
  allBytes P (replaceFrom (String c "") "" n 0 s) = true
  /\ allBytes (isNot c) (replaceFrom (String c "") "" n 0 s) = true.
Proof.
  revert n. induction s as [|d s IH]; intros n Hn Hs; [split; reflexivity|].
  cbn [allBytes] in Hs. apply andb_true_iff in Hs as [Hd Hs].
  cbn [replaceFrom]. replace (n =? 0) with false by (symmetry; apply Z.eqb_neq; lia).
  rewrite prefix_single. cbn [String.length Nat.sub].
  destruct (Ascii.eqb_spec c d) as [->|Hne].
  - cbn [append]. apply IH; [lia | exact Hs].
  - cbn [allBytes]. destruct (IH n Hn Hs) as [H1 H2]. rewrite Hd, H1, H2.
    unfold isNot. replace (Ascii.eqb d c) with false; [split; reflexivity|].
    symmetry. apply Ascii.eqb_neq. congruence.
Qed.

Lemma ReplaceAll_drop P c s :
  allBytes P s = true ->
  allBytes P (ReplaceAll s (String c "") "") = true
  /\ allBytes (isNot c) (ReplaceAll s (String c "") "") = true.
Proof.
  intros Hs. unfold ReplaceAll, Replace. cbn [String.eqb orb Z.eqb].
  apply replaceFrom_drop; [lia | exact Hs].
Qed.

Lemma lowerByte_idem c : lowerByte (lowerByte c) = lowerByte c.
Proof. destruct c as [[] [] [] [] [] [] [] []]; vm_compute; reflexivity. Qed.

Lemma allBytes_ToLower s : allBytes isLowered (ToLower s) = true.
Proof.
  unfold ToLower. rewrite allBytes_mapBytes. induction s as [|c s IH]; cbn; [reflexivity|].
  rewrite IH. unfold isLowered. rewrite lowerByte_idem, Ascii.eqb_refl. reflexivity.
Qed.

Lemma ToLower_fixed s : allBytes isLowered s = true -> ToLower s = s.
Proof.
  induction s as [|c s IH]; cbn; [reflexivity|].
  rewrite andb_true_iff. intros [Hc Hs]. unfold ToLower in *. cbn. rewrite (IH Hs).
  unfold isLowered in Hc. apply Ascii.eqb_eq in Hc. rewrite Hc. reflexivity.
Qed.

Lemma ParseInt32_range s v : ParseInt32 s = Ok v -> int32 v.
Proof.
  unfold ParseInt32, int32.
  destruct (match s with
            | String "+" s' => (false, s')
            | String "-" s' => (true, s')
            | _ => (false, s)
            end) as [neg body].
  destruct body as [|b body]; [discriminate|].
  destruct (digitsValue 0 (String b body)) as [d|]; [|discriminate].
  destruct ((- 2 ^ 31 <=? (if neg then - d else d)) && ((if neg then - d else d) <=? 2 ^ 31 - 1)) eqn:E;
    [|discriminate].
  intros H. inversion H; subst v. apply andb_true_iff in E as [E1 E2].
  apply Z.leb_le in E1, E2. lia.
Qed.

Lemma ParseInt32_no_panic s p : ParseInt32 s <> Panic p.
Proof.
  unfold ParseInt32.
  destruct (match s with
            | String "+" s' => (false, s')
            | String "-" s' => (true, s')
            | _ => (false, s)
            end) as [neg body].
  destruct body as [|b body]; [discriminate|].
  destruct (digitsValue 0 (String b body)) as [d|]; [|discriminate].
  destruct ((- 2 ^ 31 <=? (if neg then - d else d)) && ((if neg then - d else d) <=? 2 ^ 31 - 1));
    discriminate.
Qed.

Lemma strAt_in_range (l : list string) i : (i < length l)%nat -> exists x, strAt l i = Ok x.
Proof.
  intros H. unfold strAt. destruct (l !! i) eqn:E; [eauto|].
  apply lookup_ge_None in E. lia.
Qed.

Lemma xlLoop_no_panic n : forall ind r c ret p,
  (ind + n <= length r)%nat -> (ind + n <= length c)%nat ->
  xlLoop n ind r c ret <> Panic p.
Proof.
  induction n as [|n IH]; intros ind r c ret p Hr Hc; cbn [xlLoop]; [discriminate|].
  destruct (strAt_in_range r ind) as [rs ->]; [lia|].
  destruct (strAt_in_range c ind) as [cs Hcs]; [lia|].
  cbn [mbind result_bind].
  destruct (ParseInt32 rs) as [rx|e|q] eqn:Er; [|discriminate|exfalso; eapply ParseInt32_no_panic; eauto].
  rewrite Hcs. cbn [mbind result_bind].
  destruct (ParseInt32 cs) as [cx|e|q] eqn:Ec; [|discriminate|exfalso; eapply ParseInt32_no_panic; eauto].
  apply IH; lia.
Qed.

(** The spreadsheet area that the loop of [flags] leaves when it ends
    without an error. *)
Lemma xlLoop_area r c ret ret' :
  xlArea ret = [0; 0; 0; 0] ->
  xlLoop 2 0 r c ret = Ok ret' -> err ret' = None ->
  exists rs0 rs1 cs0 cs1 r0 r1 c0 c1,
    r !! 0%nat = Some rs0 /\ r !! 1%nat = Some rs1
    /\ c !! 0%nat = Some cs0 /\ c !! 1%nat = Some cs1
    /\ ParseInt32 rs0 = Ok r0 /\ ParseInt32 rs1 = Ok r1
    /\ ParseInt32 cs0 = Ok c0 /\ ParseInt32 cs1 = Ok c1
    /\ xlArea ret' = [r0; r1; c0; c1].
Proof.
  intros Hx H He. cbn [xlLoop] in H.
  destruct (strAt r 0) as [rs0| |] eqn:R0; cbn [mbind result_bind] in H; try discriminate.
  destruct (ParseInt32 rs0) as [r0|e|p] eqn:P0; try discriminate.
  2:{ inversion H; subst ret'. cbn in He. discriminate. }
  destruct (strAt c 0) as [cs0| |] eqn:C0; cbn [mbind result_bind] in H; try discriminate.
  destruct (ParseInt32 cs0) as [c0|e|p] eqn:Q0; try discriminate.
  2:{ inversion H; subst ret'. cbn in He. discriminate. }
  destruct (strAt r 1) as [rs1| |] eqn:R1; cbn [mbind result_bind] in H; try discriminate.
  destruct (ParseInt32 rs1) as [r1|e|p] eqn:P1; try discriminate.
  2:{ inversion H; subst ret'. cbn in He. discriminate. }
  destruct (strAt c 1) as [cs1| |] eqn:C1; cbn [mbind result_bind] in H; try discriminate.
  destruct (ParseInt32 cs1) as [c1|e|p] eqn:Q1; try discriminate.
  2:{ inversion H; subst ret'. cbn in He. discriminate. }
  inversion H; subst ret'. cbn. rewrite Hx. cbn.
  apply strAt_Ok in R0, R1, C0, C1.
  exists rs0, rs1, cs0, cs1, r0, r1, c0, c1. repeat split; assumption.
Qed.

Lemma firstBadType_None rev fts :
  firstBadType rev fts = None -> forall f, f ∈ fts -> fst (isIn rev f ftypes false) = true.
Proof.
  induction fts as [|g fts IH]; intros H f Hin; [inversion Hin|].
  cbn [firstBadType] in H. destruct (isIn rev g ftypes false) as [ok g'] eqn:E.
  destruct ok; [|discriminate].
  apply elem_of_cons in Hin as [->|Hin]; [rewrite E; reflexivity | apply IH; assumption].
Qed.

Lemma inStack_In x stack : inStack x stack = true <-> x ∈ stack.
Proof.
  induction stack as [|s stack IH]; cbn [inStack].
  - split; [discriminate | intros H; inversion H].
  - rewrite elem_of_cons. destruct (String.eqb_spec s x) as [->|Hne].
    + split; auto.
    + rewrite IH. split; [auto | intros [->|H]; [congruence | exact H]].
Qed.

(** What [flagsTail] has established when it returns without an error. *)
Lemma flagsTail_Ok_inv rev a ret ret' :
  xlArea ret = [] ->
  flagsTail rev a ret = Ok ret' -> err ret' = None ->
  (exists q, byteAt (quoteOpt a) 0 = Ok q /\ quote ret' = byteval q)
  /\ headers ret' = (if String.eqb (headerOpt a) "" then headers ret
                     else Split (ReplaceAll (ReplaceAll (headerOpt a) " " "") "'" "") ",")
  /\ fieldTypes ret' = (if String.eqb (fieldOpt a) "" then fieldTypes ret
                        else Split (ReplaceAll (ToLower (ReplaceAll (fieldOpt a) " " "")) "'" "") ",")
  /\ (String.eqb (fieldOpt a) "" = false -> firstBadType rev (fieldTypes ret') = None)
  /\ (length (headers ret') = length (fieldTypes ret')
      \/ headers ret' = [] \/ fieldTypes ret' = [])
  /\ 0 <= skipOpt a
  /\ exists rs0 rs1 cs0 cs1 r0 r1 c0 c1,
       Split (xlRows a) ":" !! 0%nat = Some rs0 /\ Split (xlRows a) ":" !! 1%nat = Some rs1
       /\ Split (xlCols a) ":" !! 0%nat = Some cs0 /\ Split (xlCols a) ":" !! 1%nat = Some cs1
       /\ ParseInt32 rs0 = Ok r0 /\ ParseInt32 rs1 = Ok r1
       /\ ParseInt32 cs0 = Ok c0 /\ ParseInt32 cs1 = Ok c1
       /\ xlArea ret' = [r0; r1; c0; c1].
Proof.
  intros Hx. unfold flagsTail.
  destruct (byteAt (quoteOpt a) 0) as [q| |] eqn:Hq; cbn [mbind result_bind]; try discriminate.
  set (ret1 := setQuote (byteval q) _).
  set (ret2 := if negb (String.eqb (headerOpt a) "") then _ else ret1).
  set (ret3 := if negb (String.eqb (fieldOpt a) "") then _ else ret2).
  destruct (if negb (String.eqb (fieldOpt a) "") then firstBadType rev (fieldTypes ret3) else None)
    as [f|] eqn:Hbad.
  { intros H He. inversion H; subst ret'. cbn in He. discriminate. }
  destruct (negb (length (headers ret3) =? length (fieldTypes ret3))%nat
            && (0 <? length (headers ret3))%nat && (0 <? length (fieldTypes ret3))%nat) eqn:Hlen.
  { intros H He. inversion H; subst ret'. cbn in He. discriminate. }
  destruct (skipOpt a <? 0) eqn:Hskip.
  { intros H He. inversion H; subst ret'. cbn in He. discriminate. }
  destruct (negb (Contains (xlRows a) ":") || negb (Contains (xlCols a) ":")) eqn:Hc.
  { intros H He. inversion H; subst ret'. cbn in He. discriminate. }
  intros H He.
  destruct (xlLoop_keeps _ _ _ _ _ _ H) as (_ & _ & _ & Hh & Hf & Hqt).
  cbn in Hh, Hf, Hqt.
  assert (Hh3 : headers ret3 = (if String.eqb (headerOpt a) "" then headers ret
                     else Split (ReplaceAll (ReplaceAll (headerOpt a) " " "") "'" "") ",")).
  { subst ret3 ret2 ret1. destruct (String.eqb (headerOpt a) ""), (String.eqb (fieldOpt a) ""),
      (1 <? len (quoteOpt a)); reflexivity. }
  assert (Hf3 : fieldTypes ret3 = (if String.eqb (fieldOpt a) "" then fieldTypes ret
                        else Split (ReplaceAll (ToLower (ReplaceAll (fieldOpt a) " " "")) "'" "") ",")).
  { subst ret3 ret2 ret1. destruct (String.eqb (headerOpt a) ""), (String.eqb (fieldOpt a) ""),
      (1 <? len (quoteOpt a)); reflexivity. }
  assert (Hq3 : quote ret3 = byteval q).
  { subst ret3 ret2 ret1. destruct (String.eqb (headerOpt a) ""), (String.eqb (fieldOpt a) ""),
      (1 <? len (quoteOpt a)); reflexivity. }
  split; [exists q; split; [reflexivity | congruence]|].
  split; [congruence|]. split; [congruence|].
  split.
  { intros Hfo. rewrite Hfo in Hbad. cbn [negb] in Hbad. rewrite Hf. exact Hbad. }
  split.
  { rewrite Hh, Hf. destruct (length (headers ret3) =? length (fieldTypes ret3))%nat eqn:E.
    - left. apply Nat.eqb_eq. exact E.
    - cbn [negb andb] in Hlen. right.
      destruct (headers ret3); [left; reflexivity|].
      destruct (fieldTypes ret3); [right; reflexivity|]. cbn in Hlen. discriminate. }
  split; [apply Z.ltb_ge; exact Hskip|].
  apply xlLoop_area in H; [exact H | reflexivity | exact He].
Qed.

Lemma flags_Ok_inv rev a fr :
  flags rev a = Ok fr -> err fr = None ->
  inStack (ToLower (sType a)) types = true
  /\ inStack (ToLower (camelOpt a)) ctypes = true
  /\ (rev = R2 -> inStack (ToLower (ignoreOpt a)) ctypes = true)
  /\ exists ret, flagsTail rev a ret = Ok fr
       /\ headers ret = [] /\ fieldTypes ret = [] /\ xlArea ret = []
       /\ sTypeOut ret = ToLower (sType a)
       /\ camel ret = String.eqb (ToLower (camelOpt a)) "y".
Proof.
  unfold flags. rewrite !isIn_lower.
  destruct (inStack (ToLower (sType a)) types); cbn [negb];
    [|intros H He; inversion H; subst; discriminate].
  destruct (inStack (ToLower (camelOpt a)) ctypes); cbn [negb];
    [|intros H He; inversion H; subst; discriminate].
  destruct rev.
  - intros H He. repeat split; [discriminate|].
    eexists. split; [exact H|]. repeat split.
  - destruct (inStack (ToLower (ignoreOpt a)) ctypes); cbn [negb];
      [|intros H He; inversion H; subst; discriminate].
    intros H He. repeat split.
    eexists. split; [exact H|]. repeat split.
Qed.

Lemma lowered_types_ok rev f :
  allBytes isLowered f = true ->
  fst (isIn rev f ftypes false) = true -> f ∈ ftypes.
Proof.
  intros Hl. destruct rev; cbn [isIn fst].
  - apply inStack_In.
  - rewrite (ToLower_fixed _ Hl). apply inStack_In.
Qed.

Lemma fieldOpt_pieces_lowered s f :
  f ∈ Split (ReplaceAll (ToLower (ReplaceAll s " " "")) "'" "") "," ->
  allBytes isLowered f = true.
Proof.
  intros Hin.
  destruct (ReplaceAll_drop isLowered "'"%char (ToLower (ReplaceAll s " " ""))
              (allBytes_ToLower _)) as [Hl _].
  apply (Split_single_pieces isLowered ","%char _ f Hl Hin).
Qed.

(** What [flags] has checked when it returns without an error: the source
    type is the lower-cased [-type] and one of [types]; [-c] is Y or N and
    [camel] tells which; the quote is the first byte of [-q]; every field
    type is one of [ftypes]; headers and field types have the same length
    when both are given; [-skip] is not negative; and [xlArea] holds four
    numbers of 32 bits. *)
Theorem flags_accepts_only_valid rev a fr :
  flags rev a = Ok fr -> err fr = None ->
  sTypeOut fr = ToLower (sType a) /\ sTypeOut fr ∈ types
  /\ ToLower (camelOpt a) ∈ ctypes
  /\ camel fr = String.eqb (ToLower (camelOpt a)) "y"
  /\ (exists q, byteAt (quoteOpt a) 0 = Ok q /\ quote fr = byteval q)
  /\ (forall f, f ∈ fieldTypes fr -> f ∈ ftypes)
  /\ (length (headers fr) = length (fieldTypes fr)
      \/ headers fr = [] \/ fieldTypes fr = [])
  /\ 0 <= skipOpt a
  /\ length (xlArea fr) = 4%nat
  /\ (forall x, x ∈ xlArea fr -> int32 x).
Proof.
  intros Hf He.
  destruct (flags_Ok_inv _ _ _ Hf He) as (Ht & Hc & _ & ret & Htail & Hh0 & Hf0 & Hx0 & Hs0 & Hc0).
  destruct (flagsTail_keeps _ _ _ _ Htail) as (_ & Hcam & Hst).
  destruct (flagsTail_Ok_inv _ _ _ _ Hx0 Htail He)
    as (Hq & Hh & Hft & Hbad & Hlen & Hskip & rs0 & rs1 & cs0 & cs1 & r0 & r1 & c0 & c1
        & _ & _ & _ & _ & P0 & P1 & Q0 & Q1 & Hx).
  split; [congruence|]. split; [rewrite Hst, Hs0; apply inStack_In; exact Ht|].
  split; [apply inStack_In; exact Hc|]. split; [congruence|].
  split; [exact Hq|]. split.
  { intros f Hin. destruct (String.eqb (fieldOpt a) "") eqn:Hfo.
    - rewrite Hft, Hf0 in Hin. inversion Hin.
    - apply (lowered_types_ok rev).
      + rewrite Hft in Hin. eapply fieldOpt_pieces_lowered; exact Hin.
      + apply (firstBadType_None rev _ (Hbad eq_refl)). exact Hin. }
  split; [exact Hlen|]. split; [exact Hskip|].
  rewrite Hx. split; [reflexivity|].
  intros x Hin. apply ParseInt32_range in P0, P1, Q0, Q1.
  repeat (apply elem_of_cons in Hin as [->|Hin]; [assumption|]). inversion Hin.
Qed.

Lemma flags_accepts_only_valid_witness :
  exists fr,
    flags R2 (demoArgs "XLSX" "/data/loans.xlsx" "Y" "a, b" "'S,i'" "|" "n") = Ok fr
    /\ sTypeOut fr = "xlsx" /\ camel fr = true /\ quote fr = 124
    /\ fieldTypes fr = ["s"; "i"] /\ length (xlArea fr) = 4%nat.
Proof.
  destruct (flags R2 (demoArgs "XLSX" "/data/loans.xlsx" "Y" "a, b" "'S,i'" "|" "n"))
    as [fr|e|p] eqn:Hf; try (vm_compute in Hf; discriminate).
  assert (He : err fr = None /\ quote fr = 124 /\ fieldTypes fr = ["s"; "i"]).
  { vm_compute in Hf. inversion Hf. repeat split. }
  destruct He as (He & Hq & Hft).
  destruct (flags_accepts_only_valid R2 _ fr Hf He)
    as (Hs & _ & _ & Hc & _ & _ & _ & _ & Hx & _).
  exists fr. split; [reflexivity|]. repeat split; try assumption.
Defined.

Lemma byteAt_first s p : byteAt s 0 = Panic p -> s = "" /\ p = "index out of range".
Proof.
  destruct s as [|c s]; unfold byteAt, len; cbn [String.length].
  - cbn. intros H. inversion H. auto.
  - replace (0 <? Z.of_nat (S (String.length s))) with true by (symmetry; apply Z.ltb_lt; lia).
    cbn. discriminate.
Qed.

Lemma flagsTail_panic rev a ret p :
  flagsTail rev a ret = Panic p -> quoteOpt a = "" /\ p = "index out of range".
Proof.
  unfold flagsTail.
  destruct (byteAt (quoteOpt a) 0) as [q|e|p'] eqn:Hq; cbn [mbind result_bind].
  - destruct (if negb (String.eqb (fieldOpt a) "") then _ else None); [discriminate|].
    destruct (_ && _ && _); [discriminate|].
    destruct (skipOpt a <? 0); [discriminate|].
    destruct (negb (Contains (xlRows a) ":") || negb (Contains (xlCols a) ":")) eqn:Hc;
      [discriminate|].
    apply orb_false_iff in Hc as [Hr Hcl]. apply negb_false_iff in Hr, Hcl.
    intros H. exfalso. revert H. apply xlLoop_no_panic.
    + apply (Split_single_contains ":"%char). exact Hr.
    + apply (Split_single_contains ":"%char). exact Hcl.
  - discriminate.
  - intros H. inversion H; subst p'. apply byteAt_first. exact Hq.
Qed.

Lemma flags_panic rev a p :
  flags rev a = Panic p -> quoteOpt a = "" /\ p = "index out of range".
Proof.
  unfold flags. rewrite !isIn_lower.
  destruct (inStack (ToLower (sType a)) types); cbn [negb]; [|discriminate].
  destruct (inStack (ToLower (camelOpt a)) ctypes); cbn [negb]; [|discriminate].
  destruct rev.
  - apply flagsTail_panic.
  - destruct (inStack (ToLower (ignoreOpt a)) ctypes); cbn [negb]; [|discriminate].
    apply flagsTail_panic.
Qed.

(** [flags] panics only where it takes the first byte of [-q]: [-q] is empty, the message
    is the one of an index out of range, and the checks of [-type] and [-c]
    have passed. *)
Theorem flags_panics_only_on_empty_quote rev a p :
  flags rev a = Panic p ->
  quoteOpt a = "" /\ p = "index out of range"
  /\ inStack (ToLower (sType a)) types = true
  /\ inStack (ToLower (camelOpt a)) ctypes = true.
Proof.
  intros H. destruct (flags_panic _ _ _ H) as [Hq Hp].
  split; [exact Hq|]. split; [exact Hp|].
  revert H. unfold flags. rewrite !isIn_lower.
  destruct (inStack (ToLower (sType a)) types); cbn [negb]; [|discriminate].
  destruct (inStack (ToLower (camelOpt a)) ctypes); cbn [negb]; [|discriminate].
  auto.
Qed.

Lemma flags_panics_only_on_empty_quote_witness :
  flags R1 emptyQuoteArgs = Panic "index out of range" /\ quoteOpt emptyQuoteArgs = "".
Proof.
  split; [reflexivity|].
  apply (flags_panics_only_on_empty_quote R1 emptyQuoteArgs "index out of range").
  reflexivity.
Defined.

Lemma firstBadType_revs fts :
  (forall f, f ∈ fts -> allBytes isLowered f = true) ->
  firstBadType R2 fts = firstBadType R1 fts.
Proof.
  induction fts as [|f fts IH]; intros H; [reflexivity|].
  cbn [firstBadType isIn]. rewrite (ToLower_fixed f) by (apply H; left).
  rewrite IH; [reflexivity|]. intros g Hg. apply H. right. exact Hg.
Qed.

Lemma flagsTail_revs a ret : flagsTail R2 a ret = flagsTail R1 a ret.
Proof.
  unfold flagsTail.
  destruct (byteAt (quoteOpt a) 0) as [q| |]; cbn [mbind result_bind]; try reflexivity.
  destruct (String.eqb (fieldOpt a) "") eqn:Hfo; cbn [negb]; [reflexivity|].
  destruct (String.eqb (headerOpt a) ""); cbn [negb fieldTypes setFieldTypes];
    rewrite firstBadType_revs by (intros f Hf; eapply fieldOpt_pieces_lowered; exact Hf);
    reflexivity.
Qed.

(** With [-i n] the [flags] of the second revision returns what the [flags]
    of the first returns, although [isIn] compares differently in the
    two. *)
Theorem flags_revisions_agree a :
  ToLower (ignoreOpt a) = "n" -> flags R2 a = flags R1 a.
Proof.
  intros Hi. unfold flags. rewrite !isIn_lower, Hi.
  destruct (inStack (ToLower (sType a)) types); cbn [negb]; [|reflexivity].
  destruct (inStack (ToLower (camelOpt a)) ctypes); cbn [negb]; [|reflexivity].
  cbn [inStack String.eqb Ascii.eqb Bool.eqb negb]. apply flagsTail_revs.
Qed.

Lemma flags_revisions_agree_witness :
  flags R2 (demoArgs "csv" "/data/loans.csv" "y" "a,b" "i,f" dquote "N")
  = flags R1 (demoArgs "csv" "/data/loans.csv" "y" "a,b" "i,f" dquote "N").
Proof.
  apply (flags_revisions_agree (demoArgs "csv" "/data/loans.csv" "y" "a,b" "i,f" dquote "N")).
  reflexivity.
Defined.

Lemma allBytes_and P Q s :
  allBytes P s = true -> allBytes Q s = true -> allBytes (fun c => P c && Q c) s = true.
Proof.
  induction s as [|c s IH]; cbn; [reflexivity|].
  rewrite !andb_true_iff. intros [Hp Hs] [Hq Hs']. auto.
Qed.

(** The header names that [flags] returns hold no space, no single quote
    and no comma. *)
Theorem header_names_are_stripped rev a fr h :
  flags rev a = Ok fr -> err fr = None -> h ∈ headers fr ->
  allBytes (isNot " ") h = true /\ allBytes (isNot "'") h = true
  /\ allBytes (isNot ",") h = true.
Proof.
  intros Hf He Hin.
  destruct (flags_Ok_inv _ _ _ Hf He) as (_ & _ & _ & ret & Htail & Hh0 & _ & Hx0 & _).
  destruct (flagsTail_Ok_inv _ _ _ _ Hx0 Htail He) as (_ & Hh & _).
  rewrite Hh in Hin. destruct (String.eqb (headerOpt a) "").
  { rewrite Hh0 in Hin. inversion Hin. }
  destruct (ReplaceAll_drop (fun _ => true) " "%char (headerOpt a)) as [_ H1].
  { clear. induction (headerOpt a); cbn; auto. }
  destruct (ReplaceAll_drop (isNot " ") "'"%char _ H1) as [H2 H3].
  pose proof (allBytes_and _ _ _ H2 H3) as H23.
  destruct (Split_single_pieces _ ","%char _ h H23 Hin) as [H4 H5].
  repeat split.
  - eapply allBytes_impl; [|exact H4]. cbn. intros c Hc. apply andb_true_iff in Hc. tauto.
  - eapply allBytes_impl; [|exact H4]. cbn. intros c Hc. apply andb_true_iff in Hc. tauto.
  - exact H5.
Qed.

Lemma header_names_are_stripped_witness :
  exists fr,
    flags R1 (demoArgs "csv" "/data/loans.csv" "N" "'first name, msa'" "" dquote "N") = Ok fr
    /\ headers fr = ["firstname"; "msa"]
    /\ allBytes (isNot " ") "firstname" = true.
Proof.
  destruct (flags R1 (demoArgs "csv" "/data/loans.csv" "N" "'first name, msa'" "" dquote "N"))
    as [fr|e|p] eqn:Hf; try (vm_compute in Hf; discriminate).
  assert (He : err fr = None /\ headers fr = ["firstname"; "msa"]).
  { vm_compute in Hf. inversion Hf. split; reflexivity. }
  destruct He as [He Hh].
  exists fr. split; [reflexivity|]. split; [exact Hh|].
  apply (header_names_are_stripped R1 _ fr "firstname" Hf He).
  rewrite Hh. left.
Defined.

(** [xlArea] is filled in the order first row, last row, first column,
    last column: the two parts of [-rows] and then the two parts of
    [-cols], each read as a base-10 number of 32 bits. *)
Theorem flags_area_order rev a fr :
  flags rev a = Ok fr -> err fr = None ->
  exists rs0 rs1 cs0 cs1 r0 r1 c0 c1,
    Split (xlRows a) ":" !! 0%nat = Some rs0 /\ Split (xlRows a) ":" !! 1%nat = Some rs1
    /\ Split (xlCols a) ":" !! 0%nat = Some cs0 /\ Split (xlCols a) ":" !! 1%nat = Some cs1
    /\ ParseInt32 rs0 = Ok r0 /\ ParseInt32 rs1 = Ok r1
    /\ ParseInt32 cs0 = Ok c0 /\ ParseInt32 cs1 = Ok c1
    /\ xlArea fr = [r0; r1; c0; c1].
Proof.
  intros Hf He.
  destruct (flags_Ok_inv _ _ _ Hf He) as (_ & _ & _ & ret & Htail & _ & _ & Hx0 & _).
  destruct (flagsTail_Ok_inv _ _ _ _ Hx0 Htail He) as (_ & _ & _ & _ & _ & _ & H).
  exact H.
Qed.

Lemma flags_area_order_witness :
  exists fr, flags R2 sheetArgs = Ok fr /\ xlArea fr = [4; 0; 2; 7].
Proof.
  destruct (flags R2 sheetArgs) as [fr|e|p] eqn:Hf; try (vm_compute in Hf; discriminate).
  assert (He : err fr = None).
  { vm_compute in Hf. inversion Hf. reflexivity. }
  destruct (flags_area_order R2 sheetArgs fr Hf He)
    as (rs0 & rs1 & cs0 & cs1 & r0 & r1 & c0 & c1 & H0 & H1 & H2 & H3 & P0 & P1 & P2 & P3 & Hx).
  vm_compute in H0, H1, H2, H3.
  inversion H0; subst rs0. inversion H1; subst rs1.
  inversion H2; subst cs0. inversion H3; subst cs1.
  vm_compute in P0, P1, P2, P3.
  inversion P0; subst r0. inversion P1; subst r1. inversion P2; subst c0. inversion P3; subst c1.
  exists fr. split; [reflexivity | exact Hx].
Defined.

Lemma camelLoop_cons_other n : forall c s, (String.length s <= n)%nat ->
  isSep c = false ->
  camelLoop (String c s) = (r ← camelLoop s; Ok (String c r)).
Proof.
  induction n as [|n IH]; intros c s Hn Hc.
  - destruct s; [|simpl in Hn; lia].
    rewrite (camelLoop_eq (String c "")), (camelLoop_eq ""), camelStep_cons_other by assumption.
    reflexivity.
  - rewrite (camelLoop_eq (String c s)), (camelLoop_eq s), camelStep_cons_other by assumption.
    destruct (camelStep s) as [[t|]|e|p] eqn:Hs; try reflexivity.
    apply IH; [|assumption]. apply camelStep_shrinks in Hs. lia.
Qed.

Lemma isSep_upper_fixed d : isSep d = true -> upperByte d = d.
Proof. destruct d as [[] [] [] [] [] [] [] []]; vm_compute; congruence. Qed.

Lemma camelLoop_scan n : forall s, (String.length s <= n)%nat ->
  camelLoop s = camelScan false s.
Proof.
  induction n as [|n IH]; intros s Hn.
  - destruct s; [|simpl in Hn; lia]. rewrite camelLoop_eq. reflexivity.
  - destruct s as [|c s]; [rewrite camelLoop_eq; reflexivity|].
    cbn [String.length] in Hn. cbn [camelScan].
    destruct (isSep c) eqn:Hc.
    + destruct s as [|d s].
      * rewrite camelLoop_eq, camelStep_sep_last by assumption. reflexivity.
      * rewrite camelLoop_eq, camelStep_sep_next by assumption.
        cbn [String.length] in Hn. rewrite IH by (cbn [String.length]; lia).
        cbn [camelScan]. rewrite isSep_upperByte.
        destruct (isSep d) eqn:Hd; reflexivity.
    + rewrite (camelLoop_cons_other (String.length s)) by (auto; lia).
      rewrite IH by lia. reflexivity.
Qed.

(** On a name of ASCII bytes, where [ToLower] and [ToUpper] are the
    library's, the loop of [toCamel], which replaces one separator at a
    time, does the same as one pass from left to right over the
    lower-cased name that drops every separator and upper-cases the byte
    that follows a run of them; it panics exactly when the pass ends on a
    separator. *)
Theorem toCamel_is_one_pass rev name :
  isASCII name = true ->
  toCamel rev name = camelScan false (ToLower (ReplaceAll name " " "_")).
Proof.
  intros _. rewrite toCamel_loop, ReplaceAll_space. apply (camelLoop_scan _ _ (Nat.le_refl _)).
Qed.

Lemma toCamel_is_one_pass_witness :
  toCamel R1 "Loan_ID. first name" = Ok "loanIdFirstName"
  /\ camelScan false "loan_id._first_name" = Ok "loanIdFirstName"
  /\ toCamel R2 "amount_" = Panic "slice bounds out of range".
Proof.
  split; [|split; [reflexivity|]].
  - rewrite (toCamel_is_one_pass R1 "Loan_ID. first name" eq_refl). reflexivity.
  - rewrite (toCamel_is_one_pass R2 "amount_" eq_refl). reflexivity.
Defined.

(** The statement that the second revision adds to [toCamel] (replacing
    [snake[0:0]]) changes nothing. *)
Theorem toCamel_revisions_agree name : toCamel R2 name = toCamel R1 name.
Proof. rewrite !toCamel_loop. reflexivity. Qed.

Lemma camelScan_length s : forall up r,
  camelScan up s = Ok r ->
  (String.length r + countBytes isSep s = String.length s)%nat.
Proof.
  induction s as [|c s IH]; intros up r H; cbn [camelScan] in H.
  - destruct up; [discriminate|]. inversion H. reflexivity.
  - cbn [countBytes String.length]. destruct (isSep c).
    + apply IH in H. lia.
    + destruct (camelScan false s) as [r'| |] eqn:Hs; cbn [mbind result_bind] in H; try discriminate.
      inversion H; subst r. apply IH in Hs. cbn [String.length]. lia.
Qed.

Lemma camelScan_bytes P s : forall up r,
  (forall c, P c = true -> P (upperByte c) = true) ->
  allBytes P s = true -> camelScan up s = Ok r -> allBytes P r = true.
Proof.
  induction s as [|c s IH]; intros up r HP Hs H; cbn [camelScan] in H.
  - destruct up; [discriminate|]. inversion H. reflexivity.
  - cbn [allBytes] in Hs. apply andb_true_iff in Hs as [Hc Hs]. destruct (isSep c).
    + eapply IH; eauto.
    + destruct (camelScan false s) as [r'| |] eqn:Hr; cbn [mbind result_bind] in H; try discriminate.
      inversion H; subst r. cbn [allBytes]. rewrite (IH _ _ HP Hs Hr).
      destruct up; [rewrite (HP _ Hc)|rewrite Hc]; reflexivity.
Qed.

Lemma countBytes_mapBytes P f s : countBytes P (mapBytes f s) = countBytes (fun c => P (f c)) s.
Proof. induction s as [|c s IH]; cbn; [reflexivity|]. rewrite IH. reflexivity. Qed.

Lemma countBytes_ext P Q s : (forall c, P c = Q c) -> countBytes P s = countBytes Q s.
Proof. intros H. induction s as [|c s IH]; cbn; [reflexivity|]. rewrite H, IH. reflexivity. Qed.

Lemma space_after_prelude c : isNot " " (lowerByte (spaceToUnderscore c)) = true.
Proof. destruct c as [[] [] [] [] [] [] [] []]; vm_compute; reflexivity. Qed.

Lemma notSpace_upper c : isNot " " c = true -> isNot " " (upperByte c) = true.
Proof. destruct c as [[] [] [] [] [] [] [] []]; vm_compute; congruence. Qed.

Lemma isASCII_prelude name :
  isASCII name = true -> isASCII (ToLower (mapBytes spaceToUnderscore name)) = true.
Proof.
  unfold isASCII, ToLower. rewrite !allBytes_mapBytes. apply allBytes_impl.
  intros c. destruct c as [[] [] [] [] [] [] [] []]; vm_compute; congruence.
Qed.

Lemma isASCII_upper c : (byteval c <? 128) = true -> (byteval (upperByte c) <? 128) = true.
Proof. destruct c as [[] [] [] [] [] [] [] []]; vm_compute; congruence. Qed.

(** When [toCamel] returns on a name of ASCII bytes, the result is the
    name shortened by its spaces, dots and underscores; it holds no space
    and is again of ASCII bytes. *)
Theorem toCamel_length rev name r :
  isASCII name = true ->
  toCamel rev name = Ok r ->
  (String.length r + countBytes (inSet " ._") name = String.length name)%nat
  /\ allBytes (isNot " ") r = true
  /\ isASCII r = true.
Proof.
  intros Ha.
  rewrite toCamel_loop, (camelLoop_scan _ _ (Nat.le_refl _)). intros H.
  split; [|split].
  3:{ eapply (camelScan_bytes (fun c => byteval c <? 128)); [apply isASCII_upper| |exact H].
      apply isASCII_prelude. exact Ha. }
  - apply camelScan_length in H. unfold ToLower in H.
    rewrite !countBytes_mapBytes, !mapBytes_length in H.
    rewrite (countBytes_ext _ (inSet " ._")) in H; [exact H|].
    intros c. apply sep_after_prelude.
  - eapply (camelScan_bytes (isNot " ")); [apply notSpace_upper| |exact H].
    unfold ToLower. rewrite !allBytes_mapBytes.
    clear. induction name as [|c s IH]; cbn [allBytes]; [reflexivity|].
    rewrite space_after_prelude, IH. reflexivity.
Qed.

Lemma toCamel_length_witness :
  toCamel R2 "Loan_ID. first name" = Ok "loanIdFirstName"
  /\ (String.length "loanIdFirstName" + countBytes (inSet " ._") "Loan_ID. first name"
      = String.length "Loan_ID. first name")%nat
  /\ allBytes (isNot " ") "loanIdFirstName" = true
  /\ isASCII "loanIdFirstName" = true.
Proof.
  split; [reflexivity|].
  apply (toCamel_length R2 "Loan_ID. first name" "loanIdFirstName"); reflexivity.
Defined.

Lemma camelScan_plain s : allBytes (fun c => negb (isSep c)) s = true -> camelScan false s = Ok s.
Proof.
  induction s as [|c s IH]; cbn [allBytes camelScan]; [reflexivity|].
  rewrite andb_true_iff. intros [Hc Hs]. apply negb_true_iff in Hc. rewrite Hc, (IH Hs).
  reflexivity.
Qed.

(** On a name of ASCII bytes without space, dot and underscore [toCamel]
    only lower-cases. *)
Theorem toCamel_plain_name rev name :
  isASCII name = true ->
  allBytes (fun c => negb (inSet " ._" c)) name = true ->
  toCamel rev name = Ok (ToLower name).
Proof.
  intros _ H. rewrite toCamel_loop, (camelLoop_scan _ _ (Nat.le_refl _)).
  assert (E : mapBytes spaceToUnderscore name = name).
  { induction name as [|c s IH]; [reflexivity|]. cbn [allBytes] in H.
    apply andb_true_iff in H as [Hc Hs]. cbn [mapBytes]. rewrite (IH Hs). f_equal.
    unfold spaceToUnderscore. destruct (Ascii.eqb_spec c " "%char) as [->|]; [discriminate|reflexivity]. }
  rewrite E. apply camelScan_plain. unfold ToLower. rewrite allBytes_mapBytes.
  eapply allBytes_impl; [|exact H]. intros c Hc. cbn beta in *.
  revert Hc. destruct c as [[] [] [] [] [] [] [] []]; vm_compute; congruence.
Qed.

Lemma toCamel_plain_name_witness :
  toCamel R1 "firstName" = Ok "firstname".
Proof. apply (toCamel_plain_name R1 "firstName"); reflexivity. Defined.

(** ** The header loop *)

Lemma rangeMap_Ok_back {A B} (body : nat -> A -> result B) (m : gmap nat A) m' i b :
  rangeMap body m = Ok m' -> m' !! i = Some b ->
  exists a, m !! i = Some a /\ body i a = Ok b.
Proof.
  intros H Hb. destruct (m !! i) as [a|] eqn:Ha.
  - destruct (rangeMap_Ok _ _ _ _ _ H Ha) as (b' & Hbody & Hb'). exists a. split; [reflexivity|].
    congruence.
  - rewrite (rangeMap_Ok_None _ _ _ _ H Ha) in Hb. discriminate.
Qed.

Lemma processHeader_fields rev camel td td' :
  processHeader rev camel td = Ok td' ->
  rangeMap (fun (_ : nat) fd => headerBody rev camel fd) (FieldDefs td) = Ok (FieldDefs td')
  /\ Engine td' = Engine td.
Proof.
  unfold processHeader.
  destruct (rangeMap _ (FieldDefs td)) as [fds|e|p]; cbn [mbind result_bind]; try discriminate.
  intros H. inversion H. split; reflexivity.
Qed.

Lemma ToLower_no_capital s : allBytes (fun c => negb (isCapital c)) (ToLower s) = true.
Proof.
  unfold ToLower. rewrite allBytes_mapBytes. induction s as [|c s IH]; cbn [allBytes]; [reflexivity|].
  rewrite IH, andb_true_r. destruct c as [[] [] [] [] [] [] [] []]; vm_compute; reflexivity.
Qed.

(** In the first revision no name that leaves the header loop holds one of
    the capital letters A to Z, with or without [-c]: [isIn] stores the
    lower-cased name.  Of [strings.ToLower] this uses only that its result
    holds none of these letters. *)
Theorem header_names_lowercased_R1 lower camelOf camel td td' i fd' :
  (forall s, allBytes (fun c => negb (isCapital c)) (lower s) = true) ->
  processHeaderBy lower camelOf R1 camel td = Ok td' ->
  FieldDefs td' !! i = Some fd' ->
  allBytes (fun c => negb (isCapital c)) (Name fd') = true.
Proof.
  intros Hlow H Hi. unfold processHeaderBy in H.
  destruct (rangeMap _ (FieldDefs td)) as [fds|e|p] eqn:Hr;
    cbn [mbind result_bind] in H; try discriminate.
  inversion H; subst td'; clear H. cbn [FieldDefs] in Hi.
  destruct (rangeMap_Ok_back _ _ _ _ _ Hr Hi) as (fd & _ & Hb).
  apply headerBodyBy_Ok_inv in Hb as (name & _ & ->). cbn [renameField Name storedName].
  destruct (inStack (lower name) reserved); rewrite ?allBytes_app, Hlow; reflexivity.
Qed.

Lemma header_names_lowercased_R1_witness :
  exists td' fd',
    processHeader R1 true demoHeader = Ok td'
    /\ FieldDefs td' !! 0%nat = Some fd'
    /\ Name fd' = "loanid"
    /\ allBytes (fun c => negb (isCapital c)) (Name fd') = true.
Proof.
  destruct (processHeader R1 true demoHeader) as [td'|e|p] eqn:H;
    try (vm_compute in H; discriminate).
  destruct (FieldDefs td' !! 0%nat) as [fd'|] eqn:H0.
  2:{ exfalso. assert (Ok td' = processHeader R1 true demoHeader) as H' by (symmetry; exact H).
      vm_compute in H'. inversion H'; subst td'. vm_compute in H0. discriminate. }
  exists td', fd'. split; [reflexivity|]. split; [exact H0|]. split.
  - assert (Ok td' = processHeader R1 true demoHeader) as H' by (symmetry; exact H).
    vm_compute in H'. inversion H'; subst td'. vm_compute in H0. inversion H0. reflexivity.
  - apply (header_names_lowercased_R1 ToLower (toCamel R1) true demoHeader td' 0%nat fd'
             ToLower_no_capital H H0).
Defined.

(** In the second revision, without [-c], the header loop never fails and
    keeps every name as it is read, but for the suffix [1] that a name gets
    exactly when [strings.ToLower] of it is [index].  This holds whatever
    [strings.ToLower] returns. *)
Theorem header_case_kept_R2 lower camelOf td :
  exists td',
    processHeaderBy lower camelOf R2 false td = Ok td'
    /\ forall i fd, FieldDefs td !! i = Some fd ->
         exists fd', FieldDefs td' !! i = Some fd'
           /\ Name fd' = (if String.eqb (lower (Name fd)) "index"
                          then Name fd ++ "1" else Name fd).
Proof.
  unfold processHeaderBy.
  destruct (rangeMap_total (fun (_ : nat) fd => headerBodyBy lower camelOf R2 false fd)
              (FieldDefs td)) as [fds Hr].
  { intros i fd _. unfold headerBodyBy. cbn [mbind result_bind].
    rewrite isInBy_reserved. reflexivity. }
  rewrite Hr. cbn [mbind result_bind]. eexists. split; [reflexivity|]. cbn [FieldDefs].
  intros i fd Hi.
  destruct (rangeMap_Ok _ _ _ _ _ Hr Hi) as (fd' & Hb & Hfd'). exists fd'. split; [exact Hfd'|].
  apply headerBodyBy_Ok_inv in Hb as (name & Hn & ->). inversion Hn; subst name.
  cbn [renameField Name storedName reserved inStack].
  rewrite String.eqb_sym.
  destruct (String.eqb (lower (Name fd)) "index"); reflexivity.
Qed.

(** The header loop changes names only: the engine, and the base type,
    length and missing value of every field, are those of the schema that
    was read. *)
Theorem header_loop_keeps_types rev camel td td' :
  processHeader rev camel td = Ok td' ->
  Engine td' = Engine td
  /\ forall i,
       (fun fd => (Base fd, Length fd, Missing fd)) <$> (FieldDefs td' !! i)
       = (fun fd => (Base fd, Length fd, Missing fd)) <$> (FieldDefs td !! i).
Proof.
  intros H. apply processHeader_fields in H as [H He]. split; [exact He|]. intros i.
  destruct (FieldDefs td !! i) as [fd|] eqn:Hi.
  - destruct (rangeMap_Ok _ _ _ _ _ H Hi) as (fd' & Hb & ->). cbn.
    unfold headerBody in Hb.
    destruct (if camel then toCamel rev (Name fd) else Ok (Name fd)) as [name| |];
      cbn [mbind result_bind] in Hb; try discriminate.
    destruct (isIn rev name reserved (reservedLower rev)) as [found name'].
    inversion Hb. reflexivity.
  - rewrite (rangeMap_Ok_None _ _ _ _ H Hi). reflexivity.
Qed.

Lemma header_loop_keeps_types_witness :
  exists td',
    processHeader R2 true demoHeader = Ok td'
    /\ (fun fd => (Base fd, Length fd, Missing fd)) <$> (FieldDefs td' !! 1%nat)
       = Some (ChUnknown, 0, VNil).
Proof.
  destruct (processHeader R2 true demoHeader) as [td'|e|p] eqn:H;
    try (vm_compute in H; discriminate).
  exists td'. split; [reflexivity|].
  destruct (header_loop_keeps_types R2 true demoHeader td' H) as [_ Hk].
  rewrite Hk. reflexivity.
Defined.

(** The renaming of a reserved name does not look at the other names: a
    header with the columns [index] and [index1] leaves the loop with two
    columns called [index1]. *)
Theorem reserved_rename_can_collide rev camel td td' i j fi fj :
  FieldDefs td !! i = Some fi -> Name fi = "index" ->
  FieldDefs td !! j = Some fj -> Name fj = "index1" ->
  processHeader rev camel td = Ok td' ->
  exists fi' fj',
    FieldDefs td' !! i = Some fi' /\ FieldDefs td' !! j = Some fj'
    /\ Name fi' = "index1" /\ Name fj' = "index1".
Proof.
  intros Hi Hni Hj Hnj H. apply processHeader_fields in H as [H _].
  destruct (rangeMap_Ok _ _ _ _ _ H Hi) as (fi' & Hbi & Hfi').
  destruct (rangeMap_Ok _ _ _ _ _ H Hj) as (fj' & Hbj & Hfj').
  exists fi', fj'. split; [exact Hfi'|]. split; [exact Hfj'|].
  apply headerBody_Ok_inv in Hbi as (ni & Hci & ->).
  apply headerBody_Ok_inv in Hbj as (nj & Hcj & ->).
  rewrite Hni in Hci. rewrite Hnj in Hcj.
  split.
  - destruct rev, camel; vm_compute in Hci; inversion Hci; subst ni; reflexivity.
  - destruct rev, camel; vm_compute in Hcj; inversion Hcj; subst nj; reflexivity.
Qed.

Lemma reserved_rename_can_collide_witness :
  exists td' f0 f1,
    processHeader R2 false collidingHeader = Ok td'
    /\ FieldDefs td' !! 0%nat = Some f0 /\ FieldDefs td' !! 1%nat = Some f1
    /\ Name f0 = "index1" /\ Name f1 = "index1".
Proof.
  destruct (processHeader R2 false collidingHeader) as [td'|e|p] eqn:H;
    try (vm_compute in H; discriminate).
  destruct (reserved_rename_can_collide R2 false collidingHeader td' 0%nat 1%nat
              (unknownField "index") (unknownField "index1")
              eq_refl eq_refl eq_refl eq_refl H) as (f0 & f1 & H0 & H1 & Hn0 & Hn1).
  exists td', f0, f1. auto.
Defined.

(** ** Names supplied by the user *)

Lemma size_same_dom {A B} (m : gmap nat A) (m' : gmap nat B) :
  (forall i, is_Some (m' !! i) <-> is_Some (m !! i)) -> size m' = size m.
Proof.
  intros H. rewrite <- !size_dom. f_equal. apply set_eq. intros i.
  rewrite !elem_of_dom. apply H.
Qed.

Lemma map_seq_size {A} (l : list A) : size (map_seq 0 l : gmap nat A) = length l.
Proof.
  induction l as [|x l IH] using rev_ind; [reflexivity|].
  rewrite map_seq_snoc, length_app. cbn [length].
  rewrite map_size_insert_None; [rewrite IH; lia|].
  apply lookup_map_seq_None. right. lia.
Qed.

Lemma retypeField_name token fd : Name (retypeField token fd) = Name fd.
Proof.
  unfold retypeField.
  destruct (String.eqb token "d"); [reflexivity|].
  destruct (String.eqb token "i"); [reflexivity|].
  destruct (String.eqb token "f"); reflexivity.
Qed.

Lemma Impute_size parses rows tol td :
  size (FieldDefs (Impute parses rows tol td)) = size (FieldDefs td).
Proof.
  apply size_same_dom. intros i. unfold Impute. cbn [FieldDefs].
  rewrite map_lookup_imap. destruct (FieldDefs td !! i); cbn; split; intros [x Hx]; eauto; discriminate.
Qed.

Lemma suppliedTable_Ok hdrs td1 :
  suppliedTable hdrs = Ok td1 ->
  hdrs !! 0%nat = Some (Key td1)
  /\ FieldDefs td1 = map_seq 0 (unknownField <$> hdrs).
Proof.
  unfold suppliedTable. destruct (strAt hdrs 0) as [key| |] eqn:Hk;
    cbn [mbind result_bind]; try discriminate.
  intros H. inversion H. cbn. split; [apply strAt_Ok; exact Hk | reflexivity].
Qed.

Lemma supplied_lookup (hdrs : list string) i :
  (map_seq 0 (unknownField <$> hdrs) : gmap nat FieldDef) !! i = unknownField <$> (hdrs !! i).
Proof. rewrite lookup_map_seq_0, list_lookup_fmap. reflexivity. Qed.

Lemma io_bind_all {A B} (P : event -> bool) (m : io A) (k : A -> io B) :
  forallb P (fst m) = true ->
  (forall a, forallb P (fst (k a)) = true) ->
  forallb P (fst (io_bind m k)) = true.
Proof.
  intros Hm Hk. destruct m as [t [a|e|p]]; cbn [io_bind fst] in *; try exact Hm.
  specialize (Hk a). destruct (k a) as [t' r]. cbn [fst] in *.
  rewrite forallb_app, Hm, Hk. reflexivity.
Qed.

Ltac all_events :=
  repeat first
    [ reflexivity
    | apply io_bind_all; [|intros ?]
    | match goal with
      | |- context [check ?e] => destruct e; cbn [check fail io_ret fst forallb]
      | |- context [lift ?r] => unfold lift; cbn [fst forallb]
      | |- context [if ?b then _ else _] => destruct b
      end ].

Lemma newFile_source_events rev w source sType quote skip xl sheet :
  forallb isSourceEvent (fst (newFile rev w source sType quote skip xl sheet)) = true.
Proof. unfold newFile. all_events. Qed.

Lemma NewReader_source_events rev w source sType quote skip xl sheet :
  forallb isSourceEvent (fst (NewReader rev w source sType quote skip xl sheet)) = true.
Proof.
  unfold NewReader. destruct (viaHttp source); [|apply newFile_source_events].
  unfold newHttp. all_events; apply newFile_source_events.
Qed.

Lemma forallb_not_elem (P : event -> bool) t e :
  forallb P t = true -> P e = false -> e ∉ t.
Proof.
  intros H He Hin. rewrite forallb_forall in H. apply list_elem_of_In in Hin.
  rewrite (H _ Hin) in He. discriminate.
Qed.

(** With names supplied by the caller, [buildReader] never reads the header
    row: the key of the table is the first name, there are as many fields
    as names, and field [i] has the [i]-th name. *)
Theorem supplied_names_make_schema
    rev w source sType skip quote camel hdrs fts xl sheet table t rdr td :
  hdrs <> [] ->
  buildReader rev w source sType skip quote camel hdrs fts xl sheet table = (t, Ok (rdr, td)) ->
  hdrs !! 0%nat = Some (Key td)
  /\ size (FieldDefs td) = length hdrs
  /\ (forall i fd, FieldDefs td !! i = Some fd -> hdrs !! i = Some (Name fd))
  /\ EInit ∉ t.
Proof.
  intros Hne H.
  apply buildReader_Ok_inv in H as (t1 & td1 & Hnew & Hhdr & Hty & _ & ->).
  destruct hdrs as [|h hdrs]; [congruence|]. cbn [length Nat.eqb] in Hhdr |- *.
  apply suppliedTable_Ok in Hhdr as [Hkey Hfds].
  assert (Hsz1 : size (FieldDefs td1) = S (length hdrs)).
  { rewrite Hfds, map_seq_size, length_fmap. reflexivity. }
  assert (Hn1 : forall i fd, FieldDefs td1 !! i = Some fd -> (h :: hdrs) !! i = Some (Name fd)).
  { intros i fd Hi. rewrite Hfds, supplied_lookup in Hi.
    destruct ((h :: hdrs) !! i) as [n|]; cbn in Hi; [|discriminate].
    inversion Hi. reflexivity. }
  assert (Hno : EInit ∉ (t1 ++ [] ++ (if (length fts =? 0)%nat then [EImpute 0 imputeTol] else [])
                         ++ [ECreateTable table])%list).
  { pose proof (NewReader_source_events rev w source sType quote (skipUsed (h :: hdrs) skip) xl sheet) as Hs.
    rewrite Hnew in Hs. cbn [fst] in Hs.
    rewrite !not_elem_of_app. split; [eapply forallb_not_elem; [exact Hs|reflexivity]|].
    split; [apply not_elem_of_nil|]. split.
    - destruct (length fts =? 0)%nat; [|apply not_elem_of_nil].
      intros Hin. apply list_elem_of_singleton in Hin. discriminate.
    - intros Hin. apply list_elem_of_singleton in Hin. discriminate. }
  destruct (length fts =? 0)%nat.
  - destruct Hty as (rows & _ & ->). cbn [Impute Key].
    split; [exact Hkey|]. split; [rewrite Impute_size; exact Hsz1|]. split; [|exact Hno].
    intros i fd Hi. apply Impute_lookup in Hi as (fd0 & H0 & Hname & _).
    rewrite Hname. apply Hn1. exact H0.
  - pose proof Hty as Hty'.
    apply retype_Ok_inv in Hty as (Hsz & Hk & Hall).
    split; [rewrite Hk; exact Hkey|]. split.
    + unfold retype in Hty'.
      destruct (length fts =? size (FieldDefs td1))%nat eqn:E; cbn [negb] in Hty'; [|discriminate].
      apply Nat.eqb_eq in E. lia.
    + split; [|exact Hno]. intros i fd Hi.
      destruct (Hall i fd Hi) as (fd0 & token & H0 & _ & ->).
      rewrite retypeField_name. apply Hn1. exact H0.
Qed.

Lemma supplied_names_make_schema_witness :
  exists t rdr td,
    buildReader R1 demoWorld "/data/loans.csv" "csv" 0 34 false ["id"; "note"; "amount"] []
      [0; 0; 0; 0] "" "loans" = (t, Ok (rdr, td))
    /\ Key td = "id" /\ size (FieldDefs td) = 3%nat /\ EInit ∉ t.
Proof.
  destruct (buildReader R1 demoWorld "/data/loans.csv" "csv" 0 34 false
              ["id"; "note"; "amount"] [] [0; 0; 0; 0] "" "loans")
    as [t [[rdr td]|e|p]] eqn:E; try (vm_compute in E; discriminate).
  destruct (supplied_names_make_schema R1 demoWorld "/data/loans.csv" "csv" 0 34 false
              ["id"; "note"; "amount"] [] [0; 0; 0; 0] "" "loans" t rdr td)
    as (Hk & Hs & _ & Hno); [discriminate | exact E |].
  exists t, rdr, td. split; [reflexivity|]. inversion Hk. auto.
Defined.

Lemma retype_supplied hdrs fts td1 :
  FieldDefs td1 = map_seq 0 (unknownField <$> hdrs) ->
  length fts = length hdrs ->
  exists td,
    retype fts td1 = Ok td /\ Key td = Key td1
    /\ size (FieldDefs td) = length hdrs
    /\ forall i name token, hdrs !! i = Some name -> fts !! i = Some token ->
         FieldDefs td !! i = Some (retypeField token (unknownField name)).
Proof.
  intros Hfds Hlen. unfold retype.
  replace (length fts =? size (FieldDefs td1))%nat with true.
  2:{ symmetry. apply Nat.eqb_eq. rewrite Hfds, map_seq_size, length_fmap. exact Hlen. }
  cbn [negb].
  destruct (rangeMap_total (retypeBody fts) (FieldDefs td1)) as [fds Hr].
  { intros i fd Hi. rewrite Hfds, supplied_lookup in Hi.
    destruct (hdrs !! i) as [n|] eqn:Hn; cbn in Hi; [|discriminate].
    apply lookup_lt_Some in Hn. unfold retypeBody.
    destruct (strAt_in_range fts i) as [tok ->]; [lia|]. reflexivity. }
  rewrite Hr. cbn [mbind result_bind]. eexists. split; [reflexivity|]. cbn [Key FieldDefs].
  split; [reflexivity|]. split.
  - rewrite (rangeMap_size _ _ _ Hr), Hfds, map_seq_size, length_fmap. reflexivity.
  - intros i name token Hn Ht.
    assert (Hi : FieldDefs td1 !! i = Some (unknownField name)).
    { rewrite Hfds, supplied_lookup, Hn. reflexivity. }
    destruct (rangeMap_Ok _ _ _ _ _ Hr Hi) as (b & Hb & ->). unfold retypeBody in Hb.
    unfold strAt in Hb. rewrite Ht in Hb. cbn [mbind result_bind] in Hb. congruence.
Qed.

(** With names and as many types supplied by the caller, and a reader that
    could be built, [buildReader] does nothing but create the table:
    field [i] is the [i]-th name with the [i]-th type, and the outcome is
    that of [Create]. *)
Theorem supplied_names_and_types_path
    rev w source sType skip quote camel hdrs fts xl sheet table t1 rdr :
  hdrs <> [] -> fts <> [] -> length fts = length hdrs ->
  NewReader rev w source sType quote skip xl sheet = (t1, Ok rdr) ->
  exists td,
    buildReader rev w source sType skip quote camel hdrs fts xl sheet table
    = ((t1 ++ [ECreateTable table])%list,
       match createErr w table td with
       | None => Ok (rdr, td)
       | Some e => Err e
       end)
    /\ hdrs !! 0%nat = Some (Key td)
    /\ size (FieldDefs td) = length hdrs
    /\ forall i name token, hdrs !! i = Some name -> fts !! i = Some token ->
         FieldDefs td !! i = Some (retypeField token (unknownField name)).
Proof.
  intros Hh Hf Hlen Hnew.
  destruct (suppliedTable hdrs) as [td1| |] eqn:Hs.
  2,3: (destruct hdrs; [congruence | cbn in Hs; discriminate]).
  destruct (suppliedTable_Ok _ _ Hs) as [Hkey Hfds].
  destruct (retype_supplied hdrs fts td1 Hfds Hlen) as (td & Hr & Hk & Hsz & Hall).
  exists td. split; [|split; [rewrite Hk; exact Hkey | split; assumption]].
  unfold buildReader, readNames, resolveTypes.
  destruct hdrs as [|h hdrs]; [congruence|]. destruct fts as [|f fts]; [congruence|].
  cbn [length Nat.eqb]. rewrite Hnew. cbn [io_bind]. rewrite Hs. cbn [lift io_bind].
  rewrite Hr. cbn [lift io_bind emit app].
  destruct (createErr w table td); cbn [check fail io_ret io_bind]; rewrite ?app_nil_r; reflexivity.
Qed.

Lemma supplied_names_and_types_path_witness :
  exists t1 rdr td,
    NewReader R2 demoWorld "/data/loans.csv" "csv" 34 0 [0; 0; 0; 0] "" = (t1, Ok rdr)
    /\ buildReader R2 demoWorld "/data/loans.csv" "csv" 0 34 false ["id"; "amount"] ["i"; "f"]
         [0; 0; 0; 0] "" "loans" = ((t1 ++ [ECreateTable "loans"])%list, Ok (rdr, td))
    /\ Key td = "id".
Proof.
  destruct (NewReader R2 demoWorld "/data/loans.csv" "csv" 34 0 [0; 0; 0; 0] "")
    as [t1 [rdr|e|p]] eqn:Hnew; try (vm_compute in Hnew; discriminate).
  destruct (supplied_names_and_types_path R2 demoWorld "/data/loans.csv" "csv" 0 34 false
              ["id"; "amount"] ["i"; "f"] [0; 0; 0; 0] "" "loans" t1 rdr)
    as (td & Hb & Hk & _); [discriminate | discriminate | reflexivity | exact Hnew |].
  exists t1, rdr, td. split; [reflexivity|]. split; [exact Hb|]. inversion Hk. reflexivity.
Defined.

(** ** The order of the actions of a run *)

(** [main], case by case. *)
Lemma main_cases rev w a :
  main rev w a =
  match flags rev a with
  | Panic p => ([], Crashed p)
  | Err e => ([EFatal e], Fatal e)
  | Ok fr =>
      match err fr with
      | Some e => ((helpEvents rev ++ [EFatal e])%list, Fatal e)
      | None =>
          let connect := EConnect (host a) (user a) (password a) in
          match connectErr w with
          | Some e => ([connect; EFatal e], Fatal e)
          | None =>
              match buildReader rev w (source a) (sTypeOut fr) (skipOpt a) (quote fr)
                      (camel fr) (headers fr) (fieldTypes fr) (xlArea fr)
                      (xlSheet a) (table a) with
              | (t1, Err e) => ((connect :: t1 ++ [EFatal e])%list, Fatal e)
              | (t1, Panic p) => ((connect :: t1 ++ [EClose "con"])%list, Crashed p)
              | (t1, Ok built) =>
                  match exportCall rev w (fst built) (ignore fr) with
                  | (t2, Ok rep) =>
                      ((connect :: t1 ++ t2 ++ EPrintElapsed :: closes)%list, Completed rep)
                  | (t2, Err e) => ((connect :: t1 ++ t2 ++ [EFatal e])%list, Fatal e)
                  | (t2, Panic p) => ((connect :: t1 ++ t2 ++ closes)%list, Crashed p)
                  end
              end
          end
      end
  end.
Proof.
  unfold main, mainBody.
  destruct (flags rev a) as [fr|e|p]; cbn [lift io_bind]; try reflexivity.
  destruct (err fr) as [e|].
  { destruct rev; reflexivity. }
  cbn [emit io_bind]. destruct (connectErr w) as [e|]; cbn [check fail io_ret io_bind deferring app].
  { reflexivity. }
  destruct (buildReader rev w (source a) (sTypeOut fr) (skipOpt a) (quote fr)
              (camel fr) (headers fr) (fieldTypes fr) (xlArea fr) (xlSheet a) (table a))
    as [t1 [built|e|p]]; cbn [io_bind deferring app]; try reflexivity.
  destruct (exportCall rev w (fst built) (ignore fr)) as [t2 [rep|e|p]];
    cbn [io_bind emit io_ret deferring app closes];
    rewrite <- ?app_assoc; cbn [app]; rewrite ?app_nil_r; reflexivity.
Qed.

Lemma forallb_impl {A} (P Q : A -> bool) l :
  (forall x, P x = true -> Q x = true) -> forallb P l = true -> forallb Q l = true.
Proof.
  intros H. induction l as [|x l IH]; cbn; [reflexivity|].
  rewrite !andb_true_iff. intros [Hx Hl]. auto.
Qed.

Lemma buildReader_setup_events rev w source sType skip quote camel hdrs fts xl sheet table :
  forallb isSetupEvent
    (fst (buildReader rev w source sType skip quote camel hdrs fts xl sheet table)) = true.
Proof.
  unfold buildReader, readNames, resolveTypes.
  apply io_bind_all.
  { eapply forallb_impl; [|apply NewReader_source_events].
    intros e He. destruct e; try discriminate; reflexivity. }
  intros rdr. all_events.
Qed.

Lemma exportCall_events rev w rdr ig :
  fst (exportCall rev w rdr ig)
  = [match rev with R1 => EExport 0 None | R2 => EExport 1000 (Some ig) end].
Proof.
  unfold exportCall. destruct rev; cbn [emit io_bind];
    destruct (dataRows w rdr) as [rows| |]; cbn [lift io_bind fst];
    try reflexivity; destruct (Export _ _ _); reflexivity.
Qed.

Lemma setup_not_close t :
  forallb isSetupEvent t = true -> forallb (fun e => negb (isClose e)) t = true.
Proof. apply forallb_impl. intros x; destruct x; cbn; congruence. Qed.

(** A run that ends in [log.Fatalln] runs no deferred [Close]. *)
Theorem fatal_run_closes_nothing rev w a t msg :
  main rev w a = (t, Fatal msg) -> forall what, EClose what ∉ t.
Proof.
  rewrite main_cases. intros H what.
  apply (forallb_not_elem (fun e => negb (isClose e))); [|reflexivity].
  destruct (flags rev a) as [fr|e|p]; [|inversion H; reflexivity|discriminate].
  destruct (err fr) as [e|]; [inversion H; destruct rev; reflexivity|].
  cbv zeta in H. destruct (connectErr w) as [e|]; [inversion H; reflexivity|].
  pose proof (buildReader_setup_events rev w (source a) (sTypeOut fr) (skipOpt a) (quote fr)
                (camel fr) (headers fr) (fieldTypes fr) (xlArea fr) (xlSheet a) (table a)) as Hb.
  destruct (buildReader _ _ _ _ _ _ _ _ _ _ _ _) as [t1 [built|e|p]]; cbn [fst] in Hb;
    [| |discriminate].
  - pose proof (exportCall_events rev w (fst built) (ignore fr)) as He.
    destruct (exportCall rev w (fst built) (ignore fr)) as [t2 [rep|e|p]]; try discriminate.
    inversion H; subst t msg. cbn [fst] in He. subst t2.
    cbn [forallb isClose negb andb]. rewrite !forallb_app, (setup_not_close _ Hb).
    destruct rev; reflexivity.
  - inversion H; subst t msg. cbn [forallb isClose negb andb].
    rewrite forallb_app, (setup_not_close _ Hb). reflexivity.
Qed.

Lemma fatal_run_closes_nothing_witness :
  exists t msg,
    main R2 demoWorld (demoArgs "csv" "/data/loans.csv" "N" "" "" dquote "N") = (t, Fatal msg)
    /\ EConnect "127.0.0.1" "default" "" ∈ t /\ EClose "con" ∉ t.
Proof.
  destruct (main R2 demoWorld (demoArgs "csv" "/data/loans.csv" "N" "" "" dquote "N"))
    as [t e] eqn:Hm.
  destruct e as [rep|msg|p]; try (vm_compute in Hm; discriminate).
  exists t, msg. split; [reflexivity|]. split.
  - assert ((t, Fatal msg) = main R2 demoWorld (demoArgs "csv" "/data/loans.csv" "N" "" "" dquote "N"))
      as Hm' by (symmetry; exact Hm).
    vm_compute in Hm'. inversion Hm'. left.
  - apply (fatal_run_closes_nothing R2 demoWorld _ t msg Hm).
Defined.

(** The events of a run that completes, in order: connect; the events that
    build the reader; the read of the header row when no names were
    supplied; the inference of the types when none were supplied; the
    creation of the table; the export; the elapsed time; and the three
    [Close] calls in the reverse order of their [defer]. *)
Theorem completed_run_protocol rev w a t rep :
  main rev w a = (t, Completed rep) ->
  exists fr tr,
    flags rev a = Ok fr /\ err fr = None
    /\ forallb isSourceEvent tr = true
    /\ t = ([EConnect (host a) (user a) (password a)] ++ tr
            ++ (if (length (headers fr) =? 0)%nat then [EInit] else [])
            ++ (if (length (fieldTypes fr) =? 0)%nat then [EImpute 0 imputeTol] else [])
            ++ [ECreateTable (table a);
                match rev with R1 => EExport 0 None | R2 => EExport 1000 (Some (ignore fr)) end;
                EPrintElapsed; EClose "wtr"; EClose "rdr"; EClose "con"])%list.
Proof.
  rewrite main_cases. intros H.
  destruct (flags rev a) as [fr|e|p]; try discriminate.
  destruct (err fr) as [e|] eqn:He; [discriminate|].
  cbv zeta in H. destruct (connectErr w) as [e|]; [discriminate|].
  destruct (buildReader _ _ _ _ _ _ _ _ _ _ _ _) as [t1 [[rdr td]|e|p]] eqn:Hb; try discriminate.
  pose proof (exportCall_events rev w rdr (ignore fr)) as Hev. cbn [fst] in H.
  destruct (exportCall rev w rdr (ignore fr)) as [t2 [rep'|e|p]]; try discriminate.
  inversion H; subst t rep'. cbn [fst] in Hev. subst t2.
  apply buildReader_Ok_inv in Hb as (tr & td1 & Hnew & _ & _ & _ & ->).
  exists fr, tr. split; [reflexivity|]. split; [exact He|]. split.
  - pose proof (NewReader_source_events rev w (source a) (sTypeOut fr) (quote fr)
                  (skipUsed (headers fr) (skipOpt a)) (xlArea fr) (xlSheet a)) as Hs.
    rewrite Hnew in Hs. exact Hs.
  - cbn [app closes]. rewrite <- !app_assoc. reflexivity.
Qed.

Lemma completed_run_protocol_witness :
  exists rep,
    main R2 demoWorld tolerantArgs =
      ([EConnect "127.0.0.1" "default" ""; EOpen "/data/loans.csv"; EInit;
        EImpute 0 imputeTol; ECreateTable "loans"; EExport 1000 (Some true);
        EPrintElapsed; EClose "wtr"; EClose "rdr"; EClose "con"], Completed rep).
Proof.
  destruct (main R2 demoWorld tolerantArgs) as [t e] eqn:Hm.
  destruct e as [rep|msg|p]; try (vm_compute in Hm; discriminate).
  exists rep.
  destruct (completed_run_protocol R2 demoWorld tolerantArgs t rep Hm)
    as (fr & tr & Hf & _ & _ & Ht).
  assert ((t, Completed rep) = main R2 demoWorld tolerantArgs) as Hm' by (symmetry; exact Hm).
  vm_compute in Hm'. inversion Hm'. reflexivity.
Defined.

(** A run that panics does so either inside [flags], before anything has
    happened, or after the connection was made, and then the deferred
    [Close] of the connection is the last event. *)
Theorem crash_closes_connection rev w a t p :
  main rev w a = (t, Crashed p) ->
  (flags rev a = Panic p /\ t = [])
  \/ exists t', t = (EConnect (host a) (user a) (password a) :: t' ++ [EClose "con"])%list.
Proof.
  rewrite main_cases. intros H.
  destruct (flags rev a) as [fr|e|q]; [|discriminate|inversion H; left; auto].
  right. destruct (err fr) as [e|]; [discriminate|].
  cbv zeta in H. destruct (connectErr w) as [e|]; [discriminate|].
  destruct (buildReader _ _ _ _ _ _ _ _ _ _ _ _) as [t1 [built|e|q]]; try discriminate.
  - destruct (exportCall rev w (fst built) (ignore fr)) as [t2 [rep|e|q]]; try discriminate.
    inversion H. exists (t1 ++ t2 ++ [EClose "wtr"; EClose "rdr"])%list.
    unfold closes. rewrite <- !app_assoc. reflexivity.
  - inversion H. exists t1. reflexivity.
Qed.

Lemma crash_closes_connection_witness :
  main R2 trailingWorld (demoArgs "csv" "/data/trailing.csv" "Y" "" "" dquote "N")
  = ([EConnect "127.0.0.1" "default" ""; EOpen "/data/trailing.csv"; EInit; EClose "con"],
     Crashed "slice bounds out of range").
Proof.
  destruct (main R2 trailingWorld (demoArgs "csv" "/data/trailing.csv" "Y" "" "" dquote "N"))
    as [t e] eqn:Hm.
  destruct e as [rep|msg|p]; try (vm_compute in Hm; discriminate).
  destruct (crash_closes_connection R2 trailingWorld _ t p Hm) as [[Hf _]|[t' Ht]].
  - vm_compute in Hf. discriminate.
  - assert ((t, Crashed p) = main R2 trailingWorld
              (demoArgs "csv" "/data/trailing.csv" "Y" "" "" dquote "N")) as Hm'
      by (symmetry; exact Hm).
    vm_compute in Hm'. inversion Hm'. reflexivity.
Defined.

(** ** getDir and the conversion command *)

Lemma lastIndexFrom_absent c s : forall pos found,
  allBytes (isNot c) s = true -> lastIndexFrom c s pos found = found.
Proof.
  induction s as [|d s IH]; intros pos found H; [reflexivity|].
  cbn [allBytes] in H. apply andb_true_iff in H as [Hd Hs]. cbn [lastIndexFrom].
  unfold isNot in Hd. apply negb_true_iff in Hd. rewrite Ascii.eqb_sym in Hd. rewrite Hd.
  apply IH. exact Hs.
Qed.

Lemma lastIndexFrom_last c s1 s2 : forall pos found,
  allBytes (isNot c) s2 = true ->
  lastIndexFrom c (s1 ++ String c s2) pos found = pos + Z.of_nat (String.length s1).
Proof.
  induction s1 as [|d s1 IH]; intros pos found H.
  - change ("" ++ String c s2) with (String c s2).
    cbn [lastIndexFrom String.length]. rewrite Ascii.eqb_refl.
    rewrite lastIndexFrom_absent by exact H. lia.
  - change (String d s1 ++ String c s2) with (String d (s1 ++ String c s2)).
    cbn [lastIndexFrom String.length]. rewrite IH by exact H. lia.
Qed.

Lemma substring_0_app s t : substring 0 (String.length s) (s ++ t) = s.
Proof.
  induction s as [|c s IH]; [apply substring_0_0|].
  change (String c s ++ t) with (String c (s ++ t)). cbn [String.length substring].
  rewrite IH. reflexivity.
Qed.

Lemma length_append s t : String.length (s ++ t) = (String.length s + String.length t)%nat.
Proof.
  induction s as [|c s IH]; [reflexivity|].
  change (String c s ++ t) with (String c (s ++ t)). cbn [String.length]. rewrite IH. reflexivity.
Qed.

Lemma getDir_joined dir file :
  allBytes (isNot "/") file = true ->
  getDir (dir ++ "/" ++ file) = Ok (if String.eqb dir "" then "/" ++ file else dir).
Proof.
  intros H. unfold getDir.
  change (dir ++ "/" ++ file) with (dir ++ String "/" file).
  rewrite lastIndexFrom_last by exact H.
  destruct dir as [|c dir]; [reflexivity|].
  replace (0 <? 0 + Z.of_nat (String.length (String c dir))) with true
    by (symmetry; apply Z.ltb_lt; cbn [String.length]; lia).
  replace (0 + Z.of_nat (String.length (String c dir)))
    with (Z.of_nat 0 + Z.of_nat (String.length (String c dir))) by lia.
  change 0 with (Z.of_nat 0) at 1. rewrite slice_nat.
  destruct (decide _) as [_|N].
  - rewrite substring_0_app. reflexivity.
  - exfalso. apply N. rewrite length_append. lia.
Qed.

Lemma getDir_plain path : allBytes (isNot "/") path = true -> getDir path = Ok path.
Proof. intros H. unfold getDir. rewrite lastIndexFrom_absent by exact H. reflexivity. Qed.

(** The directory that the second revision passes as [--outdir]: for a
    path [dir/file] it is [dir], for [/file] the path itself, and for a
    file name without a slash the file name itself. *)
Theorem convert_output_directory dir file :
  allBytes (isNot "/") file = true ->
  convertCommand R2 file
  = Ok ["libreoffice"; "--headless"; "--convert-to"; "xlsx"; "--outdir"; file; file]
  /\ convertCommand R2 (dir ++ "/" ++ file)
     = Ok ["libreoffice"; "--headless"; "--convert-to"; "xlsx"; "--outdir";
           (if String.eqb dir "" then "/" ++ file else dir); dir ++ "/" ++ file].
Proof.
  intros H. unfold convertCommand. rewrite (getDir_plain _ H), (getDir_joined dir _ H).
  split; reflexivity.
Qed.

Lemma convert_output_directory_witness :
  convertCommand R2 "book.xls"
  = Ok ["libreoffice"; "--headless"; "--convert-to"; "xlsx"; "--outdir"; "book.xls"; "book.xls"]
  /\ convertCommand R2 "/data/in/book.xls"
     = Ok ["libreoffice"; "--headless"; "--convert-to"; "xlsx"; "--outdir";
           "/data/in"; "/data/in/book.xls"].
Proof. apply (convert_output_directory "/data/in" "book.xls"). reflexivity. Defined.

(** ** The reader that is built *)

Lemma intAt_Ok l i x : intAt l i = Ok x -> l !! i = Some x.
Proof. unfold intAt. destruct (l !! i); intros H; inversion H; auto. Qed.

Lemma xlReader_shape src quote skip xl sheet rdr :
  xlReader src quote skip xl sheet = Ok rdr ->
  rKind rdr = XlReader /\ rSource rdr = src /\ rSep rdr = None /\ rQuote rdr = quote
  /\ rSheet rdr = sheet /\ rArea rdr = take 4 xl /\ (4 <= length xl)%nat.
Proof.
  unfold xlReader.
  destruct (intAt xl 0) as [x0| |] eqn:H0; cbn [mbind result_bind]; try discriminate.
  destruct (intAt xl 1) as [x1| |] eqn:H1; cbn [mbind result_bind]; try discriminate.
  destruct (intAt xl 2) as [x2| |] eqn:H2; cbn [mbind result_bind]; try discriminate.
  destruct (intAt xl 3) as [x3| |] eqn:H3; cbn [mbind result_bind]; try discriminate.
  intros H. inversion H. cbn. apply intAt_Ok in H0, H1, H2, H3.
  destruct xl as [|a0 [|a1 [|a2 [|a3 xl]]]]; try discriminate.
  cbn in *. split; [reflexivity|]. split; [reflexivity|]. split; [reflexivity|].
  split; [reflexivity|]. split; [reflexivity|]. rewrite take_0. split; [congruence|lia].
Qed.

Lemma sep_of_text_type sType :
  String.eqb sType "text" || String.eqb sType "csv" = true ->
  (sType = "text" /\ sep sType = tab) \/ (sType = "csv" /\ sep sType = ","%char).
Proof.
  intros H. apply orb_true_iff in H as [H|H]; apply String.eqb_eq in H; subst; auto.
Qed.

Lemma newFile_shape rev w source sType quote skip xl sheet t rdr :
  newFile rev w source sType quote skip xl sheet = (t, Ok rdr) ->
  rQuote rdr = quote
  /\ (((sType = "text" /\ rSep rdr = Some tab) \/ (sType = "csv" /\ rSep rdr = Some ","%char))
      /\ rKind rdr = FileReader /\ rSource rdr = source
      \/ (sType = "xlsx" \/ sType = "xls") /\ rKind rdr = XlReader /\ rSep rdr = None
         /\ rSheet rdr = sheet /\ rArea rdr = take 4 xl /\ (4 <= length xl)%nat).
Proof.
  unfold newFile. intros H.
  apply io_bind_Ok_inv in H as (? & [] & ? & _ & H & _).
  apply io_bind_Ok_inv in H as (? & [] & ? & _ & H & _).
  destruct (String.eqb sType "text" || String.eqb sType "csv") eqn:Htc.
  { unfold io_ret in H. inversion H. cbn. split; [reflexivity|]. left.
    destruct (sep_of_text_type _ Htc) as [[-> ->]|[-> ->]]; auto. }
  destruct (String.eqb sType "xlsx" || String.eqb sType "xls") eqn:Hx; [|discriminate].
  apply io_bind_Ok_inv in H as (? & src & ? & _ & H & _).
  apply io_bind_Ok_inv in H as (? & [] & ? & _ & H & _).
  apply io_bind_Ok_inv in H as (? & [] & ? & _ & H & _).
  apply lift_Ok_inv in H as [H _]. apply xlReader_shape in H as (Hk & _ & Hs & Hq & Hsh & Ha & Hl).
  split; [exact Hq|]. right.
  apply orb_true_iff in Hx. rewrite !String.eqb_eq in Hx. auto 10.
Qed.

(** The reader that [NewReader] returns carries the quote and the skip it
    was given.  For text and csv the separator is a tab or a comma, and the
    reader is a string reader on the fetched body or a file reader on the
    source; for xlsx and xls it is a spreadsheet reader on the given sheet
    and on the four numbers of the area. *)
Theorem reader_matches_options rev w source sType quote skip xl sheet t rdr :
  NewReader rev w source sType quote skip xl sheet = (t, Ok rdr) ->
  rQuote rdr = quote /\ rSkip rdr = skip
  /\ (((sType = "text" /\ rSep rdr = Some tab) \/ (sType = "csv" /\ rSep rdr = Some ","%char))
      /\ (if Contains (ToLower source) "http"
          then rKind rdr = StrReader /\ httpBody w source = Ok (rSource rdr)
          else rKind rdr = FileReader /\ rSource rdr = source)
      \/ (sType = "xlsx" \/ sType = "xls") /\ rKind rdr = XlReader /\ rSep rdr = None
         /\ rSheet rdr = sheet /\ rArea rdr = take 4 xl /\ (4 <= length xl)%nat).
Proof.
  intros H. pose proof (NewReader_skip _ _ _ _ _ _ _ _ _ _ H) as Hskip.
  unfold NewReader, viaHttp in H. destruct (Contains (ToLower source) "http").
  - unfold newHttp in H.
    apply io_bind_Ok_inv in H as (? & [] & ? & _ & H & _).
    apply io_bind_Ok_inv in H as (? & body & ? & Hbody & H & _).
    apply lift_Ok_inv in Hbody as [Hbody _].
    destruct (String.eqb sType "text" || String.eqb sType "csv") eqn:Htc.
    { unfold io_ret in H. inversion H. cbn. split; [reflexivity|]. split; [reflexivity|]. left.
      split; [|auto]. destruct (sep_of_text_type _ Htc) as [[-> ->]|[-> ->]]; auto. }
    destruct (String.eqb sType "xlsx") eqn:Hx.
    { apply io_bind_Ok_inv in H as (? & [] & ? & _ & H & _).
      apply io_bind_Ok_inv in H as (? & [] & ? & _ & H & _).
      apply lift_Ok_inv in H as [H _].
      apply xlReader_shape in H as (Hk & _ & Hs & Hq & Hsh & Ha & Hl).
      apply String.eqb_eq in Hx. split; [exact Hq|]. split; [exact Hskip|]. right. auto 10. }
    destruct (String.eqb sType "xls") eqn:Hxls; [|discriminate].
    apply io_bind_Ok_inv in H as (? & [] & ? & _ & H & _).
    apply io_bind_Ok_inv in H as (? & [] & ? & _ & H & _).
    apply String.eqb_eq in Hxls.
    apply newFile_shape in H as [Hq [[[[Habs _]|[Habs _]] _]|(_ & Hk & Hs & Hsh & Ha & Hl)]];
      try discriminate.
    split; [exact Hq|]. split; [exact Hskip|]. right. auto 10.
  - apply newFile_shape in H as [Hq [[Hsep [Hk Hs]]|Hxl]].
    + split; [exact Hq|]. split; [exact Hskip|]. left. auto.
    + split; [exact Hq|]. split; [exact Hskip|]. right. exact Hxl.
Qed.

Lemma reader_matches_options_witness :
  exists t rdr,
    NewReader R2 demoWorld "https://example.org/loans.csv" "csv" 34 1 [0; 0; 0; 0] ""
    = (t, Ok rdr)
    /\ rQuote rdr = 34 /\ rSkip rdr = 1 /\ rKind rdr = StrReader /\ rSep rdr = Some ","%char.
Proof.
  destruct (NewReader R2 demoWorld "https://example.org/loans.csv" "csv" 34 1 [0; 0; 0; 0] "")
    as [t [rdr|e|p]] eqn:H; try (vm_compute in H; discriminate).
  exists t, rdr. split; [reflexivity|].
  destruct (reader_matches_options R2 demoWorld _ "csv" 34 1 [0; 0; 0; 0] "" t rdr H)
    as (Hq & Hs & [[[[Habs _]|[_ Hsep]] Hk]|[[Habs|Habs] _]]); try discriminate.
  destruct Hk as [Hk _]. auto.
Defined.

(** ** Where a run can crash *)

Lemma calm_bind {A B} (m : io A) (k : A -> io B) :
  calm m -> (forall t a, m = (t, Ok a) -> calm (k a)) -> calm (io_bind m k).
Proof.
  unfold calm. destruct m as [t [a|e|p]]; cbn [io_bind snd]; intros Hm Hk; try done.
  specialize (Hk t a eq_refl). destruct (k a) as [t' r]. exact Hk.
Qed.

Lemma calm_emit e : calm (emit e).
Proof. reflexivity. Qed.

Lemma calm_check e : calm (check e).
Proof. destruct e; reflexivity. Qed.

Lemma calm_ret {A} (a : A) : calm (io_ret a).
Proof. reflexivity. Qed.

Lemma calm_fail {A} e : calm (@fail A e).
Proof. reflexivity. Qed.

Lemma calm_lift {A} (r : result A) : is_panic r = false -> calm (lift r).
Proof. intros H. exact H. Qed.

Lemma io_bind_Panic_inv {A B} (m : io A) (k : A -> io B) t p :
  io_bind m k = (t, Panic p) ->
  (exists t', m = (t', Panic p)) \/ exists t1 a t2, m = (t1, Ok a) /\ k a = (t2, Panic p).
Proof.
  destruct m as [t1 [a|e|q]]; cbn [io_bind]; intros H.
  - right. destruct (k a) as [t2 r] eqn:Hk. inversion H; subst. eauto.
  - discriminate.
  - left. inversion H; subst. eauto.
Qed.

Lemma calm_not_panic {A} (m : io A) t p : calm m -> m <> (t, Panic p).
Proof. unfold calm. intros H ->. discriminate. Qed.

Lemma xlReader_calm src quote skip xl sheet :
  length xl = 4%nat -> is_panic (xlReader src quote skip xl sheet) = false.
Proof.
  intros H. destruct xl as [|a0 [|a1 [|a2 [|a3 [|]]]]]; try discriminate. reflexivity.
Qed.

Lemma lastIndexFrom_bound c s : forall pos found,
  found < pos -> lastIndexFrom c s pos found < pos + Z.of_nat (String.length s).
Proof.
  induction s as [|d s IH]; intros pos found H; cbn [lastIndexFrom String.length]; [lia|].
  specialize (IH (pos + 1) (if Ascii.eqb c d then pos else found)).
  destruct (Ascii.eqb c d); lia.
Qed.

(** [getDir] never slices out of range. *)
Lemma getDir_calm path : is_panic (getDir path) = false.
Proof.
  unfold getDir. pose proof (lastIndexFrom_bound "/" path 0 (-1) ltac:(lia)) as B.
  destruct (0 <? lastIndexFrom "/" path 0 (-1)) eqn:E; [|reflexivity].
  apply Z.ltb_lt in E. set (ind := lastIndexFrom "/" path 0 (-1)) in *.
  replace ind with (Z.of_nat 0 + Z.of_nat (Z.to_nat ind)) by lia.
  change 0 with (Z.of_nat 0) at 1. rewrite slice_nat.
  destruct (decide _) as [_|N]; [reflexivity|]. exfalso. apply N. lia.
Qed.

Lemma convertCommand_calm rev source : is_panic (convertCommand rev source) = false.
Proof.
  destruct rev; [reflexivity|]. unfold convertCommand.
  pose proof (getDir_calm source) as H. destruct (getDir source); try done.
Qed.

Ltac calm_steps_with tac :=
  repeat first
    [ tac
    | apply calm_emit | apply calm_check | apply calm_ret | apply calm_fail
    | apply calm_bind; [|intros ? ? _]
    | match goal with |- calm (if ?b then _ else _) => destruct b end ].

Ltac calm_steps := calm_steps_with fail.

Lemma newFile_calm rev w source sType quote skip xl sheet :
  length xl = 4%nat -> calm (newFile rev w source sType quote skip xl sheet).
Proof.
  intros H. unfold newFile. calm_steps;
    first [ exact (convertCommand_calm _ _) | exact (xlReader_calm _ _ _ _ _ H) ].
Qed.

Lemma newHttp_calm rev w source sType quote skip xl sheet :
  (forall s, is_panic (httpBody w s) = false) -> length xl = 4%nat ->
  calm (newHttp rev w source sType quote skip xl sheet).
Proof.
  intros Hw H. unfold newHttp.
  calm_steps_with ltac:(exact (newFile_calm _ _ _ _ _ _ _ _ H));
    first [ exact (Hw _) | exact (xlReader_calm _ _ _ _ _ H) ].
Qed.

Lemma NewReader_calm rev w source sType quote skip xl sheet :
  (forall s, is_panic (httpBody w s) = false) -> length xl = 4%nat ->
  calm (NewReader rev w source sType quote skip xl sheet).
Proof.
  intros Hw H. unfold NewReader. destruct (viaHttp source);
    [apply newHttp_calm | apply newFile_calm]; assumption.
Qed.

Lemma endsInAny_prelude name :
  endsInAny chars (ToLower (mapBytes spaceToUnderscore name)) = endsInAny " ._" name.
Proof.
  unfold endsInAny, ToLower. rewrite !lastByte_mapBytes.
  destruct (lastByte name) as [c|]; [|reflexivity]. cbn. apply sep_after_prelude.
Qed.

Lemma toCamel_panic rev name p :
  toCamel rev name = Panic p -> endsInAny " ._" name = true /\ p = slicePanic.
Proof.
  rewrite toCamel_loop.
  pose proof (camelLoop_outcome _ (ToLower (mapBytes spaceToUnderscore name)) (Nat.le_refl _)) as L.
  rewrite endsInAny_prelude in L. destruct (endsInAny " ._" name).
  - rewrite L. intros H. inversion H. auto.
  - destruct L as (r & -> & _). discriminate.
Qed.

Lemma headerBody_panic rev camel fd p :
  headerBody rev camel fd = Panic p ->
  camel = true /\ endsInAny " ._" (Name fd) = true /\ p = slicePanic.
Proof.
  unfold headerBody. destruct camel.
  - destruct (toCamel rev (Name fd)) as [n|e|q] eqn:Hc; cbn [mbind result_bind].
    + destruct (isIn rev n reserved (reservedLower rev)). discriminate.
    + discriminate.
    + intros H. inversion H; subst q. apply toCamel_panic in Hc as [? ?]. auto.
  - cbn [mbind result_bind]. destruct (isIn rev (Name fd) reserved (reservedLower rev)).
    discriminate.
Qed.

Lemma processHeader_panic rev camel td p :
  processHeader rev camel td = Panic p ->
  camel = true /\ p = slicePanic
  /\ exists i fd, FieldDefs td !! i = Some fd /\ endsInAny " ._" (Name fd) = true.
Proof.
  unfold processHeader.
  pose proof (rangeMap_post (fun (_ : nat) fd => headerBody rev camel fd) (FieldDefs td)) as P.
  destruct (rangeMap _ (FieldDefs td)) as [fds|e|q]; cbn [mbind result_bind]; try discriminate.
  intros H. inversion H; subst q. destruct P as (i & fd & Hi & Hb).
  apply headerBody_panic in Hb as (Hc & He & Hp). eauto 10.
Qed.

Lemma processHeader_contiguous rev camel td td' :
  processHeader rev camel td = Ok td' -> contiguous td -> contiguous td'.
Proof.
  intros H Hc i [b Hb]. apply processHeader_fields in H as [H _].
  rewrite (rangeMap_size _ _ _ H).
  destruct (rangeMap_Ok_back _ _ _ _ _ H Hb) as (a & Ha & _). apply Hc. eauto.
Qed.

Lemma suppliedTable_contiguous hdrs td : suppliedTable hdrs = Ok td -> contiguous td.
Proof.
  intros H i [b Hb]. apply suppliedTable_Ok in H as [_ H]. rewrite H in *.
  rewrite map_seq_size, length_fmap. rewrite supplied_lookup in Hb.
  destruct (hdrs !! i) eqn:E; [|discriminate]. apply lookup_lt_Some in E. exact E.
Qed.

Lemma retype_calm fts td : contiguous td -> is_panic (retype fts td) = false.
Proof.
  intros Hc. unfold retype.
  destruct (length fts =? size (FieldDefs td))%nat eqn:E; cbn [negb]; [|reflexivity].
  apply Nat.eqb_eq in E.
  pose proof (rangeMap_post (retypeBody fts) (FieldDefs td)) as P.
  destruct (rangeMap (retypeBody fts) (FieldDefs td)) as [fds|e|q]; try reflexivity.
  exfalso. destruct P as (i & fd & Hi & Hb).
  destruct (strAt_in_range fts i) as [x Hx].
  { rewrite E. apply Hc. eauto. }
  unfold retypeBody in Hb. rewrite Hx in Hb. discriminate.
Qed.

Lemma resolveTypes_calm w rdr fts td :
  (forall r, is_panic (dataRows w r) = false) -> contiguous td ->
  calm (resolveTypes w rdr fts td).
Proof.
  intros Hw Hc. unfold resolveTypes. calm_steps;
    first [ exact (Hw _) | exact (retype_calm _ _ Hc) ].
Qed.

Lemma exportCall_calm rev w rdr ig :
  (forall r, is_panic (dataRows w r) = false) -> calm (exportCall rev w rdr ig).
Proof.
  intros Hw. unfold exportCall. destruct rev; calm_steps;
    first [ exact (Hw _)
          | apply calm_lift; unfold Export;
            repeat match goal with |- context [if ?b then _ else _] => destruct b end;
            reflexivity ].
Qed.

Lemma readNames_panic rev w rdr camel hdrs t p :
  calmWorld w ->
  readNames rev w rdr camel hdrs = (t, Panic p) ->
  camel = true /\ hdrs = [] /\ p = slicePanic
  /\ exists td i fd, headerSchema w rdr = Ok td /\ FieldDefs td !! i = Some fd
                     /\ endsInAny " ._" (Name fd) = true.
Proof.
  intros Hw. unfold readNames. destruct hdrs as [|h hdrs]; cbn [length Nat.eqb].
  - cbn [emit io_bind]. pose proof (calm_header w Hw rdr) as Hh.
    destruct (headerSchema w rdr) as [td|e|q]; cbn [lift io_bind app]; try discriminate.
    intros H. inversion H as [[Ht Hp]]. apply processHeader_panic in Hp as (Hc & Hq & i & fd & Hi & He).
    eauto 10.
  - cbn. discriminate.
Qed.

Lemma readNames_contiguous rev w rdr camel hdrs t td :
  calmWorld w ->
  readNames rev w rdr camel hdrs = (t, Ok td) -> contiguous td.
Proof.
  intros Hw H. apply readNames_Ok_inv in H as [H _].
  destruct (length hdrs =? 0)%nat.
  - destruct H as (td0 & H0 & H1). eapply processHeader_contiguous; [exact H1|].
    eapply header_contiguous; eauto.
  - eapply suppliedTable_contiguous; eauto.
Qed.

Lemma buildReader_panic rev w source sType skip quote camel hdrs fts xl sheet table t p :
  calmWorld w -> length xl = 4%nat ->
  buildReader rev w source sType skip quote camel hdrs fts xl sheet table = (t, Panic p) ->
  camel = true /\ hdrs = [] /\ p = slicePanic
  /\ exists rdr td i fd, headerSchema w rdr = Ok td /\ FieldDefs td !! i = Some fd
                         /\ endsInAny " ._" (Name fd) = true.
Proof.
  intros Hw Hx. unfold buildReader. intros H.
  apply io_bind_Panic_inv in H as [[t' H]|(t1 & rdr & t2 & _ & H)].
  { exfalso. revert H. apply calm_not_panic, NewReader_calm; [apply Hw | exact Hx]. }
  apply io_bind_Panic_inv in H as [[t' H]|(t3 & td1 & t4 & Hn & H)].
  { apply (readNames_panic _ _ _ _ _ _ _ Hw) in H as (Hc & Hh & Hp & td & i & fd & H).
    eauto 10. }
  exfalso. apply (readNames_contiguous _ _ _ _ _ _ _ Hw) in Hn.
  revert H. apply calm_not_panic. calm_steps.
  apply resolveTypes_calm; [apply Hw | exact Hn].
Qed.

(** When the collaborators do not panic, a run can panic in two places
    only: [flags] on an empty [-q], and [toCamel], under [-c Y] without
    [-h], on a header name that ends in a space, a dot or an underscore.
    In particular [xl[0..3]] and [fieldTypes[ind]] are always in range. *)
Theorem crash_has_two_causes rev w a t p :
  calmWorld w ->
  main rev w a = (t, Crashed p) ->
  (quoteOpt a = "" /\ p = "index out of range")
  \/ (ToLower (camelOpt a) = "y" /\ headerOpt a = "" /\ p = "slice bounds out of range"
      /\ exists rdr td i fd, headerSchema w rdr = Ok td /\ FieldDefs td !! i = Some fd
                             /\ endsInAny " ._" (Name fd) = true).
Proof.
  intros Hw. rewrite main_cases. intros H.
  destruct (flags rev a) as [fr|e|q] eqn:Hf; [|discriminate|].
  2:{ inversion H; subst. left. eapply flags_panic; eauto. }
  destruct (err fr) as [e|] eqn:He; [discriminate|].
  cbv zeta in H. destruct (connectErr w) as [e|]; [discriminate|].
  destruct (flags_Ok_inv _ _ _ Hf He) as (_ & _ & _ & ret & Htail & Hh0 & _ & Hx0 & _ & Hcamel).
  destruct (flagsTail_Ok_inv _ _ _ _ Hx0 Htail He) as (_ & Hh & _ & _ & _ & _ & Harea).
  destruct Harea as (? & ? & ? & ? & r0 & r1 & c0 & c1 & _ & _ & _ & _ & _ & _ & _ & _ & Harea).
  destruct (buildReader _ _ _ _ _ _ _ _ _ _ _ _) as [t1 [built|e|q]] eqn:Hb; try discriminate.
  - exfalso. pose proof (exportCall_calm rev w (fst built) (ignore fr) (calm_rows w Hw)) as C.
    unfold calm in C.
    destruct (exportCall rev w (fst built) (ignore fr)) as [t2 [rep|e|q]]; discriminate.
  - inversion H; subst q. right.
    apply (buildReader_panic _ _ _ _ _ _ _ _ _ _ _ _ _ _ Hw) in Hb;
      [|rewrite Harea; reflexivity].
    destruct Hb as (Hc & Hh' & Hp & Hex).
    split; [|split; [|split; [exact Hp | exact Hex]]].
    + destruct (flagsTail_keeps _ _ _ _ Htail) as (_ & Hk & _).
      rewrite Hk, Hcamel in Hc. apply String.eqb_eq in Hc. exact Hc.
    + rewrite Hh' in Hh. destruct (String.eqb (headerOpt a) "") eqn:E.
      * apply String.eqb_eq in E. exact E.
      * exfalso. pose proof (Split_comma_length (ReplaceAll (ReplaceAll (headerOpt a) " " "") "'" "")) as L.
        rewrite <- Hh in L. cbn in L. lia.
Qed.

Lemma supplied_contiguous (names : list string) key :
  contiguous (NewTableDef key MergeTree (map_seq 0 (unknownField <$> names))).
Proof.
  intros i [b Hb]. cbn [FieldDefs NewTableDef] in *.
  rewrite map_seq_size, length_fmap. rewrite supplied_lookup in Hb.
  destruct (names !! i) eqn:E; [|discriminate]. apply lookup_lt_Some in E. exact E.
Qed.

Lemma trailingWorld_calm : calmWorld trailingWorld.
Proof.
  split; try (intros; reflexivity).
  intros r td H. change (headerSchema trailingWorld r)
    with (Ok (NewTableDef "" MergeTree (map_seq 0 (unknownField <$> ["id"; "amount_"])))) in H.
  pose proof (f_equal (fun x => match x with Ok y => y | _ => td end) H) as E.
  cbv beta iota in E. rewrite <- E. apply supplied_contiguous.
Qed.

Lemma crash_has_two_causes_witness :
  exists t,
    main R2 trailingWorld (demoArgs "csv" "/data/trailing.csv" "Y" "" "" dquote "N")
    = (t, Crashed "slice bounds out of range")
    /\ exists td i fd, headerSchema trailingWorld
                         {| rKind := FileReader; rSource := "/data/trailing.csv";
                            rSep := Some ","%char; rQuote := 34; rSkip := 1;
                            rSheet := ""; rArea := [] |} = Ok td
                       /\ FieldDefs td !! i = Some fd /\ endsInAny " ._" (Name fd) = true.
Proof.
  destruct (main R2 trailingWorld (demoArgs "csv" "/data/trailing.csv" "Y" "" "" dquote "N"))
    as [t e] eqn:Hm.
  destruct e as [rep|msg|p]; try (vm_compute in Hm; discriminate).
  destruct (crash_has_two_causes R2 trailingWorld _ t p trailingWorld_calm Hm)
    as [[Hq _]|(_ & _ & Hp & rdr & td & i & fd & Hh & Hi & He)].
  - vm_compute in Hq. discriminate.
  - exists t. rewrite Hp. split; [reflexivity|]. exists td, i, fd. auto.
Defined.

(** ** An XLS file fetched over http *)

Lemma convertCommand_temp rev : convertCommand rev (tempXls rev) = Ok (tempConvert rev).
Proof. destruct rev; vm_compute; reflexivity. Qed.

Lemma Replace_temp rev : Replace (tempXls rev) ".xls" ".xlsx" 1 = tempXlsx rev.
Proof. destruct rev; vm_compute; reflexivity. Qed.

(** An XLS source fetched over http is written to the temporary file, which
    is converted and then opened as a workbook next to it; all four steps
    have succeeded when a reader is returned. *)
Theorem http_xls_goes_through_temp_file rev w source quote skip xl sheet t rdr :
  viaHttp source = true ->
  NewReader rev w source "xls" quote skip xl sheet = (t, Ok rdr) ->
  t = [EHttpGet source; EWriteTemp (tempXls rev); EOpen (tempXls rev);
       EConvert (tempConvert rev); EOpenWorkbook (tempXlsx rev)]
  /\ rKind rdr = XlReader /\ rSource rdr = tempXlsx rev
  /\ (exists body, httpBody w source = Ok body)
  /\ writeTempErr w (tempXls rev) = None /\ openErr w (tempXls rev) = None
  /\ convertErr w (tempConvert rev) = None /\ workbookErr w (tempXlsx rev) = None.
Proof.
  intros Hv. unfold NewReader. rewrite Hv. unfold newHttp, newFile.
  cbn [emit io_bind String.eqb Ascii.eqb Bool.eqb orb].
  destruct (httpBody w source) as [body| |]; cbn [lift io_bind app]; try discriminate.
  destruct (writeTempErr w (tempXls rev)); cbn [check fail io_ret io_bind app]; try discriminate.
  destruct (openErr w (tempXls rev)); cbn [check fail io_ret io_bind app]; try discriminate.
  rewrite convertCommand_temp. cbn [lift emit io_bind app].
  destruct (convertErr w (tempConvert rev)); cbn [check fail io_ret io_bind app]; try discriminate.
  rewrite Replace_temp.
  destruct (workbookErr w (tempXlsx rev)); cbn [check fail io_ret io_bind app]; try discriminate.
  destruct (xlReader (tempXlsx rev) quote skip xl sheet) as [r| |] eqn:Hr; try discriminate.
  intros H. inversion H; subst. apply xlReader_shape in Hr as (Hk & Hs & _).
  eauto 10.
Qed.

Lemma http_xls_goes_through_temp_file_witness :
  exists t rdr,
    NewReader R2 demoWorld "http://example.org/book.xls" "xls" 34 0 [0; 0; 0; 0] "" = (t, Ok rdr)
    /\ t = [EHttpGet "http://example.org/book.xls"; EWriteTemp "/tmp/tmp.xls";
            EOpen "/tmp/tmp.xls";
            EConvert ["libreoffice"; "--headless"; "--convert-to"; "xlsx"; "--outdir"; "/tmp";
                      "/tmp/tmp.xls"];
            EOpenWorkbook "/tmp/tmp.xlsx"]
    /\ rSource rdr = "/tmp/tmp.xlsx".
Proof.
  destruct (NewReader R2 demoWorld "http://example.org/book.xls" "xls" 34 0 [0; 0; 0; 0] "")
    as [t [rdr|e|p]] eqn:H; try (vm_compute in H; discriminate).
  assert (Hv : viaHttp "http://example.org/book.xls" = true) by reflexivity.
  destruct (http_xls_goes_through_temp_file R2 demoWorld _ 34 0 [0; 0; 0; 0] "" t rdr Hv H)
    as (Ht & _ & Hs & _).
  exists t, rdr. split; [reflexivity|]. split; [exact Ht | exact Hs].
Defined.

(** ** The route of the reader *)




